(** * TRAJEP: a LAMMPS trajectory parser, embedded and verified

    The development follows [TRAJEP.py]: the per-file decoding loop
    (lines 73-117), the crossing scan fused with normalisation
    (lines 124-146), the derivation of the plotted series
    (lines 149-157), and before them the command line and the choice of
    the files (lines 13-51).  Python values are modelled as follows.

    - [int] is unbounded: [Z].  List and array indices are [Z] as well, so
      that Python's wrap-around of negative indices is part of the model.
    - [str] is [string]: a sequence of characters with code points below
      256.
    - [float] (IEEE binary64) is a type class [PyFloat]: the theorems hold for
      every implementation of the operations; the instance [float64] on
      Rocq's primitive floats is used for the concrete runs.
    - exceptions are the [Raise] branch of [outcome]; an uncaught exception
      ends the program, so nothing is threaded through a [Raise].
    - [dict] is stdpp's [gmap]; a 2-D numpy array is a list of rows.
    - the files are a map from paths to the lines [readlines] returns; the
      handles are a list of paths, those that [open] has returned and on
      which [close] has not been called.

    [print] and the plots are outside the model: the result of a run is
    what the plotting loop of line 161 receives, or the exception that ends
    the program. *)

From Stdlib Require Import ZArith QArith.QArith_base Strings.String Strings.Ascii.
From Stdlib Require Import Floats.PrimFloat Floats.FloatOps Numbers.Cyclic.Int63.Uint63.
From stdpp Require Import base option list gmap strings sorting.

Local Open Scope Z_scope.

(** ** Python run-time: exceptions, sequences, built-ins *)

Module Py.

Inductive exn : Set :=
| ValueError
| IndexError
| KeyError
| ZeroDivisionError
| OverflowError
| FileNotFoundError.

Inductive outcome (A : Type) : Type :=
| Ok (a : A)
| Raise (e : exn).
Arguments Ok {A} a.
Arguments Raise {A} e.

Definition bind {A B} (c : outcome A) (k : A → outcome B) : outcome B :=
  match c with
  | Ok a => k a
  | Raise e => Raise e
  end.

Definition or_raise {A} (e : exn) (o : option A) : outcome A :=
  match o with
  | Some a => Ok a
  | None => Raise e
  end.

(** [for x in xs: s = body(x, s)], stopping at the first exception. *)
Fixpoint for_each {S A} (body : A → S → outcome S) (xs : list A) (s : S)
  : outcome S :=
  match xs with
  | [] => Ok s
  | x :: xs' => bind (body x s) (for_each body xs')
  end.

(** [range(lo, hi)] *)
Definition range (lo hi : Z) : list Z := seqZ lo (hi - lo).

(** [l[k]]: a negative index counts from the end. *)
Definition norm_index (len : nat) (k : Z) : option nat :=
  let k' := if k <? 0 then k + Z.of_nat len else k in
  if (0 <=? k') && (k' <? Z.of_nat len) then Some (Z.to_nat k') else None.

Definition getitem {A} (l : list A) (k : Z) : outcome A :=
  match norm_index (length l) k with
  | Some i => or_raise IndexError (l !! i)
  | None => Raise IndexError
  end.

(** [l[k] = v] *)
Definition setitem {A} (l : list A) (k : Z) (v : A) : outcome (list A) :=
  match norm_index (length l) k with
  | Some i => Ok (<[i := v]> l)
  | None => Raise IndexError
  end.

(** [d[k]] on a dict *)
Definition dict_getitem {V} (d : gmap Z V) (k : Z) : outcome V :=
  or_raise KeyError (d !! k).

(** [sorted(l)] on integers *)
Definition sorted (l : list Z) : list Z := merge_sort Z.le l.

(** [s[0:len(s)-1]] *)
Definition drop_last (s : string) : string :=
  substring 0 (String.length s - 1) s.

(** Characters for which [str.isspace] holds: the C white space, the
    separators 28 to 31, the next-line control and the no-break space. *)
Definition is_space (c : ascii) : bool :=
  let n := nat_of_ascii c in
  (((9 <=? n) && (n <=? 13)) || ((28 <=? n) && (n <=? 32))
   || (n =? 133) || (n =? 160))%nat.

(** Characters that [int] and [float] skip around a literal: the C white
    space and the white space above 127, which they turn into a space
    first.  The separators 28 to 31 are not among them. *)
Definition is_literal_space (c : ascii) : bool :=
  let n := nat_of_ascii c in
  (((9 <=? n) && (n <=? 13)) || (n =? 32) || (n =? 133) || (n =? 160))%nat.

Definition digit_val (c : ascii) : option Z :=
  let n := nat_of_ascii c in
  if ((48 <=? n) && (n <=? 57))%nat then Some (Z.of_nat (n - 48)) else None.

Fixpoint lstrip (cs : list ascii) : list ascii :=
  match cs with
  | c :: cs' => if is_literal_space c then lstrip cs' else cs
  | [] => []
  end.

Definition strip (cs : list ascii) : list ascii :=
  rev (lstrip (rev (lstrip cs))).

(** The digits of a decimal literal; [_] may separate two digits.
    [after_digit] tells whether the previous character was a digit. *)
Fixpoint int_digits (acc : Z) (after_digit : bool) (cs : list ascii)
  : option Z :=
  match cs with
  | [] => if after_digit then Some acc else None
  | c :: cs' =>
      match digit_val c with
      | Some d => int_digits (10 * acc + d) true cs'
      | None =>
          if (Ascii.eqb c "_") && after_digit then int_digits acc false cs'
          else None
      end
  end.

Definition signed {A} (digits : list ascii → option A) (neg : A → A)
  (cs : list ascii) : option A :=
  match cs with
  | "+"%char :: cs' => digits cs'
  | "-"%char :: cs' => neg <$> digits cs'
  | _ => digits cs
  end.

(** [int(s)], base 10; [None] is [ValueError], which [to_int] raises. *)
Definition int_of_str (s : string) : option Z :=
  signed (int_digits 0 false) Z.opp (strip (list_ascii_of_string s)).

Definition to_int (s : string) : outcome Z :=
  or_raise ValueError (int_of_str s).

(** [s.split()]: the maximal runs of non-space characters. *)
Fixpoint split_from (cur : list ascii) (cs : list ascii) : list string :=
  let flush rest :=
    match cur with
    | [] => rest
    | _ => string_of_list_ascii (rev cur) :: rest
    end in
  match cs with
  | [] => flush []
  | c :: cs' =>
      if is_space c then flush (split_from [] cs') else split_from (c :: cur) cs'
  end.

Definition split (s : string) : list string :=
  split_from [] (list_ascii_of_string s).

(** [a / b] on integers is true division.  The float quotient is modelled
    by the exact one: for operands below 2^53, as line counts are, both
    truncate to the same integer, and the program uses the quotient through
    [int] only. *)
Definition truediv (a b : Z) : outcome Q :=
  if b =? 0 then Raise ZeroDivisionError
  else Ok (Qmake (a * Z.sgn b) (Z.to_pos (Z.abs b))).

(** [int(q)] truncates towards zero. *)
Definition int_of_Q (q : Q) : Z := Z.quot (Qnum q) (Zpos (Qden q)).

End Py.

Import Py.

#[export] Instance outcome_ret : MRet outcome := @Ok.
#[export] Instance outcome_bind : MBind outcome :=
  λ A B k c, Py.bind c k.

(** ** Floating point *)

(** The operations of Python's [float] and numpy's [float64] that the program
    uses.  [float_of_str] is [float(s)], with [None] for [ValueError];
    [float_of_int] is the conversion applied when an [int] meets a [float]
    in arithmetic, with [None] for the [OverflowError] of an [int] too large
    for a [float]; [RF] and [TIMESTEP] are the literals [8.6] and
    [0.00005] of lines 26-27. *)
Class PyFloat (F : Type) := {
  float_of_str : string → option F;
  float_of_int : Z → option F;
  fge : F → F → bool;
  fdiv : F → F → F;
  fmul : F → F → F;
  RF : F;
  TIMESTEP : F;
}.

Module Float64.

(** Round-to-nearest conversion of a non-negative integer.  Above 62 bits
    the low bits are folded into a sticky bit first, so the single rounding
    of [of_uint63] is the rounding of the whole number. *)
Definition of_nonneg (z : Z) : float :=
  let n := Z.log2 z + 1 in
  if n <=? 62 then of_uint63 (Uint63.of_Z z)
  else
    let sh := n - 62 in
    let sticky := if Z.land z (Z.ones sh) =? 0 then 0 else 1 in
    Z.ldexp (of_uint63 (Uint63.of_Z (2 * Z.shiftr z sh + sticky))) (sh - 1).

(** The conversion of an [int]: it fails when the rounded value is not
    finite, that is from [2^1024 - 2^970] on. *)
Definition of_Z (z : Z) : option float :=
  let x := if z <? 0 then PrimFloat.opp (of_nonneg (- z)) else of_nonneg z in
  if PrimFloat.is_infinity x then None else Some x.

(** Plain digits, without separators. *)
Fixpoint digits (acc : Z) (cs : list ascii) : option Z :=
  match cs with
  | [] => Some acc
  | c :: cs' => d ← digit_val c; digits (10 * acc + d) cs'
  end.

Fixpoint leading_digits (cs : list ascii) : list ascii * list ascii :=
  match cs with
  | c :: cs' =>
      if bool_decide (is_Some (digit_val c))
      then let '(ds, rest) := leading_digits cs' in (c :: ds, rest)
      else ([], cs)
  | [] => ([], [])
  end.

(** An unsigned decimal literal [ddd], [ddd.ddd], [ddd.] or [.ddd] with a
    mantissa below 2^53 and at most 22 fraction digits: mantissa and power
    of ten are then exact, and one division rounds correctly. *)
Definition unsigned_literal (cs : list ascii) : option float :=
  let '(ip, rest) := leading_digits cs in
  let fp := match rest with
            | "."%char :: fp => Some fp
            | [] => Some []
            | _ => None
            end in
  fp ← fp;
  m ← digits 0 (ip ++ fp);
  if bool_decide (ip ++ fp = []) then None
  else if (m <? 2 ^ 53) && (Z.of_nat (length fp) <=? 22)
       then Some (PrimFloat.div (of_nonneg m)
                    (of_nonneg (10 ^ Z.of_nat (length fp))))
       else None.

(** [float(s)] on the literals above; exponents, separators, [inf] and
    [nan], which Python accepts too, are outside this instance. *)
Definition of_str (s : string) : option float :=
  signed unsigned_literal PrimFloat.opp (strip (list_ascii_of_string s)).

End Float64.

#[warnings="-inexact-float"]
Definition float64 : PyFloat float := {|
  float_of_str := Float64.of_str;
  float_of_int := Float64.of_Z;
  fge := λ a b, PrimFloat.leb b a;
  fdiv := PrimFloat.div;
  fmul := PrimFloat.mul;
  RF := 8.6%float;
  TIMESTEP := 0.00005%float;
|}.

(** ** The program *)

(** Entries of [polymerMeta].  [numDumps] is the quotient of line 81, which
    the program keeps unrounded and truncates with [int] at every use. *)
Record meta := Meta {
  numAtoms : Z;
  numDumps : Q;
  dumpStep : Z;
}.

Section Program.

Context {F : Type} `{!PyFloat F}.

(** The cells of an array that [np.empty] has allocated hold whatever was
    in memory. *)
Variable uninit : nat → nat → F.

(** *** numpy arrays *)

Definition np_empty (rows cols : Z) : outcome (list (list F)) :=
  if (rows <? 0) || (cols <? 0) then Raise ValueError
  else Ok ((λ r, uninit r <$> seq 0 (Z.to_nat cols)) <$> seq 0 (Z.to_nat rows)).

Definition np_empty1 (n : Z) : outcome (list F) :=
  if n <? 0 then Raise ValueError
  else Ok (uninit 0 <$> seq 0 (Z.to_nat n)).

(** [a[r][c]] *)
Definition np_get (a : list (list F)) (r c : Z) : outcome F :=
  row ← getitem a r; getitem row c.

(** [a[r][c] = v]: the row is a view, the array itself is updated. *)
Definition np_set (a : list (list F)) (r c : Z) (v : F)
  : outcome (list (list F)) :=
  row ← getitem a r;
  row' ← setitem row c v;
  setitem a r row'.

(** [float(s)] *)
Definition to_float (s : string) : outcome F :=
  or_raise ValueError (float_of_str s).

(** The conversion of the [int] operand of [k * x] and [x * k]. *)
Definition int_to_float (k : Z) : outcome F :=
  or_raise OverflowError (float_of_int k).

(** *** Reading one dump file (lines 76-116) *)

(** Body of the loop of lines 89-94. *)
Definition collect_id (lines : list string) (i : Z) (atomList : list Z)
  : outcome (list Z) :=
  let lineIndex := i + 9 in
  currentLine ← getitem lines lineIndex;
  let lineElements := split currentLine in
  e0 ← getitem lineElements 0;
  atomId ← to_int e0;
  mret (atomList ++ [atomId]).

(** Body of the loop of lines 97-98. *)
Definition index_id (atomList : list Z) (i : Z) (idToIndex : gmap Z Z)
  : outcome (gmap Z Z) :=
  a ← getitem atomList i;
  mret (<[a := i]> idToIndex).

(** Lines 88-98: the identifiers of the first chunk, sorted, then numbered. *)
Definition build_idToIndex (lines : list string) (numAtoms : Z)
  : outcome (gmap Z Z) :=
  atomList ← for_each (collect_id lines) (range 0 numAtoms) [];
  let atomList := sorted atomList in
  for_each (index_id atomList) (range 0 numAtoms) ∅.

(** Body of the inner loop of lines 103-109.  Next to the array the state
    carries the list of the cells assigned so far, in order. *)
Definition record_line (lines : list string) (idToIndex : gmap Z Z) (i j : Z)
  (st : list (list F) * list (Z * Z)) : outcome (list (list F) * list (Z * Z)) :=
  currentLine ← getitem lines j;
  let lineElements := split currentLine in
  e0 ← getitem lineElements 0;
  atomId ← to_int e0;
  e1 ← getitem lineElements 1;
  xPos ← to_float e1;
  atomIndex ← dict_getitem idToIndex atomId;
  newPolymerData ← np_set st.1 atomIndex i xPos;
  mret (newPolymerData, st.2 ++ [(atomIndex, i)]).

(** Body of the outer loop of lines 101-109. *)
Definition record_dump (lines : list string) (idToIndex : gmap Z Z)
  (numAtoms dumpLength : Z) (i : Z) (st : list (list F) * list (Z * Z))
  : outcome (list (list F) * list (Z * Z)) :=
  let dumpIndex := i * dumpLength + 9 in
  for_each (record_line lines idToIndex i)
    (range dumpIndex (dumpIndex + numAtoms)) st.

(** Lines 101-109. *)
Definition assemble (lines : list string) (idToIndex : gmap Z Z)
  (numAtoms dumpLength nd : Z) (newPolymerData : list (list F))
  : outcome (list (list F) * list (Z * Z)) :=
  for_each (record_dump lines idToIndex numAtoms dumpLength)
    (range 0 nd) (newPolymerData, []).

(** Lines 77-116 for the lines of one file.  [None] is the [continue] of
    lines 78 and 83; otherwise the matrix, its metadata and the cells that
    the assembly assigned. *)
Definition decode (lines : list string)
  : outcome (option (list (list F) * meta * list (Z * Z))) :=
  if (length lines <? 4)%nat then mret None else
  l3 ← getitem lines 3;
  numAtoms ← to_int (drop_last l3);
  let dumpLength := numAtoms + 9 in
  numDumps ← truediv (Z.of_nat (length lines)) dumpLength;
  if Z.of_nat (length lines) <? dumpLength + 2 then mret None else
  ld ← getitem lines (dumpLength + 1);
  dumpStep ← to_int (drop_last ld);
  newPolymerData ← np_empty numAtoms (int_of_Q numDumps);
  idToIndex ← build_idToIndex lines numAtoms;
  r ← assemble lines idToIndex numAtoms dumpLength (int_of_Q numDumps)
        newPolymerData;
  mret (Some (r.1, Meta numAtoms numDumps dumpStep, r.2)).

(** *** The loop over the files (lines 73-117) *)

(** The lists the loop appends to, and the files that were opened and on
    which [close] has not been called. *)
Record reader := Reader {
  polymerList : list (list (list F));
  polymerMeta : list meta;
  open_files : list string;
}.

(** [file.close()]: the handle leaves that list. *)
Fixpoint close (dumpFile : string) (opened : list string) : list string :=
  match opened with
  | [] => []
  | f :: fs => if String.eqb f dumpFile then fs else f :: close dumpFile fs
  end.

(** One iteration.  [disk] gives the lines [readlines] returns for a path. *)
Definition read_dump (disk : gmap string (list string)) (dumpFile : string)
  (w : reader) : outcome reader :=
  lines ← or_raise FileNotFoundError (disk !! dumpFile);
  let opened := dumpFile :: open_files w in
  r ← decode lines;
  match r with
  | None => mret (Reader (polymerList w) (polymerMeta w) opened)
  | Some (newPolymerData, m, _) =>
      mret (Reader (polymerList w ++ [newPolymerData]) (polymerMeta w ++ [m])
              (close dumpFile opened))
  end.

Definition read_dumps (disk : gmap string (list string))
  (fileList : list string) : outcome reader :=
  for_each (read_dump disk) fileList (Reader [] [] []).

(** *** The crossing scan and the normalisation (lines 136-144) *)

(** The variables of the scan; [divided] lists the cells that line 144 has
    divided so far, in order. *)
Record scan_state := Scan {
  firstMonomerFound : bool;
  firstMonomerCoords : list Z;
  polymerData : list (list F);
  divided : list (Z * Z);
}.

(** Lines 140-144 for one cell. *)
Definition scan_cell (x1 : F) (t j : Z) (s : scan_state) : outcome scan_state :=
  xPos ← np_get (polymerData s) j t;
  let hit := fge xPos x1 && negb (firstMonomerFound s) in
  let found := if hit then true else firstMonomerFound s in
  let coords := if hit then [j; t] else firstMonomerCoords s in
  cur ← np_get (polymerData s) j t;
  a ← np_set (polymerData s) j t (fdiv cur RF);
  mret (Scan found coords a (divided s ++ [(j, t)])).

(** Lines 136-144. *)
Definition scan (x1 : F) (m : meta) (a : list (list F)) : outcome scan_state :=
  for_each (λ t, for_each (scan_cell x1 t) (range 0 (numAtoms m)))
    (range 0 (int_of_Q (numDumps m))) (Scan false [] a []).

(** *** The series (lines 124-157) *)

(** The lists of the second loop; [polymers] is [polymerList], whose arrays
    the scan normalises in place. *)
Record analysis := Analysis {
  polymers : list (list (list F));
  firstMonomerIndex : list Z;
  firstMonomerTime : list Z;
  distAxis : list (list (list F));
  timeAxis : list (list (list F));
}.

(** Lines 151-154 for one timestep. *)
Definition series_step (m : meta) (a : list (list F))
  (firstMonomerIndex firstMonomerTime : list Z) (i t : Z)
  (st : list (list F) * list (list F))
  : outcome (list (list F) * list (list F)) :=
  v0 ← np_get a 0 t;
  distArray ← np_set st.1 0 t v0;
  v1 ← np_get a (numAtoms m - 1) t;
  distArray ← np_set distArray 1 t v1;
  front ← getitem firstMonomerIndex i;
  v2 ← np_get a front t;
  distArray ← np_set distArray 2 t v2;
  t0 ← getitem firstMonomerTime i;
  offset ← int_to_float (t - t0);
  step ← int_to_float (dumpStep m);
  let v := fmul (fmul offset TIMESTEP) step in
  timeArray ← np_set st.2 0 t v;
  mret (distArray, timeArray).

(** One iteration of the loop of line 124. *)
Definition derive (x1 : F) (polymerMeta : list meta) (i : Z) (w : analysis)
  : outcome analysis :=
  a ← getitem (polymers w) i;
  m ← getitem polymerMeta i;
  let nd := int_of_Q (numDumps m) in
  d0 ← np_empty1 nd;
  d1 ← np_empty1 nd;
  d2 ← np_empty1 nd;
  t0 ← np_empty1 nd;
  s ← scan x1 m a;
  polymers' ← setitem (polymers w) i (polymerData s);
  c0 ← getitem (firstMonomerCoords s) 0;
  let firstMonomerIndex := firstMonomerIndex w ++ [c0] in
  c1 ← getitem (firstMonomerCoords s) 1;
  let firstMonomerTime := firstMonomerTime w ++ [c1] in
  _ ← getitem firstMonomerIndex i;
  _ ← getitem firstMonomerTime i;
  r ← for_each
        (series_step m (polymerData s) firstMonomerIndex firstMonomerTime i)
        (range 0 nd) ([d0; d1; d2], [t0]);
  mret (Analysis polymers' firstMonomerIndex firstMonomerTime
          (distAxis w ++ [r.1]) (timeAxis w ++ [r.2])).

(** Lines 120-157. *)
Definition derive_all (x1 : F) (polymerList : list (list (list F)))
  (polymerMeta : list meta) : outcome analysis :=
  for_each (derive x1 polymerMeta)
    (range 0 (Z.of_nat (length polymerList)))
    (Analysis polymerList [] [] [] []).

(** Lines 71-157: what is handed to the plotting code. *)
Definition trajep (x1 : F) (disk : gmap string (list string))
  (fileList : list string) : outcome analysis :=
  w ← read_dumps disk fileList;
  derive_all x1 (polymerList w) (polymerMeta w).

End Program.

Arguments reader F : clear implicits.
Arguments scan_state F : clear implicits.
Arguments analysis F : clear implicits.

(** ** Vocabulary of the specification *)

(** The identifier an atom line starts with (lines 92-93 and 105-106). *)
Definition parse_id (line : string) : outcome Z :=
  e0 ← getitem (split line) 0; to_int e0.

(** The atom lines of chunk [i]: [numAtoms] lines after the nine header
    lines of the chunk. *)
Definition atom_lines (lines : list string) (dumpLength numAtoms i : Z)
  : list string :=
  take (Z.to_nat numAtoms) (drop (Z.to_nat (i * dumpLength + 9)) lines).

(** Chunk [i] has [numAtoms] atom lines, whose identifiers are [ids], in
    the order of the text. *)
Definition chunk_ids (lines : list string) (dumpLength numAtoms i : Z)
  (ids : list Z) : Prop :=
  length ids = Z.to_nat numAtoms ∧
  Forall2 (λ line id, parse_id line = Ok id)
    (atom_lines lines dumpLength numAtoms i) ids.

(** The header can be read: line 3 gives a count [numAtoms] of atoms that is
    not negative, and line [dumpLength + 1] exists and gives [dumpStep]. *)
Definition readable_header (lines : list string) (numAtoms dumpStep : Z)
  : Prop :=
  ∃ l3 ld,
    lines !! 3%nat = Some l3 ∧ int_of_str (drop_last l3) = Some numAtoms ∧
    0 ≤ numAtoms ∧
    lines !! Z.to_nat (numAtoms + 9 + 1) = Some ld ∧
    int_of_str (drop_last ld) = Some dumpStep.

(** [int(numDumps)]: the number of whole chunks among the lines. *)
Definition num_chunks (lines : list string) (numAtoms : Z) : Z :=
  Z.of_nat (length lines) ÷ (numAtoms + 9).

(** The entry that line 112 appends to [polymerMeta]. *)
Definition meta_of (lines : list string) (numAtoms dumpStep : Z) : meta :=
  Meta numAtoms (Qmake (Z.of_nat (length lines)) (Z.to_pos (numAtoms + 9)))
    dumpStep.

Section Vocabulary.

Context {F : Type} `{!PyFloat F}.

(** Identifier and coordinate of an atom line, read as lines 105-107 do. *)
Definition parse_atom (line : string) : outcome (Z * F) :=
  let lineElements := split line in
  e0 ← getitem lineElements 0;
  atomId ← to_int e0;
  e1 ← getitem lineElements 1;
  xPos ← to_float e1;
  mret (atomId, xPos).

(** Lines 108-109 for an atom of chunk [i]. *)
Definition store_atom (idToIndex : gmap Z Z) (i : Z) (atom : Z * F)
  (st : list (list F) * list (Z * Z)) : outcome (list (list F) * list (Z * Z)) :=
  atomIndex ← dict_getitem idToIndex atom.1;
  newPolymerData ← np_set st.1 atomIndex i atom.2;
  mret (newPolymerData, st.2 ++ [(atomIndex, i)]).

(** Chunk [i] has [numAtoms] well-formed atom lines, which read as [atoms],
    in the order of the text. *)
Definition chunk_atoms (lines : list string) (dumpLength numAtoms i : Z)
  (atoms : list (Z * F)) : Prop :=
  length atoms = Z.to_nat numAtoms ∧
  Forall2 (λ line atom, parse_atom line = Ok atom)
    (atom_lines lines dumpLength numAtoms i) atoms.

(** The atoms of the lines that are well-formed atom lines. *)
Definition parsed_atoms (ls : list string) : list (Z * F) :=
  omap (λ line, match parse_atom line with
                | Ok atom => Some atom
                | Raise _ => None
                end) ls.

(** The cells that the atoms of chunk [i] are stored in. *)
Definition cells_of (idToIndex : gmap Z Z) (i : Z) (atoms : list (Z * F))
  : list (Z * Z) :=
  (λ atom, (default 0 (idToIndex !! atom.1), i)) <$> atoms.

(** An array of [n] rows of [d] cells each. *)
Definition shape (a : list (list F)) (n d : Z) : Prop :=
  Z.of_nat (length a) = n ∧ 0 ≤ d ∧
  Forall (λ row : list F, Z.of_nat (length row) = d) a.

(** The cells [(atom, timestep)] in the order of the scan: timestep by
    timestep, and atom by atom within a timestep. *)
Definition scan_order (n d : Z) : list (Z * Z) :=
  t ← range 0 d; (λ j, (j, t)) <$> range 0 n.

(** Cell [c] comes before cell [c'] in that order. *)
Definition earlier (c c' : Z * Z) : Prop :=
  c.2 < c'.2 ∨ (c.2 = c'.2 ∧ c.1 < c'.1).

(** The coordinate stored at [(j, t)] is at least [x1]. *)
Definition crosses (x1 : F) (a : list (list F)) (c : Z * Z) : bool :=
  match np_get a c.1 c.2 with
  | Ok x => fge x x1
  | Raise _ => false
  end.

(** The first cell of the scan order that crosses, if any. *)
Definition first_crossing (x1 : F) (a : list (list F)) (n d : Z)
  : option (Z * Z) :=
  find (crosses x1 a) (scan_order n d).

(** Every cell divided by [RF], once. *)
Definition normalised (a : list (list F)) : list (list F) :=
  fmap (M := list) (λ x : F, fdiv x RF) <$> a.

(** [(t - t0) * TIMESTEP * dumpStep]: the time of timestep [t] relative to a
    crossing at timestep [t0]; [None] when [t - t0] or [dumpStep] is too
    large for a [float]. *)
Definition time_of (m : meta) (t0 t : Z) : option F :=
  offset ← float_of_int (t - t0);
  step ← float_of_int (dumpStep m);
  Some (fmul (fmul offset TIMESTEP) step).

(** Line 154 can convert its integers at every timestep of the file. *)
Definition convertible (m : meta) (t0 : Z) : bool :=
  forallb (λ t, bool_decide (is_Some (time_of m t0 t)))
    (range 0 (int_of_Q (numDumps m))).

End Vocabulary.

(** ** The start of the program (lines 13-51) *)

(** [len(s)] *)
Definition str_len (s : string) : Z := Z.of_nat (String.length s).

(** A bound of a slice: a negative one counts from the end, and both are
    cut to the string. *)
Definition slice_bound (len : nat) (k : Z) : nat :=
  Z.to_nat (Z.min (Z.of_nat len) (Z.max 0 (if k <? 0 then k + Z.of_nat len else k))).

(** [s[a:b]] *)
Definition str_slice (s : string) (a b : Z) : string :=
  let cs := list_ascii_of_string s in
  let a' := slice_bound (length cs) a in
  let b' := slice_bound (length cs) b in
  string_of_list_ascii (take (b' - a') (drop a' cs)).

(** [s[k]], a string of one character *)
Definition str_getitem (s : string) (k : Z) : outcome string :=
  c ← getitem (list_ascii_of_string s) k; mret (String c EmptyString).

(** [os.path.join(a, b)] with [/] as separator. *)
Definition path_join (a b : string) : string :=
  if String.prefix "/" b then b
  else if String.eqb a "" || bool_decide (last (list_ascii_of_string a) = Some "/"%char)
       then (a ++ b)%string
       else (a ++ "/" ++ b)%string.

(** Line 25 *)
Definition MIN_NAME_LENGTH : Z := str_len "x.lammpstrj".

(** Body of the loop of lines 34-48; [isfile] is [os.path.isfile]. *)
Definition consider (cwd : string) (isfile : string → bool) (name : string)
  (fileList : list string) : outcome (list string) :=
  if negb (isfile (path_join cwd name)) then mret fileList else
  if str_len name <? MIN_NAME_LENGTH then mret fileList else
  let fileName :=
    str_slice name (str_len name - MIN_NAME_LENGTH + 1) (str_len name) in
  c ← str_getitem name (str_len name - MIN_NAME_LENGTH);
  let isWall := String.eqb c "w" in
  if negb (String.eqb fileName ".lammpstrj") || isWall then mret fileList else
  let fileDirectory := path_join cwd name in
  mret (fileList ++ [fileDirectory]).

(** Lines 31-51; [listing] is what [os.listdir(cwd)] returns.  The other
    branch only prints. *)
Definition discover (parseDescendants : bool) (cwd : string)
  (isfile : string → bool) (listing : list string) : outcome (list string) :=
  if negb parseDescendants then for_each (consider cwd isfile) listing []
  else mret [].

(** How a run ends: with a result, with an uncaught exception of the
    run-time, or with the [AttributeError] that line 15 raises. *)
Inductive run (A : Type) : Type :=
| Done (a : A)
| Uncaught (e : exn)
| AttributeError.
Arguments Done {A} a.
Arguments Uncaught {A} e.
Arguments AttributeError {A}.

Definition run_of {A} (c : outcome A) : run A :=
  match c with
  | Ok a => Done a
  | Raise e => Uncaught e
  end.

Section Main.

Context {F : Type} `{!PyFloat F}.
Variable uninit : nat → nat → F.

(** Lines 13-22: the two thresholds.  The first argument is not looked at,
    line 20 sets [parseDescendants] to [False]. *)
Definition thresholds (argv : list string) : run (F * F) :=
  let numArgs := Z.of_nat (length argv) - 1 in
  if numArgs <? 3 then AttributeError else
  run_of (a2 ← getitem argv 2;
          x1 ← to_float a2;
          a3 ← getitem argv 3;
          x2 ← to_float a3;
          mret (x1, x2)).

(** Lines 13-157, for the command line [argv], the working directory [cwd]
    with the names [listing] in it, and the files of [disk]. *)
Definition main (argv : list string) (cwd : string) (isfile : string → bool)
  (listing : list string) (disk : gmap string (list string))
  : run (analysis F) :=
  match thresholds argv with
  | Done (x1, x2) =>
      let parseDescendants := false in
      run_of (fileList ← discover parseDescendants cwd isfile listing;
              trajep uninit x1 disk fileList)
  | Uncaught e => Uncaught e
  | AttributeError => AttributeError
  end.

(** The file is skipped by line 78 or line 83. *)
Definition skipped (disk : gmap string (list string)) (dumpFile : string)
  : bool :=
  match disk !! dumpFile with
  | Some lines =>
      match decode uninit lines with
      | Ok None => true
      | _ => false
      end
  | None => false
  end.

(** What the loop of line 124 finds for a file: its first crossing; the
    [IndexError] of line 145 when there is none; the [OverflowError] of
    line 154 when there is one and an integer of the time is too large. *)
Definition verdict (x1 : F) (a : list (list F)) (m : meta) : outcome (Z * Z) :=
  match first_crossing x1 a (numAtoms m) (int_of_Q (numDumps m)) with
  | None => Raise IndexError
  | Some c0 => if convertible m c0.2 then Ok c0 else Raise OverflowError
  end.

(** The verdicts of the files, in their order. *)
Definition verdicts (x1 : F) (polymerList : list (list (list F)))
  (polymerMeta : list meta) : list (outcome (Z * Z)) :=
  zip_with (verdict x1) polymerList polymerMeta.

(** Every matrix has the shape its metadata gives. *)
Definition well_shaped (polymerList : list (list (list F)))
  (polymerMeta : list meta) : Prop :=
  Forall2 (λ a m, shape a (numAtoms m) (int_of_Q (numDumps m)))
    polymerList polymerMeta.

End Main.

(** A name that [discover] keeps: something, then a character that is not
    [w], then [.lammpstrj]. *)
Definition trajectory_name (name : string) : Prop :=
  ∃ (stem : string) (c : ascii),
    name = (stem ++ String c ".lammpstrj")%string ∧ c ≠ "w"%char.

Module Listing.

(** A directory with a trajectory, its wall file, a subdirectory, a file
    whose name is only the extension, and a trajectory whose name starts
    with [w]. *)
Definition names : list string :=
  ["run1.lammpstrj"; "run1w.lammpstrj"; "old.lammpstrj"; ".lammpstrj";
   "notes.txt"; "wall.lammpstrj"]%string.

Definition isfile (path : string) : bool :=
  negb (String.eqb path "/data/old.lammpstrj").

Definition argv : list string := ["TRAJEP.py"; "true"; "4"; "12.5"]%string.

End Listing.

(** ** Sample files *)

Module Sample.

Definition newline : string := String (ascii_of_nat 10) EmptyString.

(** What [readlines] returns for a text: every line ends with a newline. *)
Definition readlines (text : list string) : list string :=
  (λ l, (l ++ newline)%string) <$> text.

Definition chunk_header (timestep count : string) : list string :=
  ["ITEM: TIMESTEP"; timestep; "ITEM: NUMBER OF ATOMS"; count;
   "ITEM: BOX BOUNDS pp pp pp"; "-50 50"; "-50 50"; "-50 50";
   "ITEM: ATOMS id x y z vx vy vz"]%string.

(** Two chunks of three atoms, listed in different orders, and the first
    three lines of a third chunk. *)
Definition truncated : list string :=
  readlines
    (chunk_header "0" "3"
     ++ ["30 1.5 0 0 0 0 0"; "10 2.5 0 0 0 0 0"; "20 3.5 0 0 0 0 0"]%string
     ++ chunk_header "1000" "3"
     ++ ["20 4.5 0 0 0 0 0"; "30 0.5 0 0 0 0 0"; "10 8.6 0 0 0 0 0"]%string
     ++ ["ITEM: TIMESTEP"; "2000"; "ITEM: NUMBER OF ATOMS"]%string).

(** The same file with the atom lines of each chunk in another order. *)
Definition reordered : list string :=
  readlines
    (chunk_header "0" "3"
     ++ ["10 2.5 0 0 0 0 0"; "20 3.5 0 0 0 0 0"; "30 1.5 0 0 0 0 0"]%string
     ++ chunk_header "1000" "3"
     ++ ["10 8.6 0 0 0 0 0"; "20 4.5 0 0 0 0 0"; "30 0.5 0 0 0 0 0"]%string
     ++ ["ITEM: TIMESTEP"; "2000"; "ITEM: NUMBER OF ATOMS"]%string).

(** A file that stops after the count of atoms. *)
Definition four_lines : list string :=
  readlines ["ITEM: TIMESTEP"; "0"; "ITEM: NUMBER OF ATOMS"; "1"]%string.

(** Two chunks of two atoms in which the identifier 7 stands twice. *)
Definition duplicates : list string :=
  readlines
    (chunk_header "0" "2" ++ ["7 1.5 0 0 0 0 0"; "7 2.5 0 0 0 0 0"]%string
     ++ chunk_header "500" "2" ++ ["7 3.5 0 0 0 0 0"; "7 4.5 0 0 0 0 0"]%string).

(** Arrays that are zero when allocated. *)
Definition zeros : nat → nat → float := λ _ _, 0%float.

(** The atoms of chunk [i] of [truncated]. *)
Definition truncated_atoms (i : Z) : list (Z * float) :=
  parsed_atoms (PyFloat0 := float64) (atom_lines truncated 12 3 i).

(** The matrix and the metadata decoded from [truncated]. *)
#[warnings="-inexact-float"]
Definition matrix : list (list float) :=
  [[2.5; 8.6]; [3.5; 4.5]; [1.5; 0.5]]%float.

Definition matrix_meta : meta := Meta 3 (Qmake 27 12) 1000.

Definition disk : gmap string (list string) :=
  {[ "short.lammpstrj"%string := four_lines;
     "run.lammpstrj"%string := truncated;
     "again.lammpstrj"%string := reordered ]}.

End Sample.

(** ** Files that are not well formed *)

Module Broken.

(** The count of atoms is not a number. *)
Definition bad_count : list string :=
  Sample.readlines
    ["ITEM: TIMESTEP"; "0"; "ITEM: NUMBER OF ATOMS"; "three";
     "ITEM: BOX BOUNDS pp pp pp"]%string.

(** The second atom line of the first chunk is blank. *)
Definition blank_atom : list string :=
  Sample.readlines
    (Sample.chunk_header "0" "2" ++ ["7 1.5 0 0 0 0 0"; ""]%string
     ++ Sample.chunk_header "500" "2"
     ++ ["7 3.5 0 0 0 0 0"; "8 4.5 0 0 0 0 0"]%string).

(** The last atom line of the second chunk has no coordinate. *)
Definition no_coordinate : list string :=
  Sample.readlines
    (Sample.chunk_header "0" "2"
     ++ ["7 1.5 0 0 0 0 0"; "8 2.5 0 0 0 0 0"]%string
     ++ Sample.chunk_header "500" "2" ++ ["8 3.5 0 0 0 0 0"; "7"]%string).

(** The atoms of the first chunk of [no_coordinate]. *)
Definition first_atoms (i : Z) : list (Z * float) :=
  parsed_atoms (PyFloat0 := float64) (atom_lines no_coordinate 11 2 i).

(** The atoms of chunk [i] of [Sample.duplicates]. *)
Definition duplicate_atoms (i : Z) : list (Z * float) :=
  parsed_atoms (PyFloat0 := float64) (atom_lines Sample.duplicates 11 2 i).

(** [Sample.truncated] with the timestep [10^400] in its second chunk, and
    the metadata decoded from it. *)
Definition huge_step : list string :=
  <[13%nat := (String "1" (string_of_list_ascii (replicate 400 "0"%char))
               ++ Sample.newline)%string]> Sample.truncated.

Definition huge_step_meta : meta := Meta 3 (Qmake 27 12) (10 ^ 400).

(** Two chunks of two atoms that stay below 5, and the matrix decoded from
    them. *)
Definition low : list string :=
  Sample.readlines
    (Sample.chunk_header "0" "2"
     ++ ["7 1.5 0 0 0 0 0"; "8 2.5 0 0 0 0 0"]%string
     ++ Sample.chunk_header "500" "2"
     ++ ["8 3.5 0 0 0 0 0"; "7 4.5 0 0 0 0 0"]%string).

Definition low_matrix : list (list float) := [[1.5; 4.5]; [2.5; 3.5]]%float.

Definition disk : gmap string (list string) :=
  {[ "run.lammpstrj"%string := Sample.truncated;
     "bad.lammpstrj"%string := bad_count;
     "huge.lammpstrj"%string := huge_step;
     "low.lammpstrj"%string := low;
     "again.lammpstrj"%string := Sample.reordered ]}.

End Broken.

(** * Properties *)

(** ** The run-time *)

Section PyFacts.

Implicit Types k : Z.

Lemma bind_Ok {B C} (c : outcome B) (f : B → outcome C) r :
  c ≫= f = Ok r ↔ ∃ b, c = Ok b ∧ f b = Ok r.
Proof.
  destruct c as [b|e]; simpl; split.
  - eauto.
  - by intros (? & [= <-] & ?).
  - done.
  - by intros (? & ? & ?).
Qed.

Lemma for_each_app {A S} (body : A → S → outcome S) xs ys s :
  for_each body (xs ++ ys) s = for_each body xs s ≫= for_each body ys.
Proof.
  revert s. induction xs as [|x xs IH]; intros s; [done|].
  simpl. destruct (body x s) as [s'|e]; simpl; [apply IH|done].
Qed.

Lemma for_each_ext {A S} (f g : A → S → outcome S) xs s :
  (∀ x s', x ∈ xs → f x s' = g x s') → for_each f xs s = for_each g xs s.
Proof.
  revert s. induction xs as [|x xs IH]; intros s Hfg; [done|].
  simpl. rewrite Hfg by left.
  destruct (g x s); simpl; [|done]. apply IH. intros; apply Hfg. by right.
Qed.

(** Two nested loops run as one loop over the pairs. *)
Lemma for_each_nested {A B C S} (f : A → B → S → outcome S)
    (mk : A → B → C) (g : C → S → outcome S) xs ys s :
  (∀ x y, g (mk x y) = f x y) →
  for_each (λ x, for_each (f x) ys) xs s
  = for_each g (x ← xs; mk x <$> ys) s.
Proof.
  intros Hg. revert s. induction xs as [|x xs IH]; intros s; [done|].
  rewrite bind_cons, for_each_app. cbn [for_each].
  assert (Hin : ∀ s0, for_each (f x) ys s0 = for_each g (mk x <$> ys) s0).
  { clear -Hg. induction ys as [|y ys IHy]; intros s0; [done|].
    simpl. rewrite Hg. destruct (f x y s0); simpl; [apply IHy|done]. }
  rewrite Hin. destruct (for_each _ (_ <$> ys) s); simpl; [apply IH|done].
Qed.

Lemma getitem_nonneg {A} (l : list A) k :
  0 ≤ k → getitem l k = or_raise IndexError (l !! Z.to_nat k).
Proof.
  intros Hk. unfold getitem, norm_index.
  destruct (k <? 0) eqn:Hneg; [lia|].
  destruct (0 <=? k) eqn:H0; [|lia]. simpl.
  destruct (k <? Z.of_nat (length l)) eqn:Hlt; [done|].
  rewrite lookup_ge_None_2; [done|lia].
Qed.

Lemma getitem_lookup {A} (l : list A) k x :
  0 ≤ k → l !! Z.to_nat k = Some x → getitem l k = Ok x.
Proof. intros Hk Hx. by rewrite getitem_nonneg, Hx. Qed.

Lemma setitem_in_range {A} (l : list A) k v :
  0 ≤ k < Z.of_nat (length l) → setitem l k v = Ok (<[Z.to_nat k := v]> l).
Proof.
  intros Hk. unfold setitem, norm_index.
  destruct (k <? 0) eqn:Hneg; [lia|].
  destruct (0 <=? k) eqn:H0; [|lia].
  destruct (k <? Z.of_nat (length l)) eqn:Hlt; [done|lia].
Qed.

End PyFacts.

Lemma elem_of_range lo hi k : k ∈ range lo hi ↔ lo ≤ k < hi.
Proof. unfold range. rewrite elem_of_seqZ. lia. Qed.

Lemma NoDup_range lo hi : NoDup (range lo hi).
Proof. apply NoDup_seqZ. Qed.

Lemma lookup_range lo hi (i : nat) :
  lo + Z.of_nat i < hi → range lo hi !! i = Some (lo + Z.of_nat i).
Proof. intros. apply lookup_seqZ_lt. lia. Qed.

Lemma range_nil lo hi : hi ≤ lo → range lo hi = [].
Proof. intros. apply seqZ_nil. lia. Qed.

Lemma range_sorted lo hi : StronglySorted Z.lt (range lo hi).
Proof.
  unfold range.
  assert (H : ∀ k : nat, StronglySorted Z.lt (seqZ lo (Z.of_nat k))).
  { induction k as [|k IH]; [constructor|].
    rewrite seqZ_S. apply StronglySorted_app_2; [|done|repeat constructor].
    intros x y Hx ->%list_elem_of_singleton. apply elem_of_seqZ in Hx. lia. }
  destruct (decide (0 ≤ hi - lo)) as [Hle|Hgt].
  - rewrite <- (Z2Nat.id (hi - lo)) by done. apply H.
  - rewrite seqZ_nil by lia. constructor.
Qed.

(** A loop over indices that reads [lines[j + off]] at index [j] is a loop
    over those lines, when they exist. *)
Lemma for_each_getitem {A St} (lines : list A) (g : A → St → outcome St)
    (body : Z → St → outcome St) (off lo : Z) (n : nat) :
  (∀ j s, body j s = getitem lines (j + off) ≫= λ x, g x s) →
  0 ≤ lo + off → lo + off + Z.of_nat n ≤ Z.of_nat (length lines) →
  ∀ s, for_each body (range lo (lo + Z.of_nat n)) s
       = for_each g (take n (drop (Z.to_nat (lo + off)) lines)) s.
Proof.
  intros Hbody. revert lo. induction n as [|n IH]; intros lo Hlo Hhi s.
  { rewrite range_nil by lia. by rewrite take_0. }
  unfold range. rewrite seqZ_cons by lia. cbn [for_each].
  destruct (lookup_lt_is_Some_2 lines (Z.to_nat (lo + off))) as [x Hx]; [lia|].
  rewrite (drop_S _ x) by done. cbn [take for_each].
  rewrite Hbody, (getitem_lookup _ _ x) by done. simpl.
  destruct (g x s) as [s'|e]; simpl; [|done].
  replace (S (Z.to_nat (lo + off))) with (Z.to_nat (Z.succ lo + off)) by lia.
  rewrite <- IH by lia. unfold range. do 2 f_equal. lia.
Qed.

(** ** The order of the scan *)

Lemma elem_of_scan_order n d c :
  c ∈ scan_order n d ↔ (0 ≤ c.1 < n ∧ 0 ≤ c.2 < d).
Proof.
  unfold scan_order. rewrite list_elem_of_bind. split.
  - intros (t & Hc & Ht). apply list_elem_of_fmap in Hc as (j & -> & Hj).
    apply elem_of_range in Ht, Hj. simpl. lia.
  - intros [Hj Ht]. exists c.2. rewrite elem_of_range. split; [|lia].
    apply list_elem_of_fmap. exists c.1. rewrite elem_of_range.
    split; [by destruct c|lia].
Qed.

Lemma scan_order_sorted n d : StronglySorted earlier (scan_order n d).
Proof.
  unfold scan_order. generalize (range_sorted 0 d).
  induction 1 as [|t ts Hts IH Hlt]; [constructor|].
  rewrite bind_cons. apply StronglySorted_app_2; [| |done].
  - intros c c' (j & -> & _)%list_elem_of_fmap (t' & Hc' & Ht')%list_elem_of_bind.
    apply list_elem_of_fmap in Hc' as (j' & -> & _).
    left. simpl. rewrite Forall_forall in Hlt. auto.
  - apply (StronglySorted_fmap _ Z.lt); [|apply range_sorted].
    intros j j' Hj. by right.
Qed.

Lemma earlier_irrefl c : ¬ earlier c c.
Proof. unfold earlier. lia. Qed.

Lemma earlier_asym c c' : earlier c c' → ¬ earlier c' c.
Proof. unfold earlier. lia. Qed.

Lemma NoDup_scan_order n d : NoDup (scan_order n d).
Proof.
  generalize (scan_order_sorted n d).
  induction 1 as [|c cs Hcs IH Hlt]; constructor; [|done].
  intros Hc. rewrite Forall_forall in Hlt.
  by apply (earlier_irrefl c), Hlt.
Qed.

(** In a list sorted by the scan order, an element is preceded by the
    elements that come earlier, and by them only. *)
Lemma scan_order_split n d pre c post c' :
  scan_order n d = pre ++ c :: post →
  c' ∈ scan_order n d → earlier c' c → c' ∈ pre.
Proof.
  intros Hsplit Hc' Hearlier.
  pose proof (scan_order_sorted n d) as Hsorted.
  rewrite Hsplit in Hc', Hsorted.
  apply elem_of_app in Hc' as [?|Hc']; [done|].
  apply StronglySorted_app_1_r, StronglySorted_cons in Hsorted as [Hlt _].
  apply elem_of_cons in Hc' as [->|Hc'].
  - by apply earlier_irrefl in Hearlier.
  - rewrite Forall_forall in Hlt. destruct (earlier_asym c' c); auto.
Qed.

(** ** Arrays *)

Section Arrays.

Context {F : Type} `{!PyFloat F}.
Implicit Types (a : list (list F)) (j t n d : Z).

Lemma np_get_nonneg a j t :
  0 ≤ j → 0 ≤ t →
  np_get a j t
  = or_raise IndexError (a !! Z.to_nat j ≫= λ row, row !! Z.to_nat t).
Proof.
  intros Hj Ht. unfold np_get. rewrite getitem_nonneg by done.
  destruct (a !! Z.to_nat j) as [row|]; simpl; [|done].
  by rewrite getitem_nonneg.
Qed.

Lemma shape_row a n d (r : nat) row :
  shape a n d → a !! r = Some row → Z.of_nat (length row) = d.
Proof.
  intros (_ & _ & Hrows) Hrow. rewrite Forall_lookup in Hrows. eauto.
Qed.

Lemma np_get_in_range a n d j t :
  shape a n d → 0 ≤ j < n → 0 ≤ t < d → ∃ x, np_get a j t = Ok x.
Proof.
  intros Ha Hj Ht. rewrite np_get_nonneg by lia.
  destruct (lookup_lt_is_Some_2 a (Z.to_nat j)) as [row Hrow].
  { destruct Ha as (<- & _). lia. }
  rewrite Hrow. simpl.
  destruct (lookup_lt_is_Some_2 row (Z.to_nat t)) as [x Hx].
  { apply (shape_row _ _ _ _ _ Ha) in Hrow. lia. }
  rewrite Hx. eauto.
Qed.

(** Assigning a cell in range succeeds, keeps the shape, and changes that
    cell only. *)
Lemma np_set_in_range a n d j t v :
  shape a n d → 0 ≤ j < n → 0 ≤ t < d →
  ∃ a', np_set a j t v = Ok a' ∧ shape a' n d ∧
    np_get a' j t = Ok v ∧
    ∀ j' t', 0 ≤ j' → 0 ≤ t' → (j', t') ≠ (j, t) →
      np_get a' j' t' = np_get a j' t'.
Proof.
  intros Ha Hj Ht.
  destruct (lookup_lt_is_Some_2 a (Z.to_nat j)) as [row Hrow].
  { destruct Ha as (<- & _). lia. }
  pose proof (shape_row _ _ _ _ _ Ha Hrow) as Hlen.
  exists (<[Z.to_nat j := <[Z.to_nat t := v]> row]> a).
  assert (Hjlt : (Z.to_nat j < length a)%nat) by (by eapply lookup_lt_Some).
  split; [|split; [|split]].
  - unfold np_set. rewrite (getitem_lookup _ _ row) by (done || lia). simpl.
    rewrite setitem_in_range by lia. simpl.
    apply setitem_in_range. lia.
  - destruct Ha as (Hn & Hd & Hrows). split; [|split; [done|]].
    + by rewrite length_insert.
    + apply Forall_insert; [done|]. by rewrite length_insert.
  - rewrite np_get_nonneg by lia.
    rewrite list_lookup_insert_eq by done. simpl.
    rewrite list_lookup_insert_eq by lia. done.
  - intros j' t' Hj' Ht' Hne. rewrite !np_get_nonneg by lia.
    destruct (decide (Z.to_nat j = Z.to_nat j')) as [Hjj|Hjj].
    + rewrite <- Hjj, list_lookup_insert_eq, Hrow by done. simpl.
      rewrite list_lookup_insert_ne; [done|].
      intros Htt. apply Hne. f_equal; lia.
    + by rewrite list_lookup_insert_ne.
Qed.

(** Two arrays of one shape with the same cells are the same array. *)
Lemma shape_ext a b n d :
  shape a n d → shape b n d →
  (∀ j t, 0 ≤ j < n → 0 ≤ t < d → np_get a j t = np_get b j t) →
  a = b.
Proof.
  intros Ha Hb Hcells. apply list_eq. intros r.
  destruct (decide (r < length a)%nat) as [Hr|Hr].
  2:{ rewrite !lookup_ge_None_2; [done| |lia].
      destruct Ha as (Hn & _), Hb as (Hn' & _). lia. }
  destruct (lookup_lt_is_Some_2 a r Hr) as [ra Hra].
  destruct (lookup_lt_is_Some_2 b r) as [rb Hrb].
  { destruct Ha as (Hn & _), Hb as (Hn' & _). lia. }
  rewrite Hra, Hrb. f_equal. apply list_eq. intros c.
  pose proof (shape_row _ _ _ _ _ Ha Hra) as Hla.
  pose proof (shape_row _ _ _ _ _ Hb Hrb) as Hlb.
  destruct (decide (c < length ra)%nat) as [Hc|Hc].
  2:{ rewrite !lookup_ge_None_2; [done|lia|lia]. }
  specialize (Hcells (Z.of_nat r) (Z.of_nat c)).
  rewrite !np_get_nonneg, !Nat2Z.id, Hra, Hrb in Hcells by lia. simpl in Hcells.
  destruct (lookup_lt_is_Some_2 ra c Hc) as [x Hx].
  destruct (lookup_lt_is_Some_2 rb c) as [y Hy]; [lia|].
  rewrite Hx, Hy in Hcells |- *. simpl in Hcells.
  destruct Ha as (Hn & _). f_equal.
  assert (Some x = Some y) as [= ->]; [|done].
  cut (Ok x = Ok y); [congruence|]. apply Hcells; lia.
Qed.

Lemma shape_normalised a n d : shape a n d → shape (normalised a) n d.
Proof.
  intros (Hn & Hd & Hrows). unfold normalised. split; [|split; [done|]].
  - by rewrite length_fmap.
  - rewrite Forall_fmap. eapply Forall_impl; [done|].
    intros row Hrow. simpl. by rewrite length_fmap.
Qed.

Lemma np_get_normalised a j t x :
  0 ≤ j → 0 ≤ t →
  np_get a j t = Ok x → np_get (normalised a) j t = Ok (fdiv x RF).
Proof.
  intros Hj Ht. rewrite !np_get_nonneg by done. unfold normalised.
  rewrite list_lookup_fmap.
  destruct (a !! Z.to_nat j) as [row|]; simpl; [|done].
  rewrite list_lookup_fmap. destruct (row !! Z.to_nat t); simpl; congruence.
Qed.

End Arrays.

(** ** The scan *)

Lemma find_first {A} (f : A → bool) l x :
  find f l = Some x →
  ∃ pre post, l = pre ++ x :: post ∧ f x = true ∧ Forall (λ y, f y = false) pre.
Proof.
  induction l as [|y l IH]; simpl; [done|].
  destruct (f y) eqn:Hy.
  - intros [= ->]. by exists [], l.
  - intros (pre & post & -> & Hx & Hpre)%IH.
    exists (y :: pre), post. auto.
Qed.

Lemma find_none_Forall {A} (f : A → bool) l :
  find f l = None → Forall (λ y, f y = false) l.
Proof.
  induction l as [|y l IH]; simpl; [constructor|].
  destruct (f y) eqn:Hy; [done|]. auto.
Qed.

Section Scan.

Context {F : Type} `{!PyFloat F}.
Implicit Types (a : list (list F)) (c : Z * Z) (s : scan_state F).

(** The loop body on a cell in range that nothing has divided yet. *)
Lemma scan_cell_run (x1 : F) a0 n d c s x :
  shape (polymerData s) n d → 0 ≤ c.1 < n → 0 ≤ c.2 < d →
  np_get (polymerData s) c.1 c.2 = Ok x →
  ∃ a', scan_cell x1 c.2 c.1 s
        = Ok (Scan (firstMonomerFound s || fge x x1)
                (if fge x x1 && negb (firstMonomerFound s)
                 then [c.1; c.2] else firstMonomerCoords s)
                a' (divided s ++ [c])) ∧
    shape a' n d ∧
    np_get a' c.1 c.2 = Ok (fdiv x RF) ∧
    ∀ j t, 0 ≤ j → 0 ≤ t → (j, t) ≠ c →
      np_get a' j t = np_get (polymerData s) j t.
Proof.
  intros Hs Hj Ht Hx.
  destruct (np_set_in_range (polymerData s) n d c.1 c.2 (fdiv x RF) Hs Hj Ht)
    as (a' & Hset & Hshape & Hget & Hframe).
  exists a'. split; [|split; [done|split; [done|]]].
  - unfold scan_cell. rewrite Hx. simpl. rewrite Hset. simpl.
    destruct c as [j t]. simpl.
    by destruct (fge x x1), (firstMonomerFound s).
  - intros j t ? ? Hne. apply Hframe; [done..|]. by destruct c.
Qed.

(** The loop over a list of distinct cells in range, none of them divided
    yet: what is found is the first cell of the list that crosses in the
    original array [a0]; the cells of the list are divided, the others
    are kept. *)
Lemma scan_cells_run (x1 : F) a0 n d cs : ∀ s,
  NoDup cs → (∀ c, c ∈ cs → 0 ≤ c.1 < n ∧ 0 ≤ c.2 < d) →
  shape (polymerData s) n d →
  (∀ c, c ∈ cs → ∃ x, np_get a0 c.1 c.2 = Ok x
                      ∧ np_get (polymerData s) c.1 c.2 = Ok x) →
  ∃ a', for_each (λ c, scan_cell x1 c.2 c.1) cs s
        = Ok (Scan
                (firstMonomerFound s
                 || match find (crosses x1 a0) cs with
                    | Some _ => true
                    | None => false
                    end)
                (if firstMonomerFound s then firstMonomerCoords s
                 else match find (crosses x1 a0) cs with
                      | Some c => [c.1; c.2]
                      | None => firstMonomerCoords s
                      end)
                a' (divided s ++ cs)) ∧
    shape a' n d ∧
    (∀ j t, 0 ≤ j → 0 ≤ t → (j, t) ∉ cs →
       np_get a' j t = np_get (polymerData s) j t) ∧
    (∀ c x, c ∈ cs → np_get a0 c.1 c.2 = Ok x →
       np_get a' c.1 c.2 = Ok (fdiv x RF)).
Proof.
  induction cs as [|c cs IH]; intros s Hnd Hin Hs Hraw.
  { exists (polymerData s). simpl. rewrite orb_false_r, app_nil_r.
    split; [by destruct s, firstMonomerFound0|].
    split; [done|]. split; [done|]. intros ?? []%elem_of_nil. }
  apply NoDup_cons in Hnd as [Hc Hnd].
  destruct (Hin c) as [Hj Ht]; [left|].
  destruct (Hraw c) as (x & Hx0 & Hx); [left|].
  destruct (scan_cell_run x1 a0 n d c s x Hs Hj Ht Hx)
    as (a1 & Hrun & Hs1 & Hget1 & Hframe1).
  set (s1 := Scan _ _ a1 _) in Hrun.
  destruct (IH s1) as (a' & Hrun' & Hs' & Hframe' & Hdiv'); [done|..].
  { intros; apply Hin; by right. }
  { done. }
  { intros c' Hc'. destruct (Hraw c') as (y & Hy0 & Hy); [by right|].
    exists y. split; [done|]. simpl.
    destruct (Hin c') as [? ?]; [by right|].
    destruct c' as [j' t']. simpl in *. rewrite Hframe1; [done|lia|lia|].
    intros <-. done. }
  exists a'. split; [|split; [done|split]].
  - cbn [for_each]. rewrite Hrun. simpl. rewrite Hrun'. simpl.
    assert (Hc0 : crosses x1 a0 c = fge x x1) by (unfold crosses; by rewrite Hx0).
    cbn [find]. rewrite Hc0, <- app_assoc. simpl.
    by destruct (firstMonomerFound s), (fge x x1).
  - intros j t ? ? Hnot. apply not_elem_of_cons in Hnot as [Hne Hnot].
    rewrite Hframe' by done. simpl. by apply Hframe1.
  - intros c' y [->|Hc']%elem_of_cons Hy.
    + destruct c as [j t]. simpl in *.
      rewrite Hframe' by (done || lia). simpl.
      rewrite Hy in Hx0. by injection Hx0 as ->.
    + by apply Hdiv'.
Qed.

(** The whole scan of an array of the shape its metadata announces. *)
Lemma scan_run (x1 : F) (m : meta) a :
  shape a (numAtoms m) (int_of_Q (numDumps m)) →
  let fc := first_crossing x1 a (numAtoms m) (int_of_Q (numDumps m)) in
  scan x1 m a
  = Ok (Scan (match fc with Some _ => true | None => false end)
          (match fc with Some c => [c.1; c.2] | None => [] end)
          (normalised a)
          (scan_order (numAtoms m) (int_of_Q (numDumps m)))).
Proof.
  intros Ha fc. unfold scan.
  rewrite (for_each_nested _ (λ t j, (j, t)) (λ c, scan_cell x1 c.2 c.1))
    by done.
  fold (scan_order (numAtoms m) (int_of_Q (numDumps m))).
  set (n := numAtoms m) in *. set (d := int_of_Q (numDumps m)) in *.
  destruct (scan_cells_run x1 a n d (scan_order n d) (Scan false [] a []))
    as (a' & -> & Ha' & _ & Hdiv).
  { apply NoDup_scan_order. }
  { intros c. by rewrite elem_of_scan_order. }
  { done. }
  { intros c [Hj Ht]%elem_of_scan_order.
    destruct (np_get_in_range a n d c.1 c.2) as [x Hx]; eauto. }
  simpl. fold fc. do 2 f_equal.
  apply (shape_ext _ _ n d); [done|by apply shape_normalised|].
  intros j t Hj Ht.
  destruct (np_get_in_range a n d j t) as [x Hx]; [done..|].
  rewrite (np_get_normalised a j t x) by (done || lia).
  apply (Hdiv (j, t)); [|done]. by apply elem_of_scan_order.
Qed.

End Scan.

(** ** Event detection *)

Section EventDetector.

Context {F : Type} `{!PyFloat F}.
Implicit Types (a : list (list F)) (c : Z * Z) (m : meta).

(** A crossing that has been recorded stays: the loop body leaves
    [firstMonomerCoords] alone once [firstMonomerFound] is set. *)
Lemma scan_cell_keeps_crossing (x1 : F) t j (s s' : scan_state F) :
  firstMonomerFound s = true → scan_cell x1 t j s = Ok s' →
  firstMonomerFound s' = true ∧ firstMonomerCoords s' = firstMonomerCoords s.
Proof.
  intros Hfound. unfold scan_cell.
  intros (x & _ & (y & _ & (a' & _ & [= <-])%bind_Ok)%bind_Ok)%bind_Ok.
  simpl. by rewrite Hfound, andb_false_r.
Qed.

(** C1.  On a matrix of the shape its metadata gives, one of whose cells is
    at least [x1], the scan returns the first such cell of the time-major
    order: no cell of an earlier timestep, and no lower atom index at the
    same timestep, reaches [x1] in the matrix as it was before the scan;
    and the loop body never replaces a recorded crossing. *)
Theorem scan_returns_first_crossing (x1 : F) m a :
  shape a (numAtoms m) (int_of_Q (numDumps m)) →
  (∃ c, 0 ≤ c.1 < numAtoms m ∧ 0 ≤ c.2 < int_of_Q (numDumps m)
        ∧ crosses x1 a c = true) →
  ∃ s c0,
    scan x1 m a = Ok s ∧
    firstMonomerFound s = true ∧ firstMonomerCoords s = [c0.1; c0.2] ∧
    (0 ≤ c0.1 < numAtoms m ∧ 0 ≤ c0.2 < int_of_Q (numDumps m)) ∧
    crosses x1 a c0 = true ∧
    (∀ c, 0 ≤ c.1 < numAtoms m → 0 ≤ c.2 < int_of_Q (numDumps m) →
          earlier c c0 → crosses x1 a c = false) ∧
    (∀ j, 0 ≤ j < numAtoms m → crosses x1 a (j, c0.2) = true → c0.1 ≤ j) ∧
    (∀ t j s1 s2, firstMonomerFound s1 = true → scan_cell x1 t j s1 = Ok s2 →
          firstMonomerCoords s2 = firstMonomerCoords s1).
Proof.
  intros Ha (c & Hj & Ht & Hc).
  set (n := numAtoms m) in *. set (d := int_of_Q (numDumps m)) in *.
  destruct (first_crossing x1 a n d) as [c0|] eqn:Hfc.
  2:{ apply find_none_Forall in Hfc. rewrite Forall_forall in Hfc.
      rewrite Hfc in Hc; [done|]. by apply elem_of_scan_order. }
  pose proof Hfc as (pre & post & Hsplit & Hc0 & Hpre)%find_first.
  assert (Hin0 : c0 ∈ scan_order n d).
  { rewrite Hsplit, elem_of_app, elem_of_cons. auto. }
  assert (Hfirst : ∀ c', 0 ≤ c'.1 < n → 0 ≤ c'.2 < d → earlier c' c0 →
                         crosses x1 a c' = false).
  { intros c' Hj' Ht' Hearlier. rewrite Forall_forall in Hpre. apply Hpre.
    eapply scan_order_split; [done| |done]. by apply elem_of_scan_order. }
  eexists _, c0. split; [by apply scan_run|]. fold n d. rewrite Hfc. simpl.
  split; [done|]. split; [done|]. split; [by apply elem_of_scan_order|].
  split; [done|]. split; [done|]. split.
  - intros j Hjn Hcj. destruct (decide (c0.1 ≤ j)) as [|Hlt]; [done|].
    apply elem_of_scan_order in Hin0 as [_ ?].
    rewrite (Hfirst (j, c0.2)) in Hcj; [done|done|done|].
    right. simpl. lia.
  - intros t j s1 s2 Hfound Hcell.
    by destruct (scan_cell_keeps_crossing x1 t j s1 s2).
Qed.

(** C2.  The scan compares the values the matrix held before the scan (what
    it records is [first_crossing] of the original matrix), and leaves
    every cell divided by [RF] exactly once: the result is [normalised],
    and the cells divided, in order, are the cells of the matrix, each
    listed once. *)
Theorem scan_normalises_every_cell_once (x1 : F) m a :
  shape a (numAtoms m) (int_of_Q (numDumps m)) →
  ∃ s,
    scan x1 m a = Ok s ∧
    firstMonomerCoords s
    = match first_crossing x1 a (numAtoms m) (int_of_Q (numDumps m)) with
      | Some c => [c.1; c.2]
      | None => []
      end ∧
    polymerData s = normalised a ∧
    (∀ j t x, 0 ≤ j < numAtoms m → 0 ≤ t < int_of_Q (numDumps m) →
       np_get a j t = Ok x → np_get (polymerData s) j t = Ok (fdiv x RF)) ∧
    NoDup (divided s) ∧
    (∀ c, c ∈ divided s
          ↔ 0 ≤ c.1 < numAtoms m ∧ 0 ≤ c.2 < int_of_Q (numDumps m)).
Proof.
  intros Ha. eexists. split; [by apply scan_run|]. simpl.
  split; [done|]. split; [done|]. split; [|split].
  - intros j t x Hj Ht Hx. apply np_get_normalised; (done || lia).
  - apply NoDup_scan_order.
  - apply elem_of_scan_order.
Qed.

End EventDetector.

(** ** The derived series *)

Section SeriesDeriver.

Context {F : Type} `{!PyFloat F}.
Variable uninit : nat → nat → F.
Implicit Types (a : list (list F)) (c : Z * Z) (m : meta).

Lemma np_empty1_run d :
  0 ≤ d →
  np_empty1 uninit d = Ok (uninit 0%nat <$> seq 0 (Z.to_nat d)).
Proof. intros. unfold np_empty1. by destruct (d <? 0) eqn:?; [lia|]. Qed.

Lemma shape_rows (rows : list (list F)) d :
  0 ≤ d → Forall (λ row : list F, Z.of_nat (length row) = d) rows →
  shape rows (Z.of_nat (length rows)) d.
Proof. by intros; split_and!. Qed.

Lemma convertible_spec m t0 :
  convertible m t0 = true
  ↔ ∀ t, 0 ≤ t < int_of_Q (numDumps m) → is_Some (time_of m t0 t).
Proof.
  unfold convertible. rewrite forallb_forall. split.
  - intros Hall t Ht.
    apply (bool_decide_eq_true_1 (is_Some (time_of m t0 t))), Hall.
    apply list_elem_of_In, elem_of_range. lia.
  - intros Hall t Ht%list_elem_of_In%elem_of_range.
    apply bool_decide_eq_true_2, Hall. lia.
Qed.

(** Where line 154 cannot convert, there is a first timestep at which it
    cannot. *)
Lemma not_convertible_first m t0 :
  convertible m t0 = false →
  ∃ pre t post, range 0 (int_of_Q (numDumps m)) = pre ++ t :: post ∧
    (∀ t', t' ∈ pre → is_Some (time_of m t0 t')) ∧ time_of m t0 t = None.
Proof.
  unfold convertible. generalize (range 0 (int_of_Q (numDumps m))).
  induction l as [|t l IH]; [done|]. simpl.
  destruct (time_of m t0 t) as [v|] eqn:Hv.
  - rewrite bool_decide_eq_true_2 by eauto. simpl.
    intros (pre & t' & post & -> & Hpre & Ht')%IH.
    exists (t :: pre), t', post. split; [done|]. split; [|done].
    intros t'' [->|?]%elem_of_cons; [by rewrite Hv|by apply Hpre].
  - intros _. exists [], t, l. split; [done|]. split; [|done].
    intros ? []%elem_of_nil.
Qed.

(** One timestep of the loop of lines 150-154: the three coordinates are
    copied, then the time is computed, if its integers can be converted. *)
Lemma series_step_run m a fmi fmt i j0 t0 t (st : list (list F) * list (list F)) d :
  shape a (numAtoms m) d → shape st.1 3 d → shape st.2 1 d →
  getitem fmi i = Ok j0 → getitem fmt i = Ok t0 →
  0 ≤ j0 < numAtoms m → 0 ≤ t < d →
  match time_of m t0 t with
  | None => series_step m a fmi fmt i t st = Raise OverflowError
  | Some v =>
      ∃ st', series_step m a fmi fmt i t st = Ok st' ∧
        shape st'.1 3 d ∧ shape st'.2 1 d ∧
        np_get st'.1 0 t = np_get a 0 t ∧
        np_get st'.1 1 t = np_get a (numAtoms m - 1) t ∧
        np_get st'.1 2 t = np_get a j0 t ∧
        np_get st'.2 0 t = Ok v ∧
        ∀ r t', 0 ≤ r → 0 ≤ t' → t' ≠ t →
          np_get st'.1 r t' = np_get st.1 r t' ∧
          np_get st'.2 r t' = np_get st.2 r t'
  end.
Proof.
  intros Ha HD HT Hfmi Hfmt Hj0 Ht. destruct st as [D T]. simpl in *.
  destruct (np_get_in_range a (numAtoms m) d 0 t) as [v0 Hv0]; [done|lia|done|].
  destruct (np_get_in_range a (numAtoms m) d (numAtoms m - 1) t) as [v1 Hv1];
    [done|lia|done|].
  destruct (np_get_in_range a (numAtoms m) d j0 t) as [v2 Hv2]; [done..|].
  destruct (np_set_in_range D 3 d 0 t v0) as (D1 & HD1 & HsD1 & Hg1 & Hf1);
    [done|lia|done|].
  destruct (np_set_in_range D1 3 d 1 t v1) as (D2 & HD2 & HsD2 & Hg2 & Hf2);
    [done|lia|done|].
  destruct (np_set_in_range D2 3 d 2 t v2) as (D3 & HD3 & HsD3 & Hg3 & Hf3);
    [done|lia|done|].
  assert (Hstep : series_step m a fmi fmt i t (D, T)
            = (v ← or_raise OverflowError (time_of m t0 t);
               timeArray ← np_set T 0 t v; mret (D3, timeArray))).
  { unfold series_step, time_of, int_to_float. simpl. rewrite Hv0. simpl.
    rewrite HD1. simpl. rewrite Hv1. simpl. rewrite HD2. simpl.
    rewrite Hfmi. simpl. rewrite Hv2. simpl. rewrite HD3. simpl.
    rewrite Hfmt. simpl.
    destruct (float_of_int (t - t0)) as [offset|]; simpl; [|done].
    by destruct (float_of_int (dumpStep m)) as [step|]. }
  rewrite Hstep. destruct (time_of m t0 t) as [v|]; simpl; [|done].
  destruct (np_set_in_range T 1 d 0 t v)
    as (T1 & HT1 & HsT1 & Hg4 & Hf4); [done|lia|done|].
  exists (D3, T1). simpl. split; [by rewrite HT1|].
  split; [done|]. split; [done|].
  rewrite Hv0, Hv1, Hv2. split_and!; [| |done|done|].
  - rewrite Hf3, Hf2 by (lia || congruence). done.
  - rewrite Hf3 by (lia || congruence). done.
  - intros r t' Hr Ht' Hne.
    rewrite Hf3, Hf2, Hf1, Hf4 by (lia || congruence). done.
Qed.

(** The loop of lines 150-154 over distinct timesteps in range whose times
    can be computed. *)
Lemma series_run m a fmi fmt i j0 t0 d ts :
  ∀ st : list (list F) * list (list F),
  shape a (numAtoms m) d → shape st.1 3 d → shape st.2 1 d →
  getitem fmi i = Ok j0 → getitem fmt i = Ok t0 →
  0 ≤ j0 < numAtoms m → NoDup ts → (∀ t, t ∈ ts → 0 ≤ t < d) →
  (∀ t, t ∈ ts → is_Some (time_of m t0 t)) →
  ∃ st', for_each (series_step m a fmi fmt i) ts st = Ok st' ∧
    shape st'.1 3 d ∧ shape st'.2 1 d ∧
    (∀ t, t ∈ ts →
       np_get st'.1 0 t = np_get a 0 t ∧
       np_get st'.1 1 t = np_get a (numAtoms m - 1) t ∧
       np_get st'.1 2 t = np_get a j0 t ∧
       ∃ v, time_of m t0 t = Some v ∧ np_get st'.2 0 t = Ok v) ∧
    ∀ r t', 0 ≤ r → 0 ≤ t' → t' ∉ ts →
      np_get st'.1 r t' = np_get st.1 r t' ∧ np_get st'.2 r t' = np_get st.2 r t'.
Proof.
  induction ts as [|t ts IH]; intros st Ha HD HT Hfmi Hfmt Hj0 Hnd Hin Hconv.
  { exists st. simpl. split_and!; try done. intros ? []%elem_of_nil. }
  apply NoDup_cons in Hnd as [Ht Hnd].
  pose proof (series_step_run m a fmi fmt i j0 t0 t st d Ha HD HT Hfmi Hfmt Hj0)
    as Hstep.
  destruct (Hconv t) as [v Hv]; [by left|]. rewrite Hv in Hstep.
  destruct Hstep as (st1 & Hstep & HD1 & HT1 & H0 & H1 & H2 & H3 & Hframe1);
    [apply Hin; by left|].
  destruct (IH st1) as (st' & Hrun & HD' & HT' & Hvals & Hframe');
    [done..|intros; apply Hin; by right|intros; apply Hconv; by right|].
  exists st'. split; [cbn [for_each]; rewrite Hstep; done|].
  split; [done|]. split; [done|]. split.
  - intros t' [->|Ht']%elem_of_cons; [|by apply Hvals].
    destruct (Hin t) as [? ?]; [by left|].
    destruct (Hframe' 0 t) as [-> ->]; [lia..|done|].
    destruct (Hframe' 1 t) as [-> _]; [lia..|done|].
    destruct (Hframe' 2 t) as [-> _]; [lia..|done|].
    split_and!; [done..|]. by exists v.
  - intros r t' Hr Ht' [Hne Hnot]%not_elem_of_cons.
    destruct (Hframe' r t') as [-> ->]; [done..|]. by apply Hframe1.
Qed.

(** The loop stops with [OverflowError] at the first timestep whose time
    cannot be computed. *)
Lemma series_overflow m a fmi fmt i j0 t0 d pre t post :
  ∀ st : list (list F) * list (list F),
  shape a (numAtoms m) d → shape st.1 3 d → shape st.2 1 d →
  getitem fmi i = Ok j0 → getitem fmt i = Ok t0 →
  0 ≤ j0 < numAtoms m → NoDup (pre ++ t :: post) →
  (∀ t', t' ∈ pre ++ t :: post → 0 ≤ t' < d) →
  (∀ t', t' ∈ pre → is_Some (time_of m t0 t')) → time_of m t0 t = None →
  for_each (series_step m a fmi fmt i) (pre ++ t :: post) st
  = Raise OverflowError.
Proof.
  intros st Ha HD HT Hfmi Hfmt Hj0 Hnd Hin Hpre Ht.
  apply NoDup_app in Hnd as (Hndpre & _ & _).
  destruct (series_run m a fmi fmt i j0 t0 d pre st)
    as (st1 & Hrun & HD1 & HT1 & _); [done..| |done|].
  { intros t' Ht'. apply Hin, elem_of_app. by left. }
  rewrite for_each_app, Hrun. simpl.
  pose proof (series_step_run m a fmi fmt i j0 t0 t st1 d Ha HD1 HT1 Hfmi Hfmt Hj0)
    as Hstep.
  rewrite Ht in Hstep. rewrite Hstep; [done|].
  apply Hin, elem_of_app. right. by left.
Qed.

Lemma getitem_snoc {A} (l : list A) (i : Z) (x : A) :
  0 ≤ i → length l = Z.to_nat i → getitem (l ++ [x]) i = Ok x.
Proof.
  intros Hi Hlen. apply getitem_lookup; [done|].
  rewrite <- Hlen. apply list_lookup_middle. done.
Qed.

(** One iteration of the loop of line 124, up to the series: the scan runs,
    and the use of [firstMonomerCoords] fails when nothing was found. *)
Lemma derive_run (x1 : F) polymerMeta i w a m :
  0 ≤ i →
  polymers w !! Z.to_nat i = Some a → polymerMeta !! Z.to_nat i = Some m →
  length (firstMonomerIndex w) = Z.to_nat i →
  length (firstMonomerTime w) = Z.to_nat i →
  shape a (numAtoms m) (int_of_Q (numDumps m)) →
  derive uninit x1 polymerMeta i w
  = match first_crossing x1 a (numAtoms m) (int_of_Q (numDumps m)) with
    | None => Raise IndexError
    | Some c0 =>
        let e := uninit 0%nat <$> seq 0 (Z.to_nat (int_of_Q (numDumps m))) in
        r ← for_each
              (series_step m (normalised a) (firstMonomerIndex w ++ [c0.1])
                 (firstMonomerTime w ++ [c0.2]) i)
              (range 0 (int_of_Q (numDumps m))) ([e; e; e], [e]);
        mret (Analysis (<[Z.to_nat i := normalised a]> (polymers w))
                (firstMonomerIndex w ++ [c0.1]) (firstMonomerTime w ++ [c0.2])
                (distAxis w ++ [r.1]) (timeAxis w ++ [r.2]))
    end.
Proof.
  intros Hi Ha Hm Hfmi Hfmt Hshape. unfold derive.
  rewrite (getitem_lookup _ _ a), (getitem_lookup _ _ m) by done. simpl.
  rewrite np_empty1_run by apply Hshape. simpl.
  rewrite scan_run by done. simpl.
  rewrite setitem_in_range by (apply lookup_lt_Some in Ha; lia). simpl.
  destruct (first_crossing _ _ _ _) as [c0|]; [|done].
  change (getitem [c0.1; c0.2] 0) with (Ok c0.1).
  change (getitem [c0.1; c0.2] 1) with (Ok c0.2). simpl.
  by rewrite !getitem_snoc.
Qed.

(** One iteration on a matrix with a crossing whose times line 154 cannot
    all compute. *)
Lemma derive_overflow (x1 : F) polymerMeta i w a m c0 :
  0 ≤ i →
  polymers w !! Z.to_nat i = Some a → polymerMeta !! Z.to_nat i = Some m →
  length (firstMonomerIndex w) = Z.to_nat i →
  length (firstMonomerTime w) = Z.to_nat i →
  shape a (numAtoms m) (int_of_Q (numDumps m)) →
  first_crossing x1 a (numAtoms m) (int_of_Q (numDumps m)) = Some c0 →
  convertible m c0.2 = false →
  derive uninit x1 polymerMeta i w = Raise OverflowError.
Proof.
  intros Hi Ha Hm Hfmi Hfmt Hshape Hfc Hconv.
  rewrite (derive_run x1 polymerMeta i w a m) by done. rewrite Hfc.
  set (d := int_of_Q (numDumps m)) in *.
  assert (Hd : 0 ≤ d) by apply Hshape.
  assert (Hc0 : 0 ≤ c0.1 < numAtoms m ∧ 0 ≤ c0.2 < d).
  { apply elem_of_scan_order. apply find_first in Hfc as (? & ? & Heq & _).
    unfold first_crossing in *. rewrite Heq, elem_of_app, elem_of_cons. auto. }
  set (e := uninit 0%nat <$> seq 0 (Z.to_nat d)).
  assert (He : Z.of_nat (length e) = d).
  { unfold e. rewrite length_fmap, length_seq. lia. }
  apply not_convertible_first in Hconv as (pre & t & post & Hsplit & Hpre & Ht).
  fold d in Hsplit. cbv zeta. fold e. rewrite Hsplit.
  rewrite (series_overflow m (normalised a) (firstMonomerIndex w ++ [c0.1])
             (firstMonomerTime w ++ [c0.2]) i c0.1 c0.2 d pre t post); [done|..].
  { by apply shape_normalised. }
  { apply (shape_rows [e; e; e]); [done|]. by repeat constructor. }
  { apply (shape_rows [e]); [done|]. by repeat constructor. }
  { by apply getitem_snoc. }
  { by apply getitem_snoc. }
  { apply Hc0. }
  { rewrite <- Hsplit. apply NoDup_range. }
  { intros t'. rewrite <- Hsplit. intros Ht'%elem_of_range. lia. }
  { done. }
  { done. }
Qed.

(** C5, as amended.  For a file whose matrix has a crossing at [c0] and
    whose [dumpStep] and offsets [t - c0.2] are not too large for a
    [float], the iteration appends to [distAxis] the three series head,
    tail and front and to [timeAxis] the time series, all of length
    [int(numDumps)]: at every timestep [t] they hold the normalised
    coordinate of atom [0], of atom [numAtoms - 1] and of the crossing
    atom, and [(t - c0.2) * TIMESTEP * dumpStep]. *)
Theorem derive_series (x1 : F) polymerMeta i w a m c0 :
  0 ≤ i →
  polymers w !! Z.to_nat i = Some a → polymerMeta !! Z.to_nat i = Some m →
  length (firstMonomerIndex w) = Z.to_nat i →
  length (firstMonomerTime w) = Z.to_nat i →
  shape a (numAtoms m) (int_of_Q (numDumps m)) →
  first_crossing x1 a (numAtoms m) (int_of_Q (numDumps m)) = Some c0 →
  convertible m c0.2 = true →
  ∃ w' headSeries tailSeries frontSeries timeSeries,
    derive uninit x1 polymerMeta i w = Ok w' ∧
    distAxis w' = distAxis w ++ [[headSeries; tailSeries; frontSeries]] ∧
    timeAxis w' = timeAxis w ++ [[timeSeries]] ∧
    firstMonomerIndex w' = firstMonomerIndex w ++ [c0.1] ∧
    firstMonomerTime w' = firstMonomerTime w ++ [c0.2] ∧
    Forall (λ series : list F,
              Z.of_nat (length series) = int_of_Q (numDumps m))
      [headSeries; tailSeries; frontSeries; timeSeries] ∧
    ∀ t, 0 ≤ t < int_of_Q (numDumps m) →
      getitem headSeries t = np_get (normalised a) 0 t ∧
      getitem tailSeries t = np_get (normalised a) (numAtoms m - 1) t ∧
      getitem frontSeries t = np_get (normalised a) c0.1 t ∧
      ∃ offset step,
        float_of_int (t - c0.2) = Some offset ∧
        float_of_int (dumpStep m) = Some step ∧
        getitem timeSeries t = Ok (fmul (fmul offset TIMESTEP) step).
Proof.
  intros Hi Ha Hm Hfmi Hfmt Hshape Hfc Hconv.
  rewrite (derive_run x1 polymerMeta i w a m) by done. rewrite Hfc.
  set (d := int_of_Q (numDumps m)) in *.
  assert (Hd : 0 ≤ d) by apply Hshape.
  assert (Hc0 : 0 ≤ c0.1 < numAtoms m ∧ 0 ≤ c0.2 < d).
  { apply elem_of_scan_order. apply find_first in Hfc as (? & ? & Heq & _).
    unfold first_crossing in *. rewrite Heq, elem_of_app, elem_of_cons. auto. }
  set (e := uninit 0%nat <$> seq 0 (Z.to_nat d)).
  assert (He : Z.of_nat (length e) = d).
  { unfold e. rewrite length_fmap, length_seq. lia. }
  destruct (series_run m (normalised a) (firstMonomerIndex w ++ [c0.1])
              (firstMonomerTime w ++ [c0.2]) i c0.1 c0.2 d (range 0 d)
              ([e; e; e], [e]))
    as ([D T] & Hrun & HD & HT & Hvals & _).
  { by apply shape_normalised. }
  { apply (shape_rows [e; e; e]); [done|]. by repeat constructor. }
  { apply (shape_rows [e]); [done|]. by repeat constructor. }
  { by apply getitem_snoc. }
  { by apply getitem_snoc. }
  { apply Hc0. }
  { apply NoDup_range. }
  { intros t Ht%elem_of_range. lia. }
  { intros t Ht%elem_of_range. apply convertible_spec; [done|]. fold d. lia. }
  cbv zeta. fold e. rewrite Hrun. simpl in *.
  destruct HD as (HlenD & _ & HrowsD), HT as (HlenT & _ & HrowsT).
  destruct D as [|h [|tl [|fr [|]]]]; try (simpl in HlenD; lia).
  destruct T as [|tm [|]]; try (simpl in HlenT; lia).
  eexists _, h, tl, fr, tm. split; [done|]. simpl.
  split; [done|]. split; [done|]. split; [done|]. split; [done|]. split.
  - by apply (Forall_app _ [h; tl; fr] [tm]).
  - intros t Ht. destruct (Hvals t) as (H0 & H1 & H2 & v & Hv & H3).
    { apply elem_of_range. lia. }
    rewrite <- H0, <- H1, <- H2. split_and!; [done..|].
    unfold time_of in Hv.
    destruct (float_of_int (t - c0.2)) as [offset|]; simpl in Hv; [|done].
    destruct (float_of_int (dumpStep m)) as [step|]; simpl in Hv; [|done].
    injection Hv as <-. by exists offset, step.
Qed.

(** C7, as amended.  When no cell of the matrix reaches [x1] the scan ends
    with nothing found and an empty [firstMonomerCoords] (no index stands in
    for the missing crossing), and the iteration stops with [IndexError] at
    the first use of the coordinates, line 145: no series is produced for
    that file, and no value stands for the absence either, since nothing
    catches the exception: the loop of line 124 ends there, whatever files
    remain. *)
Theorem no_crossing_is_absent (x1 : F) polymerMeta i w a m :
  0 ≤ i →
  polymers w !! Z.to_nat i = Some a → polymerMeta !! Z.to_nat i = Some m →
  length (firstMonomerIndex w) = Z.to_nat i →
  length (firstMonomerTime w) = Z.to_nat i →
  shape a (numAtoms m) (int_of_Q (numDumps m)) →
  (∀ c, 0 ≤ c.1 < numAtoms m → 0 ≤ c.2 < int_of_Q (numDumps m) →
        crosses x1 a c = false) →
  (∃ s, scan x1 m a = Ok s ∧
        firstMonomerFound s = false ∧ firstMonomerCoords s = []) ∧
  first_crossing x1 a (numAtoms m) (int_of_Q (numDumps m)) = None ∧
  derive uninit x1 polymerMeta i w = Raise IndexError ∧
  ∀ rest, for_each (derive uninit x1 polymerMeta) (i :: rest) w
          = Raise IndexError.
Proof.
  intros Hi Ha Hm Hfmi Hfmt Hshape Hnone.
  assert (Hfc : first_crossing x1 a (numAtoms m) (int_of_Q (numDumps m)) = None).
  { destruct (first_crossing _ _ _ _) as [c0|] eqn:Hfc; [|done].
    apply find_first in Hfc as (pre & post & Heq & Hc0 & _).
    rewrite Hnone in Hc0; [done|..];
      apply (elem_of_scan_order (numAtoms m) (int_of_Q (numDumps m)));
      rewrite Heq, elem_of_app, elem_of_cons; auto. }
  assert (Hraise : derive uninit x1 polymerMeta i w = Raise IndexError).
  { rewrite (derive_run x1 polymerMeta i w a m) by done. by rewrite Hfc. }
  split; [|split; [done|split; [done|]]].
  - eexists. split; [by apply scan_run|]. simpl. by rewrite Hfc.
  - intros rest. cbn [for_each]. by rewrite Hraise.
Qed.

End SeriesDeriver.

(** ** The identifier-to-index mapping *)

Lemma sorted_lookup_le (l : list Z) (i j : nat) x y :
  StronglySorted Z.le l → l !! i = Some x → l !! j = Some y → (i < j)%nat →
  x ≤ y.
Proof.
  intros Hsorted Hx Hy Hij.
  rewrite <- (take_drop j l) in Hsorted.
  eapply StronglySorted_app_1_elem_of; [done| |].
  - apply list_elem_of_lookup. exists i. by rewrite lookup_take_lt.
  - apply list_elem_of_lookup. exists 0%nat.
    by rewrite lookup_drop, Nat.add_0_r.
Qed.

Lemma NoDup_lookup_lt (l : list Z) (i j : nat) x y :
  StronglySorted Z.le l → NoDup l →
  l !! i = Some x → l !! j = Some y → (i < j)%nat ↔ x < y.
Proof.
  intros Hsorted Hnd Hx Hy. split.
  - intros Hij. pose proof (sorted_lookup_le l i j x y Hsorted Hx Hy Hij).
    destruct (decide (x = y)) as [->|]; [|lia].
    pose proof (NoDup_lookup l i j y Hnd Hx Hy). lia.
  - intros Hxy. destruct (decide (i < j)%nat) as [|Hge]; [done|].
    destruct (decide (i = j)) as [->|]; [assert (x = y) by congruence; lia|].
    assert (y ≤ x); [|lia].
    apply (sorted_lookup_le l j i y x Hsorted Hy Hx). lia.
Qed.

(** Lines 89-94 collect the identifiers of the first chunk in text order. *)
Lemma collect_ids_run (ls : list string) : ∀ (ids acc : list Z),
  Forall2 (λ line id, parse_id line = Ok id) ls ids →
  for_each
    (λ line (atomList : list Z),
       e0 ← getitem (split line) 0;
       atomId ← to_int e0;
       mret (atomList ++ [atomId])) ls acc
  = Ok (acc ++ ids).
Proof.
  induction ls as [|line ls IH]; intros ids acc Hids.
  { apply Forall2_nil_inv_l in Hids as ->. by rewrite app_nil_r. }
  apply Forall2_cons_inv_l in Hids as (id & ids' & Hid & Hids & ->).
  cbn [for_each]. unfold parse_id in Hid.
  destruct (getitem (split line) 0) as [e0|]; simpl in *; [|done].
  rewrite Hid. simpl. rewrite (IH ids') by done. by rewrite <- app_assoc.
Qed.

Lemma chunk_lines_exist lines dumpLength numAtoms i (ids : list Z) :
  chunk_ids lines dumpLength numAtoms i ids → 0 < numAtoms →
  Z.of_nat (Z.to_nat (i * dumpLength + 9)) + numAtoms ≤ Z.of_nat (length lines).
Proof.
  intros [Hlen Hids] Hn. apply Forall2_length in Hids.
  unfold atom_lines in Hids. rewrite length_take, length_drop in Hids. lia.
Qed.

Lemma first_chunk_ids_run lines dumpLength numAtoms ids :
  chunk_ids lines dumpLength numAtoms 0 ids →
  for_each (collect_id lines) (range 0 numAtoms) [] = Ok ids.
Proof.
  intros Hchunk. destruct (decide (0 < numAtoms)) as [Hn|Hn].
  2:{ destruct Hchunk as [Hlen _]. rewrite range_nil by lia.
      destruct ids; [done|simpl in Hlen; lia]. }
  pose proof (chunk_lines_exist _ _ _ _ _ Hchunk Hn) as Hlines.
  destruct Hchunk as [Hlen Hids]. unfold atom_lines in Hids.
  rewrite Z.mul_0_l in Hids, Hlines. simpl in Hids, Hlines.
  replace numAtoms with (0 + Z.of_nat (Z.to_nat numAtoms)) at 1 by lia.
  erewrite (for_each_getitem lines _ (collect_id lines) 9 0); [|done|lia..].
  by apply (collect_ids_run _ ids []).
Qed.

(** Lines 96-98 after [k] iterations: every identifier met is a key, and a
    key is mapped to a position at which it stands in [atomList]. *)
Lemma index_loop_run (atomList : list Z) (k : nat) :
  (k ≤ length atomList)%nat →
  ∃ idToIndex : gmap Z Z,
    for_each (index_id atomList) (range 0 (Z.of_nat k)) ∅ = Ok idToIndex ∧
    (∀ id (i : nat), (i < k)%nat → atomList !! i = Some id →
       is_Some (idToIndex !! id)) ∧
    (∀ id i, idToIndex !! id = Some i →
       0 ≤ i < Z.of_nat k ∧ atomList !! Z.to_nat i = Some id).
Proof.
  induction k as [|k IH]; intros Hk.
  { exists ∅. split; [done|]. split; [lia|]. intros ??. by rewrite lookup_empty. }
  destruct IH as (M & Hrun & Hdom & Hval); [lia|].
  destruct (lookup_lt_is_Some_2 atomList k) as [a Ha]; [lia|].
  exists (<[a := Z.of_nat k]> M). unfold range in *. split; [|split].
  - rewrite Z.sub_0_r in *. rewrite seqZ_S, for_each_app, Hrun. simpl.
    unfold index_id. rewrite (getitem_lookup _ _ a); [done|lia|].
    by rewrite Z.add_0_l, Nat2Z.id.
  - intros id i Hi Hid. destruct (decide (a = id)) as [->|Hne].
    + rewrite lookup_insert_eq. eauto.
    + rewrite lookup_insert_ne by done. apply (Hdom id i); [|done].
      destruct (decide (i = k)) as [->|]; [congruence|lia].
  - intros id i. destruct (decide (a = id)) as [->|Hne].
    + rewrite lookup_insert_eq. intros [= <-]. rewrite Nat2Z.id. split; [lia|done].
    + rewrite lookup_insert_ne by done. intros Hi%Hval. split; [lia|]. apply Hi.
Qed.

(** The mapping of lines 88-98 for any identifiers, distinct or not. *)
Lemma build_idToIndex_run lines dumpLength numAtoms ids :
  chunk_ids lines dumpLength numAtoms 0 ids →
  ∃ idToIndex : gmap Z Z,
    build_idToIndex lines numAtoms = Ok idToIndex ∧
    (∀ id, id ∈ ids → is_Some (idToIndex !! id)) ∧
    (∀ id i, idToIndex !! id = Some i →
       0 ≤ i < numAtoms ∧ sorted ids !! Z.to_nat i = Some id).
Proof.
  intros Hchunk. unfold build_idToIndex.
  rewrite (first_chunk_ids_run _ dumpLength _ ids) by done. simpl.
  destruct Hchunk as [Hlen _].
  assert (Hperm : sorted ids ≡ₚ ids) by apply merge_sort_Permutation.
  destruct (index_loop_run (sorted ids) (Z.to_nat numAtoms))
    as (M & Hrun & Hdom & Hval).
  { by rewrite Hperm, Hlen. }
  exists M. split; [|split].
  - destruct (decide (0 ≤ numAtoms)).
    + by rewrite Z2Nat.id in Hrun.
    + rewrite range_nil in * by lia. done.
  - intros id Hid. rewrite <- Hperm in Hid.
    apply list_elem_of_lookup in Hid as [i Hi].
    apply (Hdom id i); [|done]. apply lookup_lt_Some in Hi.
    by rewrite Hperm, Hlen in Hi.
  - intros id i Hi. destruct (Hval id i Hi) as [? ?]. split; [lia|done].
Qed.

(** C3.  When the identifiers of the first chunk are distinct, the mapping
    sends them one-to-one onto [0 .. numAtoms - 1], and a smaller identifier
    to a smaller index: the smallest to [0], the largest to
    [numAtoms - 1]. *)
Theorem idToIndex_bijection lines dumpLength numAtoms ids :
  chunk_ids lines dumpLength numAtoms 0 ids → NoDup ids →
  ∃ idToIndex : gmap Z Z,
    build_idToIndex lines numAtoms = Ok idToIndex ∧
    (∀ id, id ∈ ids ↔ is_Some (idToIndex !! id)) ∧
    (∀ id i, idToIndex !! id = Some i → 0 ≤ i < numAtoms) ∧
    (∀ id id' i, idToIndex !! id = Some i → idToIndex !! id' = Some i →
       id = id') ∧
    (∀ i, 0 ≤ i < numAtoms → ∃ id, id ∈ ids ∧ idToIndex !! id = Some i) ∧
    (∀ id id' i i', idToIndex !! id = Some i → idToIndex !! id' = Some i' →
       id < id' ↔ i < i') ∧
    (∀ id id', idToIndex !! id = Some 0 → id' ∈ ids → id ≤ id') ∧
    (∀ id id', idToIndex !! id = Some (numAtoms - 1) → id' ∈ ids → id' ≤ id).
Proof.
  intros Hchunk Hnd.
  destruct (build_idToIndex_run _ _ _ _ Hchunk) as (M & Hrun & Hdom & Hval).
  destruct Hchunk as [Hlen _].
  assert (Hperm : sorted ids ≡ₚ ids) by apply merge_sort_Permutation.
  assert (Hsorted : StronglySorted Z.le (sorted ids)).
  { apply StronglySorted_merge_sort; apply _. }
  assert (Hnd' : NoDup (sorted ids)) by (by rewrite Hperm).
  assert (Hlookup : ∀ id (i : nat), sorted ids !! i = Some id →
                      M !! id = Some (Z.of_nat i)).
  { intros id i Hi. destruct (Hdom id) as [i' Hi'].
    { rewrite <- Hperm. by eapply list_elem_of_lookup_2. }
    destruct (Hval id i' Hi') as [? Hi''].
    rewrite (NoDup_lookup _ _ _ _ Hnd' Hi Hi''), Hi'. f_equal. lia. }
  assert (Hmono : ∀ id id' i i', M !! id = Some i → M !! id' = Some i' →
                    id < id' ↔ i < i').
  { intros id id' i i' Hi Hi'.
    destruct (Hval _ _ Hi) as [? Hs], (Hval _ _ Hi') as [? Hs'].
    rewrite <- (NoDup_lookup_lt _ _ _ _ _ Hsorted Hnd' Hs Hs'). lia. }
  assert (Hin : ∀ id i, M !! id = Some i → id ∈ ids).
  { intros id i Hi. destruct (Hval _ _ Hi) as [_ Hs].
    rewrite <- Hperm. by eapply list_elem_of_lookup_2. }
  exists M. split; [done|]. split_and!.
  - intros id. split; [apply Hdom|]. intros [i Hi]. eauto.
  - intros id i Hi. by destruct (Hval id i Hi).
  - intros id id' i Hi Hi'.
    destruct (Hval _ _ Hi) as [_ Hs], (Hval _ _ Hi') as [_ Hs']. congruence.
  - intros i Hi.
    destruct (lookup_lt_is_Some_2 (sorted ids) (Z.to_nat i)) as [id Hid].
    { rewrite Hperm, Hlen. lia. }
    exists id. split.
    + rewrite <- Hperm. by eapply list_elem_of_lookup_2.
    + rewrite (Hlookup _ _ Hid). f_equal. lia.
  - done.
  - intros id id' H0 [i' Hi']%Hdom.
    destruct (decide (id ≤ id')) as [|Hgt]; [done|].
    assert (id' < id) as Hlt%(Hmono _ _ _ _ Hi' H0) by lia.
    destruct (Hval _ _ Hi'). lia.
  - intros id id' Hlast [i' Hi']%Hdom.
    destruct (decide (id' ≤ id)) as [|Hgt]; [done|].
    assert (id < id') as Hlt%(Hmono _ _ _ _ Hlast Hi') by lia.
    destruct (Hval _ _ Hi'). lia.
Qed.

(** ** The header of a dump file *)

Lemma int_of_Q_truediv (a b : Z) (q : Q) :
  0 < b → truediv a b = Ok q → int_of_Q q = a ÷ b.
Proof.
  intros Hb. unfold truediv. destruct (b =? 0) eqn:?; [lia|].
  intros [= <-]. unfold int_of_Q. simpl.
  rewrite Z.sgn_pos, Z.mul_1_r, Z.abs_eq, Z2Pos.id by lia. done.
Qed.

Lemma truediv_pos (a b : Z) :
  0 < b → truediv a b = Ok (Qmake a (Z.to_pos b)).
Proof.
  intros Hb. unfold truediv. destruct (b =? 0) eqn:?; [lia|].
  by rewrite Z.sgn_pos, Z.mul_1_r, Z.abs_eq by lia.
Qed.

Section Header.

Context {F : Type} `{!PyFloat F}.
Variable uninit : nat → nat → F.
Implicit Types (lines : list string) (numAtoms : Z).

(** Line 77: a file of fewer than four lines is skipped. *)
Lemma decode_too_short lines :
  (length lines < 4)%nat → decode uninit lines = Ok None.
Proof.
  intros Hlen. unfold decode.
  by destruct (length lines <? 4)%nat eqn:Hlt; [|apply Nat.ltb_ge in Hlt; lia].
Qed.

(** Lines 79-82: a file that ends before the second line of its second
    chunk is skipped. *)
Lemma decode_single_chunk lines l3 numAtoms :
  (4 ≤ length lines)%nat → lines !! 3%nat = Some l3 →
  int_of_str (drop_last l3) = Some numAtoms →
  Z.of_nat (length lines) < numAtoms + 9 + 2 →
  decode uninit lines = Ok None.
Proof.
  intros Hlen Hl3 Hn Hshort. unfold decode.
  destruct (length lines <? 4)%nat eqn:Hlt; [apply Nat.ltb_lt in Hlt; lia|].
  rewrite (getitem_lookup _ _ l3) by done. simpl.
  unfold to_int. rewrite Hn. simpl.
  rewrite truediv_pos by lia. simpl.
  by destruct (Z.of_nat (length lines) <? numAtoms + 9 + 2) eqn:?; [|lia].
Qed.

(** Lines 79-85 on a file with a readable header: what remains is to build
    the mapping and to record the chunks. *)
Lemma decode_header lines l3 numAtoms ld dumpStep :
  lines !! 3%nat = Some l3 →
  int_of_str (drop_last l3) = Some numAtoms → 0 ≤ numAtoms →
  lines !! Z.to_nat (numAtoms + 9 + 1) = Some ld →
  int_of_str (drop_last ld) = Some dumpStep →
  let dumpLength := numAtoms + 9 in
  let nd := Z.of_nat (length lines) ÷ dumpLength in
  decode uninit lines
  = (idToIndex ← build_idToIndex lines numAtoms;
     r ← assemble lines idToIndex numAtoms dumpLength nd
           ((λ r, uninit r <$> seq 0 (Z.to_nat nd)) <$> seq 0 (Z.to_nat numAtoms));
     mret (Some (r.1,
                 Meta numAtoms
                   (Qmake (Z.of_nat (length lines)) (Z.to_pos dumpLength))
                   dumpStep,
                 r.2))).
Proof.
  intros Hl3 Hn Hn0 Hld Hstep dumpLength nd. unfold decode.
  pose proof (lookup_lt_Some _ _ _ Hl3) as Hlen3.
  pose proof (lookup_lt_Some _ _ _ Hld) as Hlend.
  destruct (length lines <? 4)%nat eqn:Hlt; [apply Nat.ltb_lt in Hlt; lia|].
  rewrite (getitem_lookup _ _ l3) by done. simpl.
  unfold to_int. rewrite Hn. simpl.
  rewrite truediv_pos by lia. simpl.
  destruct (Z.of_nat (length lines) <? numAtoms + 9 + 2) eqn:?; [lia|].
  rewrite (getitem_lookup _ _ ld) by (done || lia). simpl.
  rewrite Hstep. simpl.
  assert (Hnd : int_of_Q (Qmake (Z.of_nat (length lines))
                            (Z.to_pos (numAtoms + 9))) = nd).
  { apply (int_of_Q_truediv _ (numAtoms + 9)); [lia|]. apply truediv_pos. lia. }
  rewrite Hnd. unfold np_empty.
  assert (0 ≤ nd) by (apply Z.quot_pos; lia).
  destruct (numAtoms <? 0) eqn:?; [lia|].
  destruct (nd <? 0) eqn:?; [lia|]. done.
Qed.

End Header.

(** ** Assembly *)

Section Assembler.

Context {F : Type} `{!PyFloat F}.
Implicit Types (lines : list string) (idToIndex : gmap Z Z) (i n d : Z)
  (atoms : list (Z * F)) (st : list (list F) * list (Z * Z)).

(** The body of the inner loop reads a line, parses it, stores the atom. *)
Lemma record_line_eq lines idToIndex i j st :
  record_line lines idToIndex i j st
  = getitem lines (j + 0)
      ≫= λ line, parse_atom line ≫= λ atom, store_atom idToIndex i atom st.
Proof.
  unfold record_line, parse_atom, store_atom. rewrite Z.add_0_r.
  destruct (getitem lines j) as [line|]; simpl; [|done].
  destruct (getitem (split line) 0) as [e0|]; simpl; [|done].
  destruct (to_int e0) as [atomId|]; simpl; [|done].
  destruct (getitem (split line) 1) as [e1|]; simpl; [|done].
  by destruct (to_float e1) as [xPos|].
Qed.

Lemma parse_atoms_run idToIndex i (ls : list string) : ∀ atoms st,
  Forall2 (λ line atom, parse_atom line = Ok atom) ls atoms →
  for_each (λ line st, parse_atom line ≫= λ atom, store_atom idToIndex i atom st)
    ls st
  = for_each (store_atom idToIndex i) atoms st.
Proof.
  induction ls as [|line ls IH]; intros atoms st Hparse.
  { by apply Forall2_nil_inv_l in Hparse as ->. }
  apply Forall2_cons_inv_l in Hparse as (atom & atoms' & Hatom & Hparse & ->).
  cbn [for_each]. rewrite Hatom. simpl.
  destruct (store_atom idToIndex i atom st); simpl; [by apply IH|done].
Qed.

Lemma chunk_atoms_lines_exist lines dumpLength numAtoms i atoms :
  chunk_atoms lines dumpLength numAtoms i atoms → 0 < numAtoms →
  Z.of_nat (Z.to_nat (i * dumpLength + 9)) + numAtoms ≤ Z.of_nat (length lines).
Proof.
  intros [Hlen Hatoms] Hn. apply Forall2_length in Hatoms.
  unfold atom_lines in Hatoms. rewrite length_take, length_drop in Hatoms. lia.
Qed.

(** Lines 102-109 for a chunk of well-formed atom lines. *)
Lemma record_dump_eq lines idToIndex numAtoms dumpLength i atoms st :
  0 ≤ i → 0 ≤ dumpLength →
  chunk_atoms lines dumpLength numAtoms i atoms →
  record_dump lines idToIndex numAtoms dumpLength i st
  = for_each (store_atom idToIndex i) atoms st.
Proof.
  intros Hi Hdl Hchunk. unfold record_dump.
  destruct (decide (0 < numAtoms)) as [Hn|Hn].
  2:{ destruct Hchunk as [Hlen _]. rewrite range_nil by lia.
      destruct atoms; [done|simpl in Hlen; lia]. }
  pose proof (chunk_atoms_lines_exist _ _ _ _ _ Hchunk Hn) as Hlines.
  destruct Hchunk as [Hlen Hatoms]. unfold atom_lines in Hatoms.
  replace (i * dumpLength + 9 + numAtoms)
    with (i * dumpLength + 9 + Z.of_nat (Z.to_nat numAtoms)) by lia.
  rewrite (for_each_getitem lines _ _ 0 _ _ (record_line_eq lines idToIndex i))
    by nia.
  rewrite Z.add_0_r. by apply parse_atoms_run.
Qed.

Lemma cells_of_time idToIndex i atoms c : c ∈ cells_of idToIndex i atoms → c.2 = i.
Proof. by intros (atom & -> & _)%list_elem_of_fmap. Qed.

(** Storing the atoms of a chunk whose identifiers are all keys with an
    index in range: the cells of the chunk are assigned in order; when they
    are distinct, each holds the coordinate of its atom. *)
Lemma store_atoms_run idToIndex i n d atoms : ∀ st,
  shape st.1 n d → 0 ≤ i < d →
  (∀ atom, atom ∈ atoms → ∃ r, idToIndex !! atom.1 = Some r ∧ 0 ≤ r < n) →
  ∃ a', for_each (store_atom idToIndex i) atoms st
        = Ok (a', st.2 ++ cells_of idToIndex i atoms) ∧
    shape a' n d ∧
    (∀ r t, 0 ≤ r → 0 ≤ t → (r, t) ∉ cells_of idToIndex i atoms →
       np_get a' r t = np_get st.1 r t) ∧
    (NoDup (cells_of idToIndex i atoms) → ∀ atom, atom ∈ atoms →
       np_get a' (default 0 (idToIndex !! atom.1)) i = Ok atom.2).
Proof.
  induction atoms as [|atom atoms IH]; intros st Hshape Hi Hkeys.
  { exists st.1. simpl. rewrite app_nil_r. split; [by destruct st|].
    split; [done|]. split; [done|]. intros _ ? []%elem_of_nil. }
  destruct (Hkeys atom) as (r & Hr & Hrn); [left|].
  destruct (np_set_in_range st.1 n d r i atom.2 Hshape Hrn Hi)
    as (a1 & Hset & Hshape1 & Hget1 & Hframe1).
  destruct (IH (a1, st.2 ++ [(r, i)])) as (a' & Hrun & Hshape' & Hframe' & Hvals);
    [done|done|intros; apply Hkeys; by right|].
  exists a'. simpl in *. split; [|split; [done|split]].
  - unfold store_atom at 1, dict_getitem. rewrite Hr. simpl. rewrite Hset. simpl.
    by rewrite Hrun, <- app_assoc.
  - intros r' t Hr' Ht. rewrite Hr. simpl. intros [Hne Hnot]%not_elem_of_cons.
    rewrite Hframe' by done. by apply Hframe1.
  - rewrite Hr. simpl. intros [Hfresh Hnd]%NoDup_cons atom' [->|Hin]%elem_of_cons.
    + rewrite Hr. simpl. rewrite Hframe' by (done || lia). done.
    + by apply Hvals.
Qed.

(** An atom whose identifier is not a key stops the chunk with
    [KeyError]. *)
Lemma store_atoms_KeyError idToIndex i n d atoms : ∀ st,
  shape st.1 n d → 0 ≤ i < d →
  (∀ id r, idToIndex !! id = Some r → 0 ≤ r < n) →
  Exists (λ atom, idToIndex !! atom.1 = None) atoms →
  for_each (store_atom idToIndex i) atoms st = Raise KeyError.
Proof.
  induction atoms as [|atom atoms IH]; intros st Hshape Hi Hrange Hbad.
  { by apply Exists_nil in Hbad. }
  cbn [for_each]. unfold store_atom at 1, dict_getitem.
  destruct (idToIndex !! atom.1) as [r|] eqn:Hr; simpl; [|done].
  apply Exists_cons in Hbad as [Hbad|Hbad]; [congruence|].
  destruct (np_set_in_range st.1 n d r i atom.2 Hshape (Hrange _ _ Hr) Hi)
    as (a1 & -> & Hshape1 & _). simpl.
  by apply IH.
Qed.

(** Lines 101-109 over distinct chunks of well-formed atom lines whose
    identifiers are keys. *)
Lemma record_dumps_run lines idToIndex n dumpLength d
    (atoms : Z → list (Z * F)) (chunks : list Z) : ∀ st,
  0 ≤ dumpLength → NoDup chunks →
  (∀ i, i ∈ chunks →
     0 ≤ i < d ∧ chunk_atoms lines dumpLength n i (atoms i) ∧
     ∀ atom, atom ∈ atoms i → ∃ r, idToIndex !! atom.1 = Some r ∧ 0 ≤ r < n) →
  shape st.1 n d →
  ∃ a', for_each (record_dump lines idToIndex n dumpLength) chunks st
        = Ok (a', st.2 ++ (i ← chunks; cells_of idToIndex i (atoms i))) ∧
    shape a' n d ∧
    (∀ r t, 0 ≤ r → 0 ≤ t → t ∉ chunks → np_get a' r t = np_get st.1 r t) ∧
    (∀ i atom, i ∈ chunks → NoDup (cells_of idToIndex i (atoms i)) →
       atom ∈ atoms i →
       np_get a' (default 0 (idToIndex !! atom.1)) i = Ok atom.2).
Proof.
  induction chunks as [|i chunks IH]; intros st Hdl Hnd Hchunks Hshape.
  { exists st.1. simpl. rewrite app_nil_r. split; [by destruct st|].
    split; [done|]. split; [done|]. intros ?? []%elem_of_nil. }
  apply NoDup_cons in Hnd as [Hfresh Hnd].
  destruct (Hchunks i) as (Hi & Hchunk & Hkeys); [left|].
  destruct (store_atoms_run idToIndex i n d (atoms i) st)
    as (a1 & Hrun1 & Hshape1 & Hframe1 & Hvals1); [done..|].
  destruct (IH (a1, st.2 ++ cells_of idToIndex i (atoms i)))
    as (a' & Hrun & Hshape' & Hframe' & Hvals');
    [done|done|intros; apply Hchunks; by right|done|].
  exists a'. simpl in *. split; [|split; [done|split]].
  - rewrite (record_dump_eq _ _ _ _ _ (atoms i)) by (done || lia).
    rewrite Hrun1. simpl. by rewrite Hrun, <- app_assoc.
  - intros r t Hr Ht [Hne Hnot]%not_elem_of_cons.
    rewrite Hframe' by done. apply Hframe1; [done..|].
    intros Hin%cells_of_time. done.
  - intros i' atom [->|Hin]%elem_of_cons Hcells Hatom.
    + destruct (Hkeys atom Hatom) as (r & Hr & Hrn).
      rewrite Hframe'; [by apply Hvals1| |lia|done].
      rewrite Hr. simpl. lia.
    + by apply Hvals'.
Qed.

(** A processed chunk with an identifier that is not a key stops the
    assembly with [KeyError]. *)
Lemma record_dumps_KeyError lines idToIndex n dumpLength d
    (atoms : Z → list (Z * F)) (chunks : list Z) : ∀ st,
  0 ≤ dumpLength →
  (∀ i, i ∈ chunks → 0 ≤ i < d ∧ chunk_atoms lines dumpLength n i (atoms i)) →
  (∀ id r, idToIndex !! id = Some r → 0 ≤ r < n) →
  shape st.1 n d →
  Exists (λ i, Exists (λ atom, idToIndex !! atom.1 = None) (atoms i)) chunks →
  for_each (record_dump lines idToIndex n dumpLength) chunks st = Raise KeyError.
Proof.
  induction chunks as [|i chunks IH]; intros st Hdl Hchunks Hrange Hshape Hbad.
  { by apply Exists_nil in Hbad. }
  destruct (Hchunks i) as (Hi & Hchunk); [left|].
  cbn [for_each]. rewrite (record_dump_eq _ _ _ _ _ (atoms i)) by (done || lia).
  destruct (decide (Exists (λ atom, idToIndex !! atom.1 = None) (atoms i)))
    as [Hhere|Hgood].
  { by rewrite (store_atoms_KeyError idToIndex i n d). }
  apply Exists_cons in Hbad as [?|Hbad]; [done|].
  apply not_Exists_Forall in Hgood; [|intros ?; apply _].
  rewrite Forall_forall in Hgood.
  destruct (store_atoms_run idToIndex i n d (atoms i) st)
    as (a1 & -> & Hshape1 & _); [done..| |].
  { intros atom Hatom. specialize (Hgood atom Hatom). simpl in Hgood.
    destruct (idToIndex !! atom.1) as [r|] eqn:Hr; [eauto|done]. }
  simpl. apply IH; [done| |done..]. intros; apply Hchunks; by right.
Qed.

Lemma parse_atom_id (line : string) (atom : Z * F) :
  parse_atom line = Ok atom → parse_id line = Ok atom.1.
Proof.
  unfold parse_atom, parse_id.
  destruct (getitem (split line) 0) as [e0|]; simpl; [|done].
  destruct (to_int e0) as [atomId|]; simpl; [|done].
  destruct (getitem (split line) 1) as [e1|]; simpl; [|done].
  destruct (to_float e1) as [xPos|]; simpl; [|done]. by intros [= <-].
Qed.

Lemma chunk_atoms_ids lines dumpLength numAtoms i atoms :
  chunk_atoms lines dumpLength numAtoms i atoms →
  chunk_ids lines dumpLength numAtoms i atoms.*1.
Proof.
  intros [Hlen Hatoms]. split; [by rewrite length_fmap|].
  apply Forall2_fmap_r. eapply Forall2_impl; [done|].
  intros line atom. apply parse_atom_id.
Qed.

End Assembler.

Lemma num_chunks_floor lines numAtoms dumpStep :
  readable_header lines numAtoms dumpStep →
  1 ≤ num_chunks lines numAtoms ∧
  num_chunks lines numAtoms * (numAtoms + 9) ≤ Z.of_nat (length lines)
    < (num_chunks lines numAtoms + 1) * (numAtoms + 9).
Proof.
  intros (l3 & ld & _ & _ & Hn & Hld & _). apply lookup_lt_Some in Hld.
  unfold num_chunks. rewrite Z.quot_div_nonneg by lia.
  pose proof (Z.div_mod (Z.of_nat (length lines)) (numAtoms + 9)).
  pose proof (Z.mod_pos_bound (Z.of_nat (length lines)) (numAtoms + 9)).
  assert (1 ≤ Z.of_nat (length lines) / (numAtoms + 9)).
  { apply Z.div_le_lower_bound; lia. }
  nia.
Qed.

Section Decoder.

Context {F : Type} `{!PyFloat F}.
Variable uninit : nat → nat → F.
Implicit Types (lines : list string) (atoms : Z → list (Z * F)).

Lemma shape_np_empty (n d : Z) :
  0 ≤ n → 0 ≤ d →
  shape ((λ r, uninit r <$> seq 0 (Z.to_nat d)) <$> seq 0 (Z.to_nat n)) n d.
Proof.
  intros Hn Hd. split; [|split; [done|]].
  - rewrite length_fmap, length_seq. lia.
  - rewrite Forall_fmap. apply Forall_forall. intros r _. simpl.
    rewrite length_fmap, length_seq. lia.
Qed.

(** A file with a readable header whose processed chunks consist of
    well-formed atom lines carrying identifiers of the first chunk is
    decoded: the matrix has one row per atom and one column per whole
    chunk, and the cells assigned are those of the atoms, chunk after
    chunk. *)
Lemma decode_run lines numAtoms dumpStep atoms :
  readable_header lines numAtoms dumpStep →
  (∀ i, 0 ≤ i < num_chunks lines numAtoms →
     chunk_atoms lines (numAtoms + 9) numAtoms i (atoms i) ∧
     ∀ atom, atom ∈ atoms i → atom.1 ∈ (atoms 0).*1) →
  ∃ (idToIndex : gmap Z Z) (a : list (list F)),
    build_idToIndex lines numAtoms = Ok idToIndex ∧
    decode uninit lines
    = Ok (Some (a, meta_of lines numAtoms dumpStep,
                i ← range 0 (num_chunks lines numAtoms);
                cells_of idToIndex i (atoms i))) ∧
    shape a numAtoms (num_chunks lines numAtoms) ∧
    (∀ id, id ∈ (atoms 0).*1 → is_Some (idToIndex !! id)) ∧
    (∀ id r, idToIndex !! id = Some r →
       0 ≤ r < numAtoms ∧ sorted (atoms 0).*1 !! Z.to_nat r = Some id) ∧
    (∀ i atom, 0 ≤ i < num_chunks lines numAtoms →
       NoDup (cells_of idToIndex i (atoms i)) → atom ∈ atoms i →
       np_get a (default 0 (idToIndex !! atom.1)) i = Ok atom.2).
Proof.
  intros Hheader Hchunks.
  destruct (num_chunks_floor _ _ _ Hheader) as [Hnd _].
  destruct Hheader as (l3 & ld & Hl3 & Hn & Hn0 & Hld & Hstep).
  destruct (Hchunks 0) as [Hfirst _]; [lia|].
  destruct (build_idToIndex_run lines (numAtoms + 9) numAtoms (atoms 0).*1)
    as (M & HM & Hdom & Hval); [by apply chunk_atoms_ids|].
  destruct (record_dumps_run lines M numAtoms (numAtoms + 9)
              (num_chunks lines numAtoms) atoms
              (range 0 (num_chunks lines numAtoms))
              ((λ r, uninit r <$> seq 0 (Z.to_nat (num_chunks lines numAtoms)))
                 <$> seq 0 (Z.to_nat numAtoms), []))
    as (a & Hrun & Hshape & _ & Hvals).
  { lia. }
  { apply NoDup_range. }
  { intros i Hi%elem_of_range. destruct (Hchunks i) as [Hchunk Hids]; [lia|].
    split; [lia|]. split; [done|]. intros atom Hatom.
    destruct (Hdom atom.1) as [r Hr]; [by apply Hids|].
    exists r. split; [done|]. by apply (Hval atom.1 r). }
  { apply shape_np_empty; lia. }
  exists M, a. split; [done|]. split; [|split; [done|split; [done|split]]].
  - rewrite (decode_header uninit lines l3 numAtoms ld dumpStep) by done.
    rewrite HM. simpl. unfold assemble. fold (num_chunks lines numAtoms).
    by rewrite Hrun.
  - done.
  - intros i atom Hi. apply Hvals. apply elem_of_range. lia.
Qed.

End Decoder.

(** ** Every cell is assigned once, whatever the order of the atom lines *)

Lemma bind_Permutation_ext {A B} (f g : A → list B) (l : list A) :
  (∀ x, x ∈ l → f x ≡ₚ g x) → l ≫= f ≡ₚ l ≫= g.
Proof.
  induction l as [|x l IH]; intros Hfg; [done|].
  rewrite !bind_cons. apply Permutation_app.
  - apply Hfg. by left.
  - apply IH. intros; apply Hfg. by right.
Qed.

(** Along the sorted identifiers the mapping counts from zero. *)
Lemma index_of_sorted (idToIndex : gmap Z Z) (ids : list Z) (n : Z) :
  NoDup ids → length ids = Z.to_nat n →
  (∀ id, id ∈ ids → is_Some (idToIndex !! id)) →
  (∀ id r, idToIndex !! id = Some r →
     0 ≤ r < n ∧ sorted ids !! Z.to_nat r = Some id) →
  (λ id, default 0 (idToIndex !! id)) <$> sorted ids = range 0 n.
Proof.
  intros Hnd Hlen Hdom Hval.
  assert (Hperm : sorted ids ≡ₚ ids) by apply merge_sort_Permutation.
  assert (Hnd' : NoDup (sorted ids)) by (by rewrite Hperm).
  apply list_eq. intros k. rewrite list_lookup_fmap.
  destruct (decide (k < Z.to_nat n)%nat) as [Hk|Hk].
  - destruct (lookup_lt_is_Some_2 (sorted ids) k) as [id Hid].
    { by rewrite Hperm, Hlen. }
    rewrite Hid, lookup_range by lia. simpl. f_equal.
    destruct (Hdom id) as [r Hr].
    { rewrite <- Hperm. by eapply list_elem_of_lookup_2. }
    rewrite Hr. simpl. destruct (Hval id r Hr) as [? Hr'].
    pose proof (NoDup_lookup _ _ _ _ Hnd' Hid Hr'). lia.
  - rewrite lookup_ge_None_2 by (rewrite Hperm, Hlen; lia).
    unfold range. rewrite lookup_seqZ_ge by lia. done.
Qed.

Section Permuted.

Context {F : Type} `{!PyFloat F}.
Implicit Types (lines : list string) (atoms : list (Z * F)).

Lemma parsed_atoms_Forall2 (ls : list string) atoms :
  Forall2 (λ line atom, parse_atom line = Ok atom) ls atoms →
  parsed_atoms ls = atoms.
Proof.
  induction 1 as [|line atom ls atoms Hatom _ IH]; [done|].
  unfold parsed_atoms in *. simpl. rewrite Hatom. simpl. by f_equal.
Qed.

Lemma Forall2_parsed_atoms (ls : list string) :
  Forall (λ line, ∃ atom : Z * F, parse_atom line = Ok atom) ls →
  Forall2 (λ line atom, parse_atom line = Ok atom) ls (parsed_atoms ls).
Proof.
  induction 1 as [|line ls [atom Hatom] _ IH]; [constructor|].
  unfold parsed_atoms in *. simpl. rewrite Hatom. simpl. by constructor.
Qed.

(** Permuting the atom lines of a chunk permutes its atoms. *)
Lemma chunk_atoms_permuted lines lines' dumpLength numAtoms i atoms :
  chunk_atoms lines dumpLength numAtoms i atoms →
  atom_lines lines' dumpLength numAtoms i ≡ₚ atom_lines lines dumpLength numAtoms i →
  chunk_atoms lines' dumpLength numAtoms i
    (parsed_atoms (atom_lines lines' dumpLength numAtoms i)) ∧
  parsed_atoms (atom_lines lines' dumpLength numAtoms i) ≡ₚ atoms.
Proof.
  intros [Hlen Hatoms] Hperm.
  assert (Hp : parsed_atoms (atom_lines lines' dumpLength numAtoms i) ≡ₚ atoms).
  { rewrite <- (parsed_atoms_Forall2 _ _ Hatoms). unfold parsed_atoms.
    by rewrite Hperm. }
  split; [split|done].
  - by rewrite Hp.
  - apply Forall2_parsed_atoms. rewrite Hperm.
    clear -Hatoms. induction Hatoms; constructor; eauto.
Qed.

End Permuted.

(** The mapping depends on the set of the identifiers of the first chunk,
    not on their order. *)
Lemma build_idToIndex_permuted lines lines' dumpLength numAtoms ids ids' :
  chunk_ids lines dumpLength numAtoms 0 ids →
  chunk_ids lines' dumpLength numAtoms 0 ids' →
  ids' ≡ₚ ids →
  build_idToIndex lines' numAtoms = build_idToIndex lines numAtoms.
Proof.
  intros Hids Hids' Hperm. unfold build_idToIndex.
  rewrite (first_chunk_ids_run _ _ _ _ Hids), (first_chunk_ids_run _ _ _ _ Hids').
  simpl. do 2 f_equal.
  apply (StronglySorted_unique Z.le);
    [apply StronglySorted_merge_sort; apply _..|].
  unfold sorted. by rewrite !merge_sort_Permutation.
Qed.

Section Distinct.

Context {F : Type} `{!PyFloat F}.
Implicit Types (lines : list string) (atoms : Z → list (Z * F)).

(** Decoding when every processed chunk has one atom line for each
    identifier of the first chunk. *)
Lemma decode_distinct (uninit : nat → nat → F) lines numAtoms dumpStep atoms :
  readable_header lines numAtoms dumpStep →
  NoDup (atoms 0).*1 →
  (∀ i, 0 ≤ i < num_chunks lines numAtoms →
     chunk_atoms lines (numAtoms + 9) numAtoms i (atoms i) ∧
     (atoms i).*1 ≡ₚ (atoms 0).*1) →
  ∃ (idToIndex : gmap Z Z) (a : list (list F)) (written : list (Z * Z)),
    build_idToIndex lines numAtoms = Ok idToIndex ∧
    decode uninit lines
    = Ok (Some (a, meta_of lines numAtoms dumpStep, written)) ∧
    shape a numAtoms (num_chunks lines numAtoms) ∧
    written ≡ₚ scan_order numAtoms (num_chunks lines numAtoms) ∧
    (∀ i atom r, 0 ≤ i < num_chunks lines numAtoms → atom ∈ atoms i →
       idToIndex !! atom.1 = Some r → np_get a r i = Ok atom.2) ∧
    (∀ r, 0 ≤ r < numAtoms →
       ∃ id, id ∈ (atoms 0).*1 ∧ idToIndex !! id = Some r).
Proof.
  intros Hheader Hnd Hchunks.
  destruct (decode_run uninit lines numAtoms dumpStep atoms Hheader)
    as (M & a & HM & Hrun & Hshape & Hdom & Hval & Hvals).
  { intros i Hi. destruct (Hchunks i Hi) as [Hchunk Hperm]. split; [done|].
    intros atom Hatom. rewrite <- Hperm. by apply list_elem_of_fmap_2. }
  destruct (num_chunks_floor _ _ _ Hheader) as [Hnd1 _].
  destruct (Hchunks 0) as [[Hlen0 _] _]; [lia|].
  rewrite <- (length_fmap fst) in Hlen0.
  pose proof (index_of_sorted M _ numAtoms Hnd Hlen0 Hdom Hval) as Hindex.
  assert (Hcells : ∀ i, 0 ≤ i < num_chunks lines numAtoms →
            cells_of M i (atoms i) ≡ₚ (λ j, (j, i)) <$> range 0 numAtoms).
  { intros i Hi. destruct (Hchunks i Hi) as [_ Hperm].
    rewrite <- Hindex, <- list_fmap_compose. unfold cells_of.
    change (λ atom : Z * F, (default 0 (M !! atom.1), i))
      with ((λ id, (default 0 (M !! id), i)) ∘ (fst : Z * F → Z)).
    rewrite list_fmap_compose, Hperm.
    apply fmap_Permutation. symmetry. apply merge_sort_Permutation. }
  exists M, a. eexists. split; [done|]. split; [done|]. split; [done|].
  split; [|split].
  - unfold scan_order. apply bind_Permutation_ext.
    intros i Hi%elem_of_range. apply Hcells. lia.
  - intros i atom r Hi Hatom Hr.
    rewrite <- (Hvals i atom Hi); [by rewrite Hr| |done].
    rewrite (Hcells i Hi). apply NoDup_fmap_2; [|apply NoDup_range].
    by intros j j' [= ->].
  - intros r Hr.
    assert (Hrr : range 0 numAtoms !! Z.to_nat r = Some r).
    { rewrite lookup_range by lia. f_equal. lia. }
    rewrite <- Hindex, list_lookup_fmap in Hrr.
    destruct (sorted (atoms 0).*1 !! Z.to_nat r) as [id|] eqn:Hid; [|done].
    exists id. split.
    + rewrite <- (merge_sort_Permutation Z.le). by eapply list_elem_of_lookup_2.
    + destruct (Hdom id) as [r' Hr'].
      { rewrite <- (merge_sort_Permutation Z.le).
        by eapply list_elem_of_lookup_2. }
      simpl in Hrr. rewrite Hr' in Hrr. simpl in Hrr. congruence.
Qed.

End Distinct.

(** C4.  In a file each of whose processed chunks has exactly one atom line
    for every identifier of the first chunk, the assembly assigns every cell
    of the [numAtoms] by [int(numDumps)] matrix, and assigns it once; the
    cell of an atom holds its coordinate; and a file that differs by the
    order of the atom lines within the chunks gives the same matrix,
    whatever the arrays held when they were allocated. *)
Theorem assembly_writes_every_cell_once {F : Type} `{!PyFloat F}
    (uninit : nat → nat → F) (lines : list string) (numAtoms dumpStep : Z)
    (atoms : Z → list (Z * F)) :
  readable_header lines numAtoms dumpStep →
  NoDup (atoms 0).*1 →
  (∀ i, 0 ≤ i < num_chunks lines numAtoms →
     chunk_atoms lines (numAtoms + 9) numAtoms i (atoms i) ∧
     (atoms i).*1 ≡ₚ (atoms 0).*1) →
  ∃ (idToIndex : gmap Z Z) (a : list (list F)) (written : list (Z * Z)),
    build_idToIndex lines numAtoms = Ok idToIndex ∧
    decode uninit lines
    = Ok (Some (a, meta_of lines numAtoms dumpStep, written)) ∧
    shape a numAtoms (num_chunks lines numAtoms) ∧
    NoDup written ∧
    (∀ c, c ∈ written
          ↔ 0 ≤ c.1 < numAtoms ∧ 0 ≤ c.2 < num_chunks lines numAtoms) ∧
    (∀ i atom r, 0 ≤ i < num_chunks lines numAtoms → atom ∈ atoms i →
       idToIndex !! atom.1 = Some r → np_get a r i = Ok atom.2) ∧
    (∀ (uninit' : nat → nat → F) (lines' : list string),
       length lines' = length lines →
       lines' !! 3%nat = lines !! 3%nat →
       lines' !! Z.to_nat (numAtoms + 9 + 1)
         = lines !! Z.to_nat (numAtoms + 9 + 1) →
       (∀ i, 0 ≤ i < num_chunks lines numAtoms →
          atom_lines lines' (numAtoms + 9) numAtoms i
            ≡ₚ atom_lines lines (numAtoms + 9) numAtoms i) →
       ∃ written',
         decode uninit' lines'
         = Ok (Some (a, meta_of lines numAtoms dumpStep, written'))).
Proof.
  intros Hheader Hnd Hchunks.
  destruct (decode_distinct uninit lines numAtoms dumpStep atoms)
    as (M & a & written & HM & Hrun & Hshape & Hwritten & Hvals & Hsurj);
    [done..|].
  exists M, a, written. split; [done|]. split; [done|]. split; [done|].
  split; [|split; [|split; [done|]]].
  - rewrite Hwritten. apply NoDup_scan_order.
  - intros c. rewrite Hwritten. apply elem_of_scan_order.
  - intros uninit' lines' Hlen H3 Hstep Hperm.
    destruct (num_chunks_floor _ _ _ Hheader) as [Hnd1 _].
    set (atoms' := λ i, parsed_atoms (F := F)
                          (atom_lines lines' (numAtoms + 9) numAtoms i)).
    assert (Hnc : num_chunks lines' numAtoms = num_chunks lines numAtoms).
    { unfold num_chunks. by rewrite Hlen. }
    assert (Hatoms' : ∀ i, 0 ≤ i < num_chunks lines numAtoms →
              chunk_atoms lines' (numAtoms + 9) numAtoms i (atoms' i) ∧
              atoms' i ≡ₚ atoms i).
    { intros i Hi. destruct (Hchunks i Hi) as [Hchunk _].
      apply (chunk_atoms_permuted lines); [done|by apply Hperm]. }
    destruct (Hatoms' 0) as [Hchunk0' Hperm0]; [lia|].
    destruct (Hchunks 0) as [Hchunk0 _]; [lia|].
    destruct (decode_distinct uninit' lines' numAtoms dumpStep atoms')
      as (M' & a' & written' & HM' & Hrun' & Hshape' & _ & Hvals' & _).
    { destruct Hheader as (l3 & ld & ? & ? & ? & ? & ?).
      exists l3, ld. rewrite H3, Hstep. done. }
    { by rewrite Hperm0. }
    { rewrite Hnc. intros i Hi. destruct (Hatoms' i Hi) as [? Hpi].
      destruct (Hchunks i Hi) as [_ Hp]. split; [done|].
      by rewrite Hpi, Hperm0. }
    assert (M' = M) as ->.
    { rewrite (build_idToIndex_permuted lines lines' (numAtoms + 9) numAtoms
                 (atoms 0).*1 (atoms' 0).*1) in HM'.
      - congruence.
      - by apply chunk_atoms_ids.
      - by apply chunk_atoms_ids.
      - by rewrite Hperm0. }
    exists written'. rewrite Hrun'. unfold meta_of. rewrite Hlen.
    do 4 f_equal. rewrite Hnc in Hshape'.
    apply (shape_ext _ _ numAtoms (num_chunks lines numAtoms)); [done..|].
    intros r i Hr Hi. destruct (Hsurj r Hr) as (id & Hid & HMid).
    destruct (Hchunks i Hi) as [_ Hp]. rewrite <- Hp in Hid.
    apply list_elem_of_fmap in Hid as (atom & -> & Hatom).
    rewrite (Hvals i atom r) by done.
    apply Hvals'; [lia| |done].
    destruct (Hatoms' i Hi) as [_ Hpi]. by rewrite Hpi.
Qed.

(** ** The header and the lines after the last whole chunk *)

Section Truncation.

Context {F : Type} `{!PyFloat F}.
Variable uninit : nat → nat → F.
Implicit Types (lines : list string).

Lemma getitem_take {A} (l l' : list A) (k : nat) (j : Z) :
  take k l' = take k l → 0 ≤ j < Z.of_nat k → getitem l' j = getitem l j.
Proof.
  intros Htake Hj. rewrite !getitem_nonneg by lia.
  rewrite <- (lookup_take_lt l' k), <- (lookup_take_lt l k) by lia.
  by rewrite Htake.
Qed.

(** The decoder reads the lines of the whole chunks and line
    [dumpLength + 1], nothing else. *)
Lemma decode_ignores_remainder lines lines' numAtoms dumpStep :
  readable_header lines numAtoms dumpStep →
  length lines' = length lines →
  take (Z.to_nat (num_chunks lines numAtoms * (numAtoms + 9))) lines'
    = take (Z.to_nat (num_chunks lines numAtoms * (numAtoms + 9))) lines →
  lines' !! Z.to_nat (numAtoms + 9 + 1) = lines !! Z.to_nat (numAtoms + 9 + 1) →
  decode uninit lines' = decode uninit lines.
Proof.
  intros Hheader Hlen Htake Hstep.
  destruct (num_chunks_floor _ _ _ Hheader) as [Hnd [Hlo Hhi]].
  destruct Hheader as (l3 & ld & Hl3 & Hn & Hn0 & Hld & Hds).
  set (nd := num_chunks lines numAtoms) in *.
  assert (Hget : ∀ j, 0 ≤ j < nd * (numAtoms + 9) →
                      getitem lines' j = getitem lines j).
  { intros j Hj. apply (getitem_take _ _ _ _ Htake). lia. }
  assert (Hl3' : lines' !! 3%nat = Some l3).
  { rewrite <- Hl3, <- (lookup_take_lt lines' (Z.to_nat (nd * (numAtoms + 9)))),
      <- (lookup_take_lt lines (Z.to_nat (nd * (numAtoms + 9)))) by nia.
    by rewrite Htake. }
  rewrite (decode_header uninit lines l3 numAtoms ld dumpStep) by done.
  rewrite (decode_header uninit lines' l3 numAtoms ld dumpStep)
    by (done || congruence).
  rewrite Hlen. fold (num_chunks lines numAtoms). fold nd.
  assert (Hbuild : build_idToIndex lines' numAtoms
                   = build_idToIndex lines numAtoms).
  { unfold build_idToIndex. f_equal. apply for_each_ext.
    intros i s Hi%elem_of_range. unfold collect_id. rewrite Hget; [done|nia]. }
  rewrite Hbuild. destruct (build_idToIndex lines numAtoms) as [M|]; [|done].
  simpl. f_equal. unfold assemble. apply for_each_ext.
  intros i st Hi%elem_of_range. unfold record_dump. apply for_each_ext.
  intros j st' Hj%elem_of_range. unfold record_line. rewrite Hget; [done|nia].
Qed.

End Truncation.

Lemma length_bind_const {A B} (f : A → list B) (l : list A) (n : nat) :
  (∀ x, x ∈ l → length (f x) = n) → length (l ≫= f) = (length l * n)%nat.
Proof.
  induction l as [|x l IH]; intros Hf; [done|].
  rewrite bind_cons, length_app, (Hf x) by left.
  rewrite IH by (intros; apply Hf; by right). simpl. lia.
Qed.

(** The keys of a mapping whose keys are the identifiers [ids]: there are
    at most as many as identifiers, and as many only when no identifier is
    repeated. *)
Lemma idToIndex_size (idToIndex : gmap Z Z) (ids : list Z) :
  (∀ id, id ∈ ids → is_Some (idToIndex !! id)) →
  (∀ id, is_Some (idToIndex !! id) → id ∈ ids) →
  (size idToIndex ≤ length ids)%nat ∧
  (size idToIndex = length ids ↔ NoDup ids).
Proof.
  intros Hdom Hkeys.
  set (keys := (map_to_list idToIndex).*1).
  assert (Hnd : NoDup keys) by apply NoDup_fst_map_to_list.
  assert (Hlen : length keys = size idToIndex).
  { unfold keys. by rewrite length_fmap, length_map_to_list. }
  assert (Hin : ∀ id, id ∈ keys ↔ is_Some (idToIndex !! id)).
  { intros id. unfold keys. rewrite list_elem_of_fmap. split.
    - intros ([k v] & -> & Hkv%elem_of_map_to_list). eauto.
    - intros [v Hv]. exists (id, v). split; [done|].
      by apply elem_of_map_to_list. }
  assert (Hsub : keys ⊆+ ids).
  { apply NoDup_submseteq; [done|]. intros id. rewrite Hin. apply Hkeys. }
  rewrite <- Hlen. split; [by apply submseteq_length|]. split.
  - intros Heq. rewrite <- (submseteq_length_Permutation keys ids); [done..|lia].
  - intros Hids. apply Nat.le_antisymm; [by apply submseteq_length|].
    apply submseteq_length, NoDup_submseteq; [done|].
    intros id. rewrite Hin. apply Hdom.
Qed.

Section Files.

Context {F : Type} `{!PyFloat F}.
Variable uninit : nat → nat → F.
Implicit Types (lines : list string) (atoms : Z → list (Z * F)).

(** C6, as amended.  For a file whose header can be read ([numAtoms], not
    negative, from line 3 without its last character; [dumpStep] from line
    [dumpLength + 1], which exists, with [dumpLength = numAtoms + 9]), the
    decoder runs the assembly over exactly
    [floor(totalLines / dumpLength)] chunks, of which there is at least
    one; the lines after the last whole chunk, other than line
    [dumpLength + 1], do not influence the outcome; and when the atom
    lines of the whole chunks are well formed and carry identifiers of the
    first chunk the file is decoded without error into a matrix of that
    many columns: the cells assigned are those of the atoms of the chunks
    [0] to [floor(totalLines / dumpLength) - 1], chunk after chunk, one
    assignment per atom line of these chunks and none for any other
    line. *)
Theorem decoder_header_and_truncation lines numAtoms dumpStep :
  readable_header lines numAtoms dumpStep →
  let dumpLength := numAtoms + 9 in
  let nd := num_chunks lines numAtoms in
  (1 ≤ nd ∧ nd * dumpLength ≤ Z.of_nat (length lines) < (nd + 1) * dumpLength) ∧
  int_of_Q (numDumps (meta_of lines numAtoms dumpStep)) = nd ∧
  decode uninit lines
  = (idToIndex ← build_idToIndex lines numAtoms;
     r ← assemble lines idToIndex numAtoms dumpLength nd
           ((λ r, uninit r <$> seq 0 (Z.to_nat nd)) <$> seq 0 (Z.to_nat numAtoms));
     mret (Some (r.1, meta_of lines numAtoms dumpStep, r.2))) ∧
  (∀ lines',
     length lines' = length lines →
     take (Z.to_nat (nd * dumpLength)) lines'
       = take (Z.to_nat (nd * dumpLength)) lines →
     lines' !! Z.to_nat (dumpLength + 1) = lines !! Z.to_nat (dumpLength + 1) →
     decode uninit lines' = decode uninit lines) ∧
  (∀ atoms,
     (∀ i, 0 ≤ i < nd →
        chunk_atoms lines dumpLength numAtoms i (atoms i) ∧
        ∀ atom, atom ∈ atoms i → atom.1 ∈ (atoms 0).*1) →
     ∃ (idToIndex : gmap Z Z) a written,
       build_idToIndex lines numAtoms = Ok idToIndex ∧
       decode uninit lines
       = Ok (Some (a, meta_of lines numAtoms dumpStep, written)) ∧
       shape a numAtoms nd ∧
       written = (i ← range 0 nd; cells_of idToIndex i (atoms i)) ∧
       length written = (Z.to_nat nd * Z.to_nat numAtoms)%nat ∧
       (∀ c, c ∈ written → 0 ≤ c.2 < nd) ∧
       (0 < numAtoms → ∀ i, 0 ≤ i < nd → ∃ r, (r, i) ∈ written)).
Proof.
  intros Hheader dumpLength nd.
  split; [by eapply num_chunks_floor|]. split; [|split; [|split]].
  - destruct Hheader as (l3 & ld & _ & _ & Hn & _).
    apply (int_of_Q_truediv _ dumpLength); [unfold dumpLength; lia|].
    apply truediv_pos. unfold dumpLength. lia.
  - destruct Hheader as (l3 & ld & Hl3 & Hn & Hn0 & Hld & Hstep).
    by rewrite (decode_header uninit lines l3 numAtoms ld dumpStep).
  - intros lines' Hlen Htake Hstep. by eapply decode_ignores_remainder.
  - intros atoms Hchunks.
    destruct (decode_run uninit lines numAtoms dumpStep atoms Hheader Hchunks)
      as (M & a & HM & Hrun & Hshape & _).
    exists M, a. eexists. split; [done|]. split; [done|]. split; [done|].
    split; [done|]. split; [|split].
    + rewrite (length_bind_const _ _ (Z.to_nat numAtoms)).
      * unfold range. rewrite length_seqZ. f_equal. lia.
      * intros i Hi%elem_of_range. unfold cells_of. rewrite length_fmap.
        destruct (Hchunks i) as [[Hlen _] _]; [lia|done].
    + intros c (i & Hc & Hi)%list_elem_of_bind.
      apply cells_of_time in Hc as ->. apply elem_of_range in Hi. lia.
    + intros Hn i Hi. destruct (Hchunks i Hi) as [[Hlen _] _].
      destruct (atoms i) as [|atom rest] eqn:Hatoms; [simpl in Hlen; lia|].
      exists (default 0 (M !! atom.1)). apply list_elem_of_bind.
      exists i. split; [|apply elem_of_range; lia].
      rewrite Hatoms. unfold cells_of. simpl. by left.
Qed.

(** C10, as amended.  With a readable header and well-formed atom lines in
    the processed chunks, the assembly succeeds when every identifier of
    those lines occurs in the first chunk, whether or not the identifiers of
    the first chunk are distinct, and stops with [KeyError] when one of
    them does not occur there.  The mapping has at most [numAtoms] entries,
    and [numAtoms] of them exactly when the identifiers of the first chunk
    are distinct. *)
Theorem assembly_total_iff_identifiers_known lines numAtoms dumpStep atoms :
  readable_header lines numAtoms dumpStep →
  (∀ i, 0 ≤ i < num_chunks lines numAtoms →
     chunk_atoms lines (numAtoms + 9) numAtoms i (atoms i)) →
  ((∀ i atom, 0 ≤ i < num_chunks lines numAtoms → atom ∈ atoms i →
      atom.1 ∈ (atoms 0).*1) →
   ∃ a written,
     decode uninit lines
     = Ok (Some (a, meta_of lines numAtoms dumpStep, written))) ∧
  ((∃ i atom, 0 ≤ i < num_chunks lines numAtoms ∧ atom ∈ atoms i ∧
      atom.1 ∉ (atoms 0).*1) →
   decode uninit lines = Raise KeyError) ∧
  ∃ idToIndex : gmap Z Z,
    build_idToIndex lines numAtoms = Ok idToIndex ∧
    Z.of_nat (size idToIndex) ≤ numAtoms ∧
    (Z.of_nat (size idToIndex) = numAtoms ↔ NoDup (atoms 0).*1).
Proof.
  intros Hheader Hchunks. split; [|split].
  - intros Hknown.
    destruct (decode_run uninit lines numAtoms dumpStep atoms Hheader)
      as (M & a & _ & Hrun & _); [|by eauto].
    intros i Hi. split; [by apply Hchunks|]. intros atom. by apply Hknown.
  - intros (i & atom & Hi & Hatom & Hunknown).
    destruct (num_chunks_floor _ _ _ Hheader) as [Hnd _].
    destruct (build_idToIndex_run lines (numAtoms + 9) numAtoms (atoms 0).*1)
      as (M & HM & _ & Hval).
    { apply chunk_atoms_ids, Hchunks. lia. }
    destruct Hheader as (l3 & ld & Hl3 & Hn & Hn0 & Hld & Hstep).
    rewrite (decode_header uninit lines l3 numAtoms ld dumpStep) by done.
    rewrite HM. simpl. unfold assemble. fold (num_chunks lines numAtoms).
    rewrite (record_dumps_KeyError lines M numAtoms (numAtoms + 9)
               (num_chunks lines numAtoms) atoms); [done|lia|..].
    + intros i' Hi'%elem_of_range. split; [lia|]. apply Hchunks. lia.
    + intros id r Hr. by destruct (Hval id r Hr).
    + apply shape_np_empty; lia.
    + apply Exists_exists. exists i. split; [apply elem_of_range; lia|].
      apply Exists_exists. exists atom. split; [done|].
      destruct (M !! atom.1) as [r|] eqn:Hr; [|done].
      destruct (Hval _ _ Hr) as [_ Hin]. destruct Hunknown.
      rewrite <- (merge_sort_Permutation Z.le). by eapply list_elem_of_lookup_2.
  - destruct (num_chunks_floor _ _ _ Hheader) as [Hnd _].
    destruct (Hchunks 0) as [Hlen _]; [lia|].
    destruct (build_idToIndex_run lines (numAtoms + 9) numAtoms (atoms 0).*1)
      as (M & HM & Hdom & Hval).
    { apply chunk_atoms_ids, Hchunks. lia. }
    destruct Hheader as (_ & _ & _ & _ & Hn0 & _).
    exists M. split; [done|].
    destruct (idToIndex_size M (atoms 0).*1 Hdom) as [Hle Heq].
    { intros id [r Hr]. destruct (Hval _ _ Hr) as [_ Hin].
      rewrite <- (merge_sort_Permutation Z.le). by eapply list_elem_of_lookup_2. }
    rewrite length_fmap, Hlen in Hle, Heq. rewrite <- Heq. lia.
Qed.

(** C8.  A file of fewer than four lines, or of fewer than
    [dumpLength + 2] lines, is skipped: the iteration raises nothing and
    appends neither a matrix nor metadata, and the loop goes on with the
    remaining files. *)
Theorem short_file_is_skipped (disk : gmap string (list string))
    (dumpFile : string) lines (w : reader F) (rest : list string) :
  disk !! dumpFile = Some lines →
  ((length lines < 4)%nat ∨
   ∃ l3 numAtoms, lines !! 3%nat = Some l3 ∧
     int_of_str (drop_last l3) = Some numAtoms ∧
     Z.of_nat (length lines) < numAtoms + 9 + 2) →
  ∃ w', read_dump uninit disk dumpFile w = Ok w' ∧
    polymerList w' = polymerList w ∧ polymerMeta w' = polymerMeta w ∧
    for_each (read_dump uninit disk) (dumpFile :: rest) w
    = for_each (read_dump uninit disk) rest w'.
Proof.
  intros Hfile Hshort.
  assert (Hskip : decode uninit lines = Ok None).
  { destruct Hshort as [Hlen|(l3 & numAtoms & Hl3 & Hn & Hlen)].
    - by apply decode_too_short.
    - apply (decode_single_chunk uninit lines l3 numAtoms); [|done..].
      apply lookup_lt_Some in Hl3. lia. }
  eexists. split; [|split; [|split]].
  - unfold read_dump. rewrite Hfile. simpl. rewrite Hskip. done.
  - done.
  - done.
  - cbn [for_each]. unfold read_dump at 1. rewrite Hfile. simpl.
    by rewrite Hskip.
Qed.

End Files.

(** ** Runs on the sample files *)

(** Closes a closed decidable goal by evaluation. *)
Ltac decided :=
  match goal with
  | |- ?P => apply (bool_decide_unpack P); vm_compute; exact I
  end.

(** Evaluates a closed list in the goal. *)
Ltac evaluate l := let v := eval vm_compute in l in change l with v.

Ltac chunk_of_sample :=
  split; [reflexivity|];
  apply Forall2_parsed_atoms;
  match goal with |- Forall _ ?l => evaluate l end;
  repeat (constructor; [eexists; vm_compute; reflexivity|]); constructor.

Lemma matrix_shape :
  shape Sample.matrix (numAtoms Sample.matrix_meta)
    (int_of_Q (numDumps Sample.matrix_meta)).
Proof. split_and!; [reflexivity|by vm_compute|by repeat constructor]. Qed.

(** [Sample.matrix] is what the decoder assembles from [Sample.truncated],
    and from [Sample.reordered]. *)
Lemma truncated_decodes :
  decode (PyFloat0 := float64) Sample.zeros Sample.truncated
  = Ok (Some (Sample.matrix, Sample.matrix_meta,
              [(2, 0); (0, 0); (1, 0); (1, 1); (2, 1); (0, 1)])) ∧
  decode (PyFloat0 := float64) Sample.zeros Sample.reordered
  = Ok (Some (Sample.matrix, Sample.matrix_meta,
              [(0, 0); (1, 0); (2, 0); (0, 1); (1, 1); (2, 1)])).
Proof. split; by vm_compute. Qed.

(** The whole program on the three sample files with threshold 4: the
    short file is skipped, and in both runs atom 0 crosses at timestep 1, so
    the times are [-1 * TIMESTEP * dumpStep] and [0]. *)
Lemma trajep_on_samples :
  ∃ w, trajep (PyFloat0 := float64) Sample.zeros 4%float Sample.disk
         ["short.lammpstrj"; "run.lammpstrj"; "again.lammpstrj"]%string = Ok w
       ∧ polymers w
         = [normalised (PyFloat0 := float64) Sample.matrix;
            normalised (PyFloat0 := float64) Sample.matrix]
       ∧ firstMonomerIndex w = [0; 0] ∧ firstMonomerTime w = [1; 1]
       ∧ ∃ before crossing,
           time_of (PyFloat0 := float64) Sample.matrix_meta 1 0 = Some before ∧
           time_of (PyFloat0 := float64) Sample.matrix_meta 1 1 = Some crossing ∧
           timeAxis w = [[[before; crossing]]; [[before; crossing]]].
Proof.
  eexists. split_and!; [by vm_compute..|].
  eexists _, _. split_and!; by vm_compute.
Qed.

Lemma truncated_header : readable_header Sample.truncated 3 1000.
Proof. eexists _, _. split_and!; (reflexivity || lia). Qed.

Lemma truncated_chunks i :
  0 ≤ i < num_chunks Sample.truncated 3 →
  chunk_atoms (PyFloat0 := float64) Sample.truncated (3 + 9) 3 i
    (Sample.truncated_atoms i).
Proof.
  change (num_chunks Sample.truncated 3) with 2. intros Hi.
  assert (i = 0 ∨ i = 1) as [-> | ->] by lia; chunk_of_sample.
Qed.

Lemma truncated_ids i :
  0 ≤ i < num_chunks Sample.truncated 3 →
  (Sample.truncated_atoms i).*1 ≡ₚ (Sample.truncated_atoms 0).*1.
Proof.
  change (num_chunks Sample.truncated 3) with 2. intros Hi.
  assert (i = 0 ∨ i = 1) as [-> | ->] by lia; decided.
Qed.

Lemma truncated_known i atom :
  0 ≤ i < num_chunks Sample.truncated 3 →
  atom ∈ Sample.truncated_atoms i → atom.1 ∈ (Sample.truncated_atoms 0).*1.
Proof.
  intros Hi Hatom. rewrite <- (truncated_ids i Hi).
  by apply list_elem_of_fmap_2.
Qed.

Lemma scan_returns_first_crossing_witness :
  ∃ s, scan (PyFloat0 := float64) 4%float Sample.matrix_meta Sample.matrix = Ok s
       ∧ firstMonomerCoords s = [0; 1].
Proof.
  destruct (scan_returns_first_crossing (PyFloat0 := float64) 4%float
              Sample.matrix_meta Sample.matrix)
    as (s & c0 & Hs & _); [apply matrix_shape| |].
  - exists (0, 1). by vm_compute.
  - exists s. split; [done|]. vm_compute in Hs. by injection Hs as <-.
Defined.

Lemma scan_normalises_every_cell_once_witness :
  ∃ s, scan (PyFloat0 := float64) 4%float Sample.matrix_meta Sample.matrix = Ok s
       ∧ polymerData s = normalised (PyFloat0 := float64) Sample.matrix.
Proof.
  destruct (scan_normalises_every_cell_once (PyFloat0 := float64) 4%float
              Sample.matrix_meta Sample.matrix)
    as (s & Hs & _ & Hdata & _); [apply matrix_shape|].
  exists s. split; [exact Hs|exact Hdata].
Defined.

Lemma derive_series_witness :
  ∃ w', derive (PyFloat0 := float64) Sample.zeros 4%float [Sample.matrix_meta] 0
          (Analysis [Sample.matrix] [] [] [] []) = Ok w'
        ∧ firstMonomerIndex w' = [0] ∧ firstMonomerTime w' = [1].
Proof.
  destruct (derive_series (PyFloat0 := float64) Sample.zeros 4%float
              [Sample.matrix_meta] 0 (Analysis [Sample.matrix] [] [] [] [])
              Sample.matrix Sample.matrix_meta (0, 1))
    as (w' & h & tl & fr & tm & Hw & _ & _ & Hindex & Htime & _);
    [done|reflexivity|reflexivity|reflexivity|reflexivity
    |apply matrix_shape|by vm_compute|by vm_compute|].
  exists w'. split; [exact Hw|]. split; [exact Hindex|exact Htime].
Defined.

Lemma no_crossing_is_absent_witness :
  derive (PyFloat0 := float64) Sample.zeros 50%float [Sample.matrix_meta] 0
    (Analysis [Sample.matrix] [] [] [] []) = Raise IndexError.
Proof.
  refine (proj1 (proj2 (proj2
    (no_crossing_is_absent (PyFloat0 := float64) Sample.zeros 50%float
       [Sample.matrix_meta] 0 (Analysis [Sample.matrix] [] [] [] [])
       Sample.matrix Sample.matrix_meta _ _ _ _ _ _ _))));
    [done|reflexivity|reflexivity|reflexivity|reflexivity|apply matrix_shape|].
  change (numAtoms Sample.matrix_meta) with 3.
  change (int_of_Q (numDumps Sample.matrix_meta)) with 2.
  intros [j t] Hj Ht. simpl in Hj, Ht.
  assert (j = 0 ∨ j = 1 ∨ j = 2) as [-> | [-> | ->]] by lia;
    (assert (t = 0 ∨ t = 1) as [-> | ->] by lia); by vm_compute.
Defined.

(** The claim C5 as it stands fails on a file whose second chunk has the
    timestep [10^400]: the file is decoded and atom 0 crosses at timestep 1,
    but line 154 cannot convert [dumpStep] to a float, and the program ends
    with [OverflowError] instead of the four series. *)
Lemma huge_dump_step_overflows :
  decode (PyFloat0 := float64) Sample.zeros Broken.huge_step
  = Ok (Some (Sample.matrix, Broken.huge_step_meta,
              [(2, 0); (0, 0); (1, 0); (1, 1); (2, 1); (0, 1)])) ∧
  first_crossing (PyFloat0 := float64) 4%float Sample.matrix 3 2 = Some (0, 1) ∧
  derive (PyFloat0 := float64) Sample.zeros 4%float [Broken.huge_step_meta] 0
    (Analysis [Sample.matrix] [] [] [] []) = Raise OverflowError ∧
  trajep (PyFloat0 := float64) Sample.zeros 4%float Broken.disk
    ["huge.lammpstrj"%string] = Raise OverflowError.
Proof. split_and!; by vm_compute. Qed.

(** The claim C7 as it stands fails with the threshold 5 on a file none of
    whose coordinates reaches it, read after a file that has a crossing:
    what the program makes of the missing crossing is not a value, absent
    or other, but the [IndexError] of line 145, which ends the run, so
    that the first file has no series either. *)
Lemma no_crossing_ends_the_run :
  decode (PyFloat0 := float64) Sample.zeros Broken.low
  = Ok (Some (Broken.low_matrix, meta_of Broken.low 2 500,
              [(0, 0); (1, 0); (1, 1); (0, 1)])) ∧
  first_crossing (PyFloat0 := float64) 5%float Broken.low_matrix 2 2 = None ∧
  derive (PyFloat0 := float64) Sample.zeros 5%float [meta_of Broken.low 2 500] 0
    (Analysis [Broken.low_matrix] [] [] [] []) = Raise IndexError ∧
  first_crossing (PyFloat0 := float64) 5%float Sample.matrix 3 2 = Some (0, 1) ∧
  trajep (PyFloat0 := float64) Sample.zeros 5%float Broken.disk
    ["run.lammpstrj"; "low.lammpstrj"]%string = Raise IndexError.
Proof. split_and!; by vm_compute. Qed.

Lemma idToIndex_bijection_witness :
  ∃ idToIndex : gmap Z Z,
    build_idToIndex Sample.truncated 3 = Ok idToIndex ∧
    ∀ id, id ∈ [30; 10; 20] ↔ is_Some (idToIndex !! id).
Proof.
  destruct (idToIndex_bijection Sample.truncated 12 3 [30; 10; 20])
    as (M & HM & Hdom & _).
  - split; [reflexivity|].
    match goal with |- Forall2 _ ?l _ => evaluate l end.
    repeat (constructor; [vm_compute; reflexivity|]). constructor.
  - decided.
  - exists M. split; [exact HM|exact Hdom].
Defined.

Lemma assembly_writes_every_cell_once_witness :
  ∃ a written written',
    decode (PyFloat0 := float64) Sample.zeros Sample.truncated
    = Ok (Some (a, meta_of Sample.truncated 3 1000, written)) ∧
    decode (PyFloat0 := float64) Sample.zeros Sample.reordered
    = Ok (Some (a, meta_of Sample.truncated 3 1000, written')) ∧
    NoDup written.
Proof.
  destruct (assembly_writes_every_cell_once (PyFloat0 := float64) Sample.zeros
              Sample.truncated 3 1000 Sample.truncated_atoms)
    as (M & a & written & _ & Hrun & _ & Hnd & _ & _ & Hany).
  - apply truncated_header.
  - decided.
  - intros i Hi. split; [by apply truncated_chunks|by apply truncated_ids].
  - destruct (Hany Sample.zeros Sample.reordered) as [written' Hrun'];
      [reflexivity|reflexivity|reflexivity|
      |exists a, written, written'; split; [exact Hrun|split; [exact Hrun'|exact Hnd]]].
    change (num_chunks Sample.truncated 3) with 2. intros i Hi.
    assert (i = 0 ∨ i = 1) as [-> | ->] by lia; decided.
Defined.

Lemma decoder_header_and_truncation_witness :
  num_chunks Sample.truncated 3 = 2 ∧
  ∃ a written,
    decode (PyFloat0 := float64) Sample.zeros Sample.truncated
    = Ok (Some (a, meta_of Sample.truncated 3 1000, written)) ∧
    shape a 3 2.
Proof.
  destruct (decoder_header_and_truncation (PyFloat0 := float64) Sample.zeros
              Sample.truncated 3 1000 truncated_header)
    as (_ & _ & _ & _ & Hrun).
  split; [reflexivity|].
  destruct (Hrun Sample.truncated_atoms) as (M & a & written & _ & Ha & Hshape & _);
    [|exists a, written; split; [exact Ha|exact Hshape]].
  intros i Hi. split; [by apply truncated_chunks|].
  intros atom. by apply truncated_known.
Defined.

(** The claim C6 as it stands fails on a file of four lines: line 3 gives
    one atom, so [dumpLength + 1] is 11, and there is no such line to read
    [dumpStep] from; the file is skipped. *)
Lemma four_lines_have_no_dump_step :
  (4 ≤ length Sample.four_lines)%nat ∧
  (Sample.four_lines !! 3%nat ≫= λ l3, int_of_str (drop_last l3)) = Some 1 ∧
  Sample.four_lines !! Z.to_nat (1 + 9 + 1) = None ∧
  (∀ numAtoms dumpStep, ¬ readable_header Sample.four_lines numAtoms dumpStep) ∧
  decode (PyFloat0 := float64) Sample.zeros Sample.four_lines = Ok None.
Proof.
  split_and!; [by vm_compute|reflexivity|reflexivity| |reflexivity].
  intros numAtoms dumpStep (l3 & ld & Hl3 & Hn & Hn0 & Hld & _).
  injection Hl3 as <-. vm_compute in Hn. injection Hn as <-. done.
Qed.

Lemma assembly_total_iff_identifiers_known_witness :
  ∃ a written,
    decode (PyFloat0 := float64) Sample.zeros Sample.truncated
    = Ok (Some (a, meta_of Sample.truncated 3 1000, written)).
Proof.
  destruct (assembly_total_iff_identifiers_known (PyFloat0 := float64)
              Sample.zeros Sample.truncated 3 1000 Sample.truncated_atoms
              truncated_header truncated_chunks) as [Hknown _].
  apply Hknown. intros i atom. apply truncated_known.
Defined.

(** The claim C10 as it stands fails on a file whose first chunk names the
    identifier 7 twice: the mapping has one entry only, and yet no lookup
    fails; the file is decoded, row 0 of the matrix being left as
    allocated. *)
Lemma duplicate_identifiers_are_decoded :
  chunk_ids Sample.duplicates 11 2 0 [7; 7] ∧ ¬ NoDup [7; 7] ∧
  build_idToIndex Sample.duplicates 2 = Ok {[ 7 := 1 ]} ∧
  decode (PyFloat0 := float64) Sample.zeros Sample.duplicates
  = Ok (Some ([[0; 0]; [2.5; 4.5]]%float, meta_of Sample.duplicates 2 500,
              [(1, 0); (1, 0); (1, 1); (1, 1)])).
Proof.
  split_and!.
  - split; [reflexivity|].
    match goal with |- Forall2 _ ?l _ => evaluate l end.
    repeat (constructor; [vm_compute; reflexivity|]). constructor.
  - intros Hnd. apply NoDup_cons in Hnd as [Hin _]. set_solver.
  - by vm_compute.
  - by vm_compute.
Qed.

Lemma short_file_is_skipped_witness :
  ∃ w', read_dump (PyFloat0 := float64) Sample.zeros Sample.disk
          "short.lammpstrj" (Reader [] [] []) = Ok w'
        ∧ polymerList w' = [] ∧ polymerMeta w' = [] ∧
        for_each (read_dump (PyFloat0 := float64) Sample.zeros Sample.disk)
          ["short.lammpstrj"; "run.lammpstrj"]%string (Reader [] [] [])
        = for_each (read_dump (PyFloat0 := float64) Sample.zeros Sample.disk)
            ["run.lammpstrj"%string] w'.
Proof.
  apply (short_file_is_skipped (PyFloat0 := float64) Sample.zeros Sample.disk
           "short.lammpstrj" Sample.four_lines (Reader [] [] [])
           ["run.lammpstrj"%string]).
  - reflexivity.
  - right. eexists _, 1. split_and!; [reflexivity|reflexivity|by vm_compute].
Defined.

(** ** File handles *)

(** The [continue] of lines 78 and 83 skips the [file.close()] of line 117:
    the file stays among those that were not closed. *)
Lemma skip_leaves_file_open {F : Type} `{!PyFloat F} (uninit : nat → nat → F)
    (disk : gmap string (list string)) dumpFile lines (w : reader F) :
  disk !! dumpFile = Some lines → decode uninit lines = Ok None →
  read_dump uninit disk dumpFile w
  = Ok (Reader (polymerList w) (polymerMeta w) (dumpFile :: open_files w)).
Proof. intros Hfile Hskip. unfold read_dump. by rewrite Hfile; simpl; rewrite Hskip. Qed.

(** A file that is decoded is closed by line 117. *)
Lemma decoded_file_is_closed {F : Type} `{!PyFloat F} (uninit : nat → nat → F)
    (disk : gmap string (list string)) dumpFile lines (w : reader F) a m written :
  disk !! dumpFile = Some lines →
  decode uninit lines = Ok (Some (a, m, written)) →
  read_dump uninit disk dumpFile w
  = Ok (Reader (polymerList w ++ [a]) (polymerMeta w ++ [m]) (open_files w)).
Proof.
  intros Hfile Hrun. unfold read_dump. rewrite Hfile; simpl; rewrite Hrun.
  simpl. by rewrite String.eqb_refl.
Qed.

(** C9 fails on the code.  After the loop has read a file of four lines and
    then a file that it decodes, [close] has been called on the second file
    only: the first one was never closed. *)
Theorem skipped_file_is_never_closed :
  ∃ w, read_dumps (PyFloat0 := float64) Sample.zeros Sample.disk
         ["short.lammpstrj"; "run.lammpstrj"]%string = Ok w
       ∧ length (polymerList w) = 1%nat
       ∧ open_files w = ["short.lammpstrj"%string].
Proof. eexists. split_and!; reflexivity. Qed.

(** * Further properties *)

(** ** What every decoded file satisfies *)

Lemma for_each_invariant {A St} (P : St → Prop) (body : A → St → outcome St)
    (xs : list A) :
  (∀ x s s', P s → body x s = Ok s' → P s') →
  ∀ s s', P s → for_each body xs s = Ok s' → P s'.
Proof.
  intros Hbody. induction xs as [|x xs IH]; intros s s' Hs; simpl.
  - by intros [= <-].
  - intros (s1 & Hx & Hrest)%bind_Ok. eauto.
Qed.

(** A run of a loop up to the element at which the body raises. *)
Lemma for_each_raise {A St} (body : A → St → outcome St) pre x post s s1 e :
  for_each body pre s = Ok s1 → body x s1 = Raise e →
  for_each body (pre ++ x :: post) s = Raise e.
Proof. intros Hpre Hx. rewrite for_each_app, Hpre. simpl. by rewrite Hx. Qed.

Section Decoded.

Context {F : Type} `{!PyFloat F}.
Variable uninit : nat → nat → F.
Implicit Types (lines : list string) (a : list (list F)) (m : meta).

Lemma getitem_Ok_lookup {A} (l : list A) (k : Z) (x : A) :
  getitem l k = Ok x →
  ∃ i, norm_index (length l) k = Some i ∧ l !! i = Some x.
Proof.
  unfold getitem. destruct (norm_index (length l) k) as [i|]; [|done].
  destruct (l !! i) eqn:Hi; simpl; [|done]. intros [= <-]. eauto.
Qed.

(** An assignment that succeeds keeps the shape, wherever it lands. *)
Lemma np_set_shape a n d r c v a' :
  shape a n d → np_set a r c v = Ok a' → shape a' n d.
Proof.
  intros (Hn & Hd & Hrows). unfold np_set.
  intros (row & (i & Hi & Hrow)%getitem_Ok_lookup & Hset)%bind_Ok.
  apply bind_Ok in Hset as (row' & Hrow' & Ha').
  unfold setitem in Hrow', Ha'. rewrite Hi in Ha'.
  destruct (norm_index (length row) c) as [j|]; [|done].
  injection Hrow' as <-. injection Ha' as <-.
  split; [by rewrite length_insert|]. split; [done|].
  apply Forall_insert; [done|]. rewrite length_insert.
  rewrite Forall_lookup in Hrows. eauto.
Qed.

Lemma assemble_shape lines (idToIndex : gmap Z Z) numAtoms dumpLength nd a0 n d r :
  shape a0 n d →
  assemble lines idToIndex numAtoms dumpLength nd a0 = Ok r → shape r.1 n d.
Proof.
  intros Ha0. unfold assemble.
  apply (for_each_invariant (λ st, shape st.1 n d)); [|done].
  intros i st st' Hst. unfold record_dump.
  apply (for_each_invariant (λ st, shape st.1 n d)); [|done].
  clear. intros j st st' Hst. unfold record_line.
  intros (l & _ & (e0 & _ & (id & _ & (e1 & _ & (x & _ & (r & _ &
    (a' & Hset & [= <-])%bind_Ok)%bind_Ok)%bind_Ok)%bind_Ok)%bind_Ok)%bind_Ok)%bind_Ok.
  simpl. by eapply np_set_shape.
Qed.

Lemma decode_Some_inv lines a m written :
  decode uninit lines = Ok (Some (a, m, written)) →
  readable_header lines (numAtoms m) (dumpStep m) ∧
  m = meta_of lines (numAtoms m) (dumpStep m) ∧
  int_of_Q (numDumps m) = num_chunks lines (numAtoms m) ∧
  1 ≤ num_chunks lines (numAtoms m) ∧
  shape a (numAtoms m) (int_of_Q (numDumps m)).
Proof.
  unfold decode. destruct (length lines <? 4)%nat eqn:Hlen; [done|].
  apply Nat.ltb_ge in Hlen.
  intros (l3 & Hl3 & (n & Hn & Hrest)%bind_Ok)%bind_Ok.
  apply bind_Ok in Hrest as (q & Hq & Hrest).
  destruct (Z.of_nat (length lines) <? n + 9 + 2) eqn:Hshort; [done|].
  apply bind_Ok in Hrest as (ld & Hld & (step & Hstep & Hrest)%bind_Ok).
  apply bind_Ok in Hrest as (a0 & Ha0 & (M & HM & (r & Hr & Hret)%bind_Ok)%bind_Ok).
  injection Hret as <- <- <-. simpl.
  unfold np_empty in Ha0.
  destruct (n <? 0) eqn:Hn0; [done|]. destruct (int_of_Q q <? 0) eqn:Hq0; [done|].
  simpl in Ha0. injection Ha0 as <-.
  rewrite truediv_pos in Hq by lia. injection Hq as <-.
  assert (Hnd : int_of_Q (Qmake (Z.of_nat (length lines)) (Z.to_pos (n + 9)))
                = num_chunks lines n).
  { apply (int_of_Q_truediv _ (n + 9)); [lia|]. apply truediv_pos. lia. }
  assert (Hheader : readable_header lines n step).
  { exists l3, ld. unfold to_int in Hn, Hstep.
    destruct (int_of_str (drop_last l3)) eqn:Hn'; [|done].
    destruct (int_of_str (drop_last ld)) eqn:Hstep'; [|done].
    injection Hn as ->. injection Hstep as ->.
    rewrite getitem_nonneg in Hl3, Hld by lia.
    destruct (lines !! Z.to_nat 3) eqn:H3; [|done].
    destruct (lines !! Z.to_nat (n + 9 + 1)) eqn:Hd; [|done].
    injection Hl3 as ->. injection Hld as ->. split_and!; (done || lia). }
  split; [done|]. split; [done|]. split; [done|].
  split; [by eapply num_chunks_floor|].
  rewrite Hnd in *. eapply assemble_shape; [|done].
  apply shape_np_empty; lia.
Qed.

(** X1.  Whatever the lines, a file that is decoded had a readable header
    with a count of atoms that is not negative, holds at least one whole
    chunk, and gives a matrix of [numAtoms] rows and [int(numDumps)]
    columns together with the metadata read from that header. *)
Theorem decoded_file_is_well_shaped lines a m written :
  decode uninit lines = Ok (Some (a, m, written)) →
  readable_header lines (numAtoms m) (dumpStep m) ∧
  m = meta_of lines (numAtoms m) (dumpStep m) ∧
  int_of_Q (numDumps m) = num_chunks lines (numAtoms m) ∧
  1 ≤ num_chunks lines (numAtoms m) ∧
  shape a (numAtoms m) (int_of_Q (numDumps m)).
Proof. apply decode_Some_inv. Qed.

End Decoded.

(** ** The loop over the files *)

Section Reader.

Context {F : Type} `{!PyFloat F}.
Variable uninit : nat → nat → F.
Implicit Types (disk : gmap string (list string)) (w : reader F).

(** What one iteration does, by the outcome of the decoding. *)
Lemma read_dump_Ok disk dumpFile w w' :
  read_dump uninit disk dumpFile w = Ok w' →
  (skipped uninit disk dumpFile = true ∧
   w' = Reader (polymerList w) (polymerMeta w) (dumpFile :: open_files w)) ∨
  (skipped uninit disk dumpFile = false ∧
   ∃ lines a m written,
     disk !! dumpFile = Some lines ∧
     decode uninit lines = Ok (Some (a, m, written)) ∧
     w' = Reader (polymerList w ++ [a]) (polymerMeta w ++ [m]) (open_files w)).
Proof.
  unfold read_dump, skipped.
  destruct (disk !! dumpFile) as [lines|]; simpl; [|done].
  destruct (decode uninit lines) as [[[[a m] written]|]|] eqn:Hdec; simpl;
    [| |done].
  - rewrite String.eqb_refl. intros [= <-]. right. split; [done|].
    by exists lines, a, m, written.
  - intros [= <-]. by left.
Qed.

Lemma read_dumps_shapes disk fileList w :
  read_dumps uninit disk fileList = Ok w →
  well_shaped (polymerList w) (polymerMeta w).
Proof.
  unfold read_dumps.
  apply (for_each_invariant
           (λ w, well_shaped (polymerList w) (polymerMeta w)));
    [|constructor].
  intros dumpFile w1 w2 Hw1 [[_ ->]|[_ Hdec]]%read_dump_Ok; [done|].
  destruct Hdec as (lines & a & m & written & _ & Hdec & ->). simpl.
  apply Forall2_app; [done|]. constructor; [|constructor].
  by destruct (decode_Some_inv uninit lines a m written Hdec)
    as (_ & _ & _ & _ & ?).
Qed.

(** X2.  When the loop over the files ends without an exception,
    [polymerList] and [polymerMeta] have one entry per decoded file, in the
    same order, and every matrix has the shape its metadata gives. *)
Theorem read_dumps_well_shaped disk fileList w :
  read_dumps uninit disk fileList = Ok w →
  well_shaped (polymerList w) (polymerMeta w) ∧
  length (polymerList w) = length (polymerMeta w).
Proof.
  intros Hshaped%read_dumps_shapes. split; [done|]. by eapply Forall2_length.
Qed.

Lemma read_dumps_from disk fileList : ∀ w0 w,
  for_each (read_dump uninit disk) fileList w0 = Ok w →
  open_files w
  = reverse (filter (λ f, skipped uninit disk f = true) fileList)
    ++ open_files w0 ∧
  length (polymerList w)
  = (length (polymerList w0)
     + length (filter (λ f, skipped uninit disk f = false) fileList))%nat.
Proof.
  induction fileList as [|f fileList IH]; intros w0 w; simpl.
  { intros [= <-]. split; [done|]. by rewrite Nat.add_0_r. }
  intros (w1 & Hf & Hrest)%bind_Ok.
  destruct (IH _ _ Hrest) as [Hopen Hlen]. rewrite Hopen, Hlen.
  apply read_dump_Ok in Hf as [[Hskip ->]|[Hskip Hdec]].
  - rewrite filter_cons_True, (filter_cons_False (λ f, _ = false))
      by (done || congruence).
    simpl. rewrite reverse_cons, <- app_assoc. done.
  - destruct Hdec as (lines & a & m & written & _ & _ & ->).
    rewrite filter_cons_False, (filter_cons_True (λ f, _ = false))
      by (done || congruence).
    simpl. rewrite length_app. simpl. split; [done|lia].
Qed.

(** X3.  When the loop over the files ends without an exception,
    [file.close()] has been called for the decoded files only: the files
    that were opened and for which it was never called are exactly the
    skipped ones, the last skipped first, and there is one matrix per file
    that was not skipped. *)
Theorem read_dumps_closes_decoded_only disk fileList w :
  read_dumps uninit disk fileList = Ok w →
  open_files w = reverse (filter (λ f, skipped uninit disk f = true) fileList) ∧
  length (polymerList w)
  = length (filter (λ f, skipped uninit disk f = false) fileList).
Proof.
  intros [Hopen Hlen]%read_dumps_from. simpl in *.
  by rewrite app_nil_r in Hopen.
Qed.

(** X4.  The first file that is missing or whose decoding raises ends the
    loop with that exception: the files after it are not read, and the
    matrices of the files before it are lost with the program. *)
Theorem read_dumps_stops_at_first_error disk before dumpFile after w e :
  for_each (read_dump uninit disk) before (Reader [] [] []) = Ok w →
  (disk !! dumpFile = None ∧ e = FileNotFoundError ∨
   ∃ lines, disk !! dumpFile = Some lines ∧ decode uninit lines = Raise e) →
  read_dumps uninit disk (before ++ dumpFile :: after) = Raise e.
Proof.
  intros Hbefore Hbad. unfold read_dumps.
  apply (for_each_raise _ _ _ _ _ w); [done|]. unfold read_dump.
  destruct Hbad as [[-> ->]|(lines & -> & Hdec)]; [done|].
  simpl. by rewrite Hdec.
Qed.

End Reader.

(** ** Files that cannot be decoded *)

Section Malformed.

Context {F : Type} `{!PyFloat F}.
Variable uninit : nat → nat → F.
Implicit Types (lines : list string) (atoms : Z → list (Z * F)).

(** X5.  The header of a file of at least four lines: a count of atoms that
    is not an integer raises [ValueError]; the count [-9] makes
    [dumpLength] zero and raises [ZeroDivisionError]; with a count that is
    not negative and enough lines, a line [dumpLength + 1] that is not an
    integer raises [ValueError]; and with a negative count no matrix is
    ever produced. *)
Theorem header_errors lines l3 :
  lines !! 3%nat = Some l3 →
  (int_of_str (drop_last l3) = None → decode uninit lines = Raise ValueError) ∧
  (int_of_str (drop_last l3) = Some (-9) →
   decode uninit lines = Raise ZeroDivisionError) ∧
  (∀ numAtoms ld,
     int_of_str (drop_last l3) = Some numAtoms → 0 ≤ numAtoms →
     lines !! Z.to_nat (numAtoms + 9 + 1) = Some ld →
     int_of_str (drop_last ld) = None →
     decode uninit lines = Raise ValueError) ∧
  (∀ numAtoms r,
     int_of_str (drop_last l3) = Some numAtoms → numAtoms < 0 →
     decode uninit lines ≠ Ok (Some r)).
Proof.
  intros Hl3. pose proof (lookup_lt_Some _ _ _ Hl3) as Hlen.
  assert (Hstart :
    decode uninit lines
    = (numAtoms ← to_int (drop_last l3);
       let dumpLength := numAtoms + 9 in
       numDumps ← truediv (Z.of_nat (length lines)) dumpLength;
       if Z.of_nat (length lines) <? dumpLength + 2 then mret None else
       ld ← getitem lines (dumpLength + 1);
       dumpStep ← to_int (drop_last ld);
       newPolymerData ← np_empty uninit numAtoms (int_of_Q numDumps);
       idToIndex ← build_idToIndex lines numAtoms;
       r ← assemble lines idToIndex numAtoms dumpLength (int_of_Q numDumps)
             newPolymerData;
       mret (Some (r.1, Meta numAtoms numDumps dumpStep, r.2)))).
  { unfold decode.
    destruct (length lines <? 4)%nat eqn:Hlt; [apply Nat.ltb_lt in Hlt; lia|].
    by rewrite (getitem_lookup _ _ l3). }
  split_and!.
  - intros Hn. rewrite Hstart. unfold to_int. by rewrite Hn.
  - intros Hn. rewrite Hstart. unfold to_int. by rewrite Hn.
  - intros numAtoms ld Hn Hn0 Hld Hstep. rewrite Hstart. unfold to_int.
    rewrite Hn. simpl. rewrite truediv_pos by lia. simpl.
    pose proof (lookup_lt_Some _ _ _ Hld).
    destruct (Z.of_nat (length lines) <? numAtoms + 9 + 2) eqn:?; [lia|].
    rewrite (getitem_lookup _ _ ld) by (done || lia). simpl. by rewrite Hstep.
  - intros numAtoms [[a m] written] Hn Hn0 Hdec.
    destruct (decode_Some_inv uninit lines a m written Hdec)
      as ((l3' & ld & Hl3' & Hn' & Hpos & _) & _).
    rewrite Hl3 in Hl3'. injection Hl3' as <-. rewrite Hn in Hn'.
    injection Hn' as ->. lia.
Qed.

Lemma collect_ids_Forall (ls : list string) : ∀ acc : list Z,
  Forall (λ line, ∃ id, parse_id line = Ok id) ls →
  ∃ ids,
    for_each
      (λ line (atomList : list Z),
         e0 ← getitem (split line) 0;
         atomId ← to_int e0;
         mret (atomList ++ [atomId])) ls acc
    = Ok ids.
Proof.
  induction ls as [|line ls IH]; intros acc Hls; [by exists acc|].
  apply Forall_cons in Hls as [[id Hid] Hls]. cbn [for_each].
  unfold parse_id in Hid.
  destruct (getitem (split line) 0) as [e0|]; simpl in *; [|done].
  rewrite Hid. simpl. apply IH. done.
Qed.

Lemma header_lines lines numAtoms dumpStep :
  readable_header lines numAtoms dumpStep →
  0 ≤ numAtoms ∧ numAtoms + 9 + 2 ≤ Z.of_nat (length lines).
Proof.
  intros (l3 & ld & _ & _ & Hn & Hld & _). apply lookup_lt_Some in Hld. lia.
Qed.

(** X6.  With a readable header, the first atom line of the first chunk
    whose identifier cannot be read ends the decoding with the exception
    that reading it raises: [IndexError] for a blank line, [ValueError] for
    a field that is not an integer. *)
Theorem first_chunk_identifier_error lines numAtoms dumpStep pre bad post e :
  readable_header lines numAtoms dumpStep →
  atom_lines lines (numAtoms + 9) numAtoms 0 = pre ++ bad :: post →
  Forall (λ line, ∃ id, parse_id line = Ok id) pre →
  parse_id bad = Raise e →
  decode uninit lines = Raise e.
Proof.
  intros Hheader Hlines Hpre Hbad.
  destruct (header_lines _ _ _ Hheader) as [Hn Hlen].
  destruct Hheader as (l3 & ld & Hl3 & Hcount & _ & Hld & Hstep).
  rewrite (decode_header uninit lines l3 numAtoms ld dumpStep) by done.
  unfold build_idToIndex.
  replace numAtoms with (0 + Z.of_nat (Z.to_nat numAtoms)) at 1 by lia.
  erewrite (for_each_getitem lines _ (collect_id lines) 9 0); [|done|lia..].
  unfold atom_lines in Hlines. rewrite Z.mul_0_l in Hlines.
  simpl in Hlines |- *. rewrite Hlines.
  destruct (collect_ids_Forall pre [] Hpre) as [ids Hids].
  rewrite (for_each_raise _ pre bad post [] ids e); [done|done|].
  unfold parse_id in Hbad.
  destruct (getitem (split bad) 0) as [e0|]; simpl in *; [|congruence].
  by rewrite Hbad.
Qed.

(** A blank line has no field to read an identifier from. *)
Lemma blank_line_IndexError : parse_id "" = Raise IndexError.
Proof. reflexivity. Qed.

End Malformed.

Section Gaps.

Context {F : Type} `{!PyFloat F}.
Variable uninit : nat → nat → F.
Implicit Types (lines : list string) (atoms : Z → list (Z * F))
  (st : list (list F) * list (Z * Z)).

Lemma parse_atom_raise (idToIndex : gmap Z Z) i (line : string) e st :
  parse_atom (F := F) line = Raise e →
  (parse_atom line ≫= λ atom, store_atom idToIndex i atom st) = Raise e.
Proof. by intros ->. Qed.

(** X7.  With a readable header and identifiers in the first chunk that can
    all be read, the first atom line of a processed chunk that is not well
    formed (no second field, a field that is not a number) ends the
    decoding with the exception that parsing it raises, provided the lines
    before it are well formed and carry identifiers of the first chunk. *)
Theorem atom_line_error lines numAtoms dumpStep (ids : list Z) atoms i
    pre bad post (atoms_pre : list (Z * F)) e :
  readable_header lines numAtoms dumpStep →
  chunk_ids lines (numAtoms + 9) numAtoms 0 ids →
  0 ≤ i < num_chunks lines numAtoms →
  (∀ k, 0 ≤ k < i →
     chunk_atoms lines (numAtoms + 9) numAtoms k (atoms k) ∧
     ∀ atom, atom ∈ atoms k → atom.1 ∈ ids) →
  atom_lines lines (numAtoms + 9) numAtoms i = pre ++ bad :: post →
  Forall2 (λ line atom, parse_atom line = Ok atom) pre atoms_pre →
  (∀ atom, atom ∈ atoms_pre → atom.1 ∈ ids) →
  parse_atom (F := F) bad = Raise e →
  decode uninit lines = Raise e.
Proof.
  intros Hheader Hids Hi Hbefore Hlines Hpre Hknown Hbad.
  destruct (header_lines _ _ _ Hheader) as [Hn Hlen].
  destruct (num_chunks_floor _ _ _ Hheader) as [Hnd [Hlo Hhi]].
  destruct (build_idToIndex_run lines (numAtoms + 9) numAtoms ids Hids)
    as (M & HM & Hdom & Hval).
  destruct Hheader as (l3 & ld & Hl3 & Hcount & _ & Hld & Hstep).
  rewrite (decode_header uninit lines l3 numAtoms ld dumpStep) by done.
  rewrite HM. simpl. unfold assemble. fold (num_chunks lines numAtoms).
  set (nd := num_chunks lines numAtoms) in *.
  set (a0 := (λ r, uninit r <$> seq 0 (Z.to_nat nd)) <$> seq 0 (Z.to_nat numAtoms)).
  assert (Hkeys : ∀ id, id ∈ ids → ∃ r, M !! id = Some r ∧ 0 ≤ r < numAtoms).
  { intros id [r Hr]%Hdom. exists r. split; [done|]. by apply (Hval id r). }
  destruct (record_dumps_run lines M numAtoms (numAtoms + 9) nd atoms
              (range 0 i) (a0, []))
    as (a1 & Hrun1 & Hshape1 & _); [lia|apply NoDup_range| |by apply shape_np_empty; lia|].
  { intros k Hk%elem_of_range. destruct (Hbefore k) as [Hchunk Hin]; [lia|].
    split; [lia|]. split; [done|]. intros atom Hatom. by apply Hkeys, Hin. }
  assert (Hsplit : range 0 nd = range 0 i ++ i :: range (i + 1) nd).
  { unfold range. replace (nd - 0) with ((i - 0) + (nd - i)) by lia.
    rewrite seqZ_app by lia. f_equal. rewrite Z.add_0_l, Z.sub_0_r.
    rewrite seqZ_cons by lia. do 2 f_equal; lia. }
  rewrite Hsplit.
  cut (for_each (record_dump lines M numAtoms (numAtoms + 9))
         (range 0 i ++ i :: range (i + 1) nd) (a0, []) = Raise e);
    [by intros ->|].
  eapply for_each_raise; [exact Hrun1|].
  unfold record_dump.
  assert (Hexist : i * (numAtoms + 9) + 9 + numAtoms ≤ Z.of_nat (length lines))
    by nia.
  replace (i * (numAtoms + 9) + 9 + numAtoms)
    with (i * (numAtoms + 9) + 9 + Z.of_nat (Z.to_nat numAtoms)) by lia.
  rewrite (for_each_getitem lines _ _ 0 _ _ (record_line_eq lines M i)) by nia.
  rewrite Z.add_0_r. unfold atom_lines in Hlines. rewrite Hlines.
  destruct (store_atoms_run M i numAtoms nd atoms_pre
              (a1, [] ++ (k ← range 0 i; cells_of M k (atoms k))))
    as (a2 & Hrun2 & _); [done|lia|by intros; apply Hkeys, Hknown|].
  eapply for_each_raise.
  - rewrite (parse_atoms_run M i pre atoms_pre) by done. exact Hrun2.
  - by apply parse_atom_raise.
Qed.

Lemma np_get_np_empty (n d r t : Z) :
  0 ≤ r < n → 0 ≤ t < d →
  np_get ((λ r, uninit r <$> seq 0 (Z.to_nat d)) <$> seq 0 (Z.to_nat n)) r t
  = Ok (uninit (Z.to_nat r) (Z.to_nat t)).
Proof.
  intros Hr Ht. rewrite np_get_nonneg by lia.
  rewrite list_lookup_fmap, lookup_seq_lt by lia. simpl.
  rewrite list_lookup_fmap, lookup_seq_lt by lia. done.
Qed.

(** The cells that a run over chunks does not list are as before. *)
Lemma record_dumps_untouched lines (idToIndex : gmap Z Z) n dumpLength d
    atoms (chunks : list Z) : ∀ st a' written,
  0 ≤ dumpLength →
  (∀ i, i ∈ chunks →
     0 ≤ i < d ∧ chunk_atoms lines dumpLength n i (atoms i) ∧
     ∀ atom, atom ∈ atoms i → ∃ r, idToIndex !! atom.1 = Some r ∧ 0 ≤ r < n) →
  shape st.1 n d →
  for_each (record_dump lines idToIndex n dumpLength) chunks st
  = Ok (a', written) →
  written = st.2 ++ (i ← chunks; cells_of idToIndex i (atoms i)) ∧
  ∀ r t, 0 ≤ r → 0 ≤ t →
    (r, t) ∉ (i ← chunks; cells_of idToIndex i (atoms i)) →
    np_get a' r t = np_get st.1 r t.
Proof.
  induction chunks as [|i chunks IH]; intros st a' written Hdl Hchunks Hshape.
  { simpl. intros [= ->]. simpl. by rewrite app_nil_r. }
  destruct (Hchunks i) as (Hi & Hchunk & Hkeys); [left|].
  destruct (store_atoms_run idToIndex i n d (atoms i) st)
    as (a1 & Hrun1 & Hshape1 & Hframe1 & _); [done..|].
  cbn [for_each]. rewrite (record_dump_eq _ _ _ _ _ (atoms i)) by (done || lia).
  rewrite Hrun1. simpl. intros Hrest.
  destruct (IH (a1, st.2 ++ cells_of idToIndex i (atoms i)) a' written)
    as [-> Hframe]; [done|intros; apply Hchunks; by right|done|done|].
  simpl. rewrite <- app_assoc. split; [done|].
  intros r t Hr Ht [Hhere Hlater]%not_elem_of_app.
  rewrite Hframe by done. simpl. by apply Hframe1.
Qed.

(** X8.  When the atom lines are well formed and carry identifiers of the
    first chunk, the cells that the assembly never assigns (as happens when
    a chunk repeats an identifier and so leaves another out) still hold
    what [np.empty] allocated. *)
Theorem unassigned_cells_keep_allocation lines numAtoms dumpStep atoms :
  readable_header lines numAtoms dumpStep →
  (∀ i, 0 ≤ i < num_chunks lines numAtoms →
     chunk_atoms lines (numAtoms + 9) numAtoms i (atoms i) ∧
     ∀ atom, atom ∈ atoms i → atom.1 ∈ (atoms 0).*1) →
  ∃ a written,
    decode uninit lines
    = Ok (Some (a, meta_of lines numAtoms dumpStep, written)) ∧
    ∀ r t, 0 ≤ r < numAtoms → 0 ≤ t < num_chunks lines numAtoms →
      (r, t) ∉ written →
      np_get a r t = Ok (uninit (Z.to_nat r) (Z.to_nat t)).
Proof.
  intros Hheader Hchunks.
  destruct (header_lines _ _ _ Hheader) as [Hn Hlen].
  destruct (num_chunks_floor _ _ _ Hheader) as [Hnd _].
  destruct (build_idToIndex_run lines (numAtoms + 9) numAtoms (atoms 0).*1)
    as (M & HM & Hdom & Hval).
  { apply chunk_atoms_ids, Hchunks. lia. }
  set (nd := num_chunks lines numAtoms) in *.
  set (a0 := (λ r, uninit r <$> seq 0 (Z.to_nat nd)) <$> seq 0 (Z.to_nat numAtoms)).
  assert (Hkeys : ∀ i, i ∈ range 0 nd →
            0 ≤ i < nd ∧
            chunk_atoms lines (numAtoms + 9) numAtoms i (atoms i) ∧
            ∀ atom, atom ∈ atoms i →
              ∃ r, M !! atom.1 = Some r ∧ 0 ≤ r < numAtoms).
  { intros i Hi%elem_of_range. destruct (Hchunks i) as [Hchunk Hids]; [lia|].
    split; [lia|]. split; [done|]. intros atom Hatom.
    destruct (Hdom atom.1) as [k Hk]; [by apply Hids|].
    exists k. split; [done|]. by apply (Hval atom.1 k). }
  assert (Hshape0 : shape (a0, @nil (Z * Z)).1 numAtoms nd).
  { apply shape_np_empty; lia. }
  destruct (record_dumps_run lines M numAtoms (numAtoms + 9) nd atoms
              (range 0 nd) (a0, []))
    as (a & Hrun & _); [lia|apply NoDup_range|done|done|].
  destruct (record_dumps_untouched lines M numAtoms (numAtoms + 9) nd atoms
              (range 0 nd) (a0, []) a _ ltac:(lia) Hkeys Hshape0 Hrun)
    as [_ Hframe].
  exists a. eexists. split.
  - destruct Hheader as (l3 & ld & Hl3 & Hcount & _ & Hld & Hstep).
    rewrite (decode_header uninit lines l3 numAtoms ld dumpStep) by done.
    rewrite HM. simpl. unfold assemble. fold (num_chunks lines numAtoms).
    fold nd a0. by rewrite Hrun.
  - intros r t Hr Ht Hnot. rewrite Hframe by (done || lia).
    by apply np_get_np_empty.
Qed.

End Gaps.

(** ** The loop over the matrices *)

Lemma outcomes_split {A} (os : list (outcome A)) :
  (∃ xs, os = Ok <$> xs) ∨ (∃ xs e rest, os = (Ok <$> xs) ++ Raise e :: rest).
Proof.
  induction os as [|[x|e] os IH].
  - left. by exists [].
  - destruct IH as [[xs ->]|(xs & e & rest & ->)].
    + left. by exists (x :: xs).
    + right. by exists (x :: xs), e, rest.
  - right. by exists [], e, os.
Qed.

Section Analysis.

Context {F : Type} `{!PyFloat F}.
Variable uninit : nat → nat → F.
Implicit Types (a : list (list F)) (m : meta) (w : analysis F)
  (polymerList : list (list (list F))) (polymerMeta : list meta).

(** One iteration on a matrix with a crossing whose times can be
    computed. *)
Lemma derive_Ok (x1 : F) polymerMeta i w a m c0 :
  0 ≤ i →
  polymers w !! Z.to_nat i = Some a → polymerMeta !! Z.to_nat i = Some m →
  length (firstMonomerIndex w) = Z.to_nat i →
  length (firstMonomerTime w) = Z.to_nat i →
  shape a (numAtoms m) (int_of_Q (numDumps m)) →
  first_crossing x1 a (numAtoms m) (int_of_Q (numDumps m)) = Some c0 →
  convertible m c0.2 = true →
  ∃ w', derive uninit x1 polymerMeta i w = Ok w' ∧
    polymers w' = <[Z.to_nat i := normalised a]> (polymers w) ∧
    firstMonomerIndex w' = firstMonomerIndex w ++ [c0.1] ∧
    firstMonomerTime w' = firstMonomerTime w ++ [c0.2] ∧
    length (distAxis w') = S (length (distAxis w)) ∧
    length (timeAxis w') = S (length (timeAxis w)).
Proof.
  intros Hi Ha Hm Hfmi Hfmt Hshape Hfc Hconv.
  rewrite (derive_run uninit x1 polymerMeta i w a m) by done. rewrite Hfc.
  set (d := int_of_Q (numDumps m)) in *.
  assert (Hd : 0 ≤ d) by apply Hshape.
  assert (Hc0 : 0 ≤ c0.1 < numAtoms m ∧ 0 ≤ c0.2 < d).
  { apply elem_of_scan_order. apply find_first in Hfc as (? & ? & Heq & _).
    unfold first_crossing in *. rewrite Heq, elem_of_app, elem_of_cons. auto. }
  set (e := uninit 0%nat <$> seq 0 (Z.to_nat d)).
  assert (He : Z.of_nat (length e) = d).
  { unfold e. rewrite length_fmap, length_seq. lia. }
  destruct (series_run m (normalised a) (firstMonomerIndex w ++ [c0.1])
              (firstMonomerTime w ++ [c0.2]) i c0.1 c0.2 d (range 0 d)
              ([e; e; e], [e]))
    as (st & Hrun & _).
  { by apply shape_normalised. }
  { apply (shape_rows [e; e; e]); [done|]. by repeat constructor. }
  { apply (shape_rows [e]); [done|]. by repeat constructor. }
  { by apply getitem_snoc. }
  { by apply getitem_snoc. }
  { apply Hc0. }
  { apply NoDup_range. }
  { intros t Ht%elem_of_range. lia. }
  { intros t Ht%elem_of_range. apply convertible_spec; [done|]. fold d. lia. }
  cbv zeta. fold e. rewrite Hrun. simpl. eexists. split; [done|]. simpl.
  rewrite !length_app. simpl. split_and!; (done || lia).
Qed.

(** One iteration, by the verdict of its file. *)
Lemma derive_verdict (x1 : F) polymerMeta i w a m :
  0 ≤ i →
  polymers w !! Z.to_nat i = Some a → polymerMeta !! Z.to_nat i = Some m →
  length (firstMonomerIndex w) = Z.to_nat i →
  length (firstMonomerTime w) = Z.to_nat i →
  shape a (numAtoms m) (int_of_Q (numDumps m)) →
  match verdict x1 a m with
  | Ok c0 =>
      ∃ w', derive uninit x1 polymerMeta i w = Ok w' ∧
        polymers w' = <[Z.to_nat i := normalised a]> (polymers w) ∧
        firstMonomerIndex w' = firstMonomerIndex w ++ [c0.1] ∧
        firstMonomerTime w' = firstMonomerTime w ++ [c0.2] ∧
        length (distAxis w') = S (length (distAxis w)) ∧
        length (timeAxis w') = S (length (timeAxis w))
  | Raise e => derive uninit x1 polymerMeta i w = Raise e
  end.
Proof.
  intros Hi Ha Hm Hfmi Hfmt Hshape. unfold verdict.
  destruct (first_crossing x1 a (numAtoms m) (int_of_Q (numDumps m)))
    as [c0|] eqn:Hfc.
  - destruct (convertible m c0.2) eqn:Hconv.
    + by apply (derive_Ok x1 polymerMeta i w a m c0).
    + by apply (derive_overflow uninit x1 polymerMeta i w a m c0).
  - rewrite (derive_run uninit x1 polymerMeta i w a m) by done. by rewrite Hfc.
Qed.

Lemma verdicts_cons (x1 : F) polymerList polymerMeta (k : nat) o os :
  verdicts x1 (drop k polymerList) (drop k polymerMeta) = o :: os →
  ∃ a m, polymerList !! k = Some a ∧ polymerMeta !! k = Some m ∧
    verdict x1 a m = o ∧
    verdicts x1 (drop (S k) polymerList) (drop (S k) polymerMeta) = os.
Proof.
  unfold verdicts.
  destruct (drop k polymerList) as [|a rest] eqn:Hpl; [done|].
  destruct (drop k polymerMeta) as [|m restm] eqn:Hpm; [done|].
  simpl. intros [= <- <-]. exists a, m.
  assert (polymerList !! k = Some a) as Ha.
  { by rewrite <- (Nat.add_0_r k), <- lookup_drop, Hpl. }
  assert (polymerMeta !! k = Some m) as Hm.
  { by rewrite <- (Nat.add_0_r k), <- lookup_drop, Hpm. }
  rewrite (drop_S _ _ _ Ha) in Hpl. rewrite (drop_S _ _ _ Hm) in Hpm.
  injection Hpl as ->. injection Hpm as ->. done.
Qed.

(** The loop of line 124 from file [k] on, the files before having been
    treated: it goes through the files whose verdict is a crossing and
    stops at the first one whose verdict is an exception, with that
    exception. *)
Lemma derive_loop (x1 : F) polymerList polymerMeta cs tail : ∀ (k : nat) w,
  length polymerList = length polymerMeta →
  well_shaped polymerList polymerMeta →
  polymers w = (normalised <$> take k polymerList) ++ drop k polymerList →
  length (firstMonomerIndex w) = k → length (firstMonomerTime w) = k →
  verdicts x1 (drop k polymerList) (drop k polymerMeta)
    = (Ok <$> cs) ++ tail →
  match tail with
  | [] =>
      ∃ w', for_each (derive uninit x1 polymerMeta)
              (range (Z.of_nat k) (Z.of_nat (length polymerList))) w = Ok w' ∧
        polymers w' = normalised <$> polymerList ∧
        firstMonomerIndex w' = firstMonomerIndex w ++ cs.*1 ∧
        firstMonomerTime w' = firstMonomerTime w ++ cs.*2 ∧
        length (distAxis w') = (length (distAxis w) + length cs)%nat ∧
        length (timeAxis w') = (length (timeAxis w) + length cs)%nat
  | Ok _ :: _ => True
  | Raise e :: _ =>
      for_each (derive uninit x1 polymerMeta)
        (range (Z.of_nat k) (Z.of_nat (length polymerList))) w
      = Raise e
  end.
Proof.
  induction cs as [|c cs IH]; intros k w Hlen Hshaped Hpoly Hfmi Hfmt Hcross.
  - destruct tail as [|[c|e] tail]; [|done|].
    + assert (Hk : (length polymerList ≤ k)%nat).
      { apply (f_equal length) in Hcross. unfold verdicts in Hcross.
        rewrite length_zip_with, !length_drop in Hcross. simpl in Hcross. lia. }
      rewrite range_nil by lia. exists w. simpl.
      rewrite !app_nil_r, !Nat.add_0_r. split_and!; try done.
      by rewrite Hpoly, take_ge, drop_ge, app_nil_r by done.
    + apply verdicts_cons in Hcross as (a & m & Ha & Hm & Hv & _).
      pose proof (lookup_lt_Some _ _ _ Ha) as Hk.
      unfold range. rewrite seqZ_cons by lia. cbn [for_each].
      pose proof (derive_verdict x1 polymerMeta (Z.of_nat k) w a m) as Hstep.
      rewrite Hv, Nat2Z.id in Hstep. rewrite Hstep; [done|lia| |done..|].
      * rewrite Hpoly, lookup_app_r, length_fmap, length_take_le by
          (rewrite ?length_fmap, ?length_take; lia).
        by rewrite Nat.sub_diag, lookup_drop, Nat.add_0_r.
      * unfold well_shaped in Hshaped.
        by eapply (Forall2_lookup_lr _ _ _ _ _ _ Hshaped Ha Hm).
  - simpl in Hcross. apply verdicts_cons in Hcross as (a & m & Ha & Hm & Hv & Hrest).
    pose proof (lookup_lt_Some _ _ _ Ha) as Hk.
    pose proof (derive_verdict x1 polymerMeta (Z.of_nat k) w a m) as Hstep.
    rewrite Hv, Nat2Z.id in Hstep.
    destruct Hstep as (w1 & Hrun1 & Hpoly1 & Hfmi1 & Hfmt1 & Hdist1 & Htime1);
      [lia| |done..| |].
    { rewrite Hpoly, lookup_app_r, length_fmap, length_take_le by
        (rewrite ?length_fmap, ?length_take; lia).
      by rewrite Nat.sub_diag, lookup_drop, Nat.add_0_r. }
    { unfold well_shaped in Hshaped.
      by eapply (Forall2_lookup_lr _ _ _ _ _ _ Hshaped Ha Hm). }
    specialize (IH (S k) w1 Hlen Hshaped).
    assert (Hpoly' : polymers w1
              = (normalised <$> take (S k) polymerList) ++ drop (S k) polymerList).
    { rewrite Hpoly1, Hpoly, (take_S_r _ _ a) by done.
      rewrite fmap_app, <- app_assoc. simpl.
      rewrite (drop_S _ a k) by done.
      rewrite insert_app_r_alt, length_fmap, length_take_le by
        (rewrite ?length_fmap, ?length_take; lia).
      by rewrite Nat.sub_diag. }
    specialize (IH Hpoly').
    rewrite Hfmi1, Hfmt1, !length_app in IH. simpl in IH.
    specialize (IH ltac:(lia) ltac:(lia) Hrest).
    unfold range in *. rewrite (seqZ_cons (Z.of_nat k)) by lia. cbn [for_each].
    rewrite Hrun1. simpl.
    replace (Z.succ (Z.of_nat k)) with (Z.of_nat (S k)) by lia.
    replace (Z.pred (Z.of_nat (length polymerList) - Z.of_nat k))
      with (Z.of_nat (length polymerList) - Z.of_nat (S k)) by lia.
    destruct tail as [|[c'|e] tail]; [|done|done].
    destruct IH as (w' & Hrun & Hp & Hi & Ht & Hd & Htm).
    exists w'. rewrite Hi, Ht, Hd, Htm, Hdist1, Htime1.
    rewrite <- !app_assoc. simpl. split_and!; (done || lia).
Qed.

Lemma derive_all_run (x1 : F) polymerList polymerMeta cs tail :
  well_shaped polymerList polymerMeta →
  verdicts x1 polymerList polymerMeta = (Ok <$> cs) ++ tail →
  match tail with
  | [] =>
      ∃ w, derive_all uninit x1 polymerList polymerMeta = Ok w ∧
        polymers w = normalised <$> polymerList ∧
        firstMonomerIndex w = cs.*1 ∧ firstMonomerTime w = cs.*2 ∧
        length (distAxis w) = length polymerList ∧
        length (timeAxis w) = length polymerList
  | Ok _ :: _ => True
  | Raise e :: _ => derive_all uninit x1 polymerList polymerMeta = Raise e
  end.
Proof.
  intros Hshaped Hcross.
  pose proof (Forall2_length _ _ _ Hshaped) as Hlen.
  pose proof (derive_loop x1 polymerList polymerMeta cs tail 0
                (Analysis polymerList [] [] [] []) Hlen Hshaped
                eq_refl eq_refl eq_refl Hcross) as Hloop.
  destruct tail as [|[c|e] tail]; [|done|done].
  destruct Hloop as (w & Hrun & Hp & Hi & Ht & Hd & Htm).
  exists w. split; [done|]. split; [done|]. split; [done|]. split; [done|].
  apply (f_equal length) in Hcross. unfold verdicts in Hcross.
  rewrite app_nil_r, length_zip_with, length_fmap in Hcross.
  simpl in Hd, Htm. lia.
Qed.

End Analysis.

Section AnalysisOutcome.

Context {F : Type} `{!PyFloat F}.
Variable uninit : nat → nat → F.
Implicit Types (a : list (list F)) (m : meta) (w : analysis F)
  (polymerList : list (list (list F))) (polymerMeta : list meta).

(** X9.  An iteration of the loop of line 124 that finds a crossing, and
    whose [dumpStep] and time offsets are not too large for a [float],
    replaces the matrix of its file in [polymerList] by the normalised one
    and leaves the matrices of the other files as they are. *)
Theorem derive_normalises_its_matrix_only (x1 : F) polymerMeta i w a m c0 :
  0 ≤ i →
  polymers w !! Z.to_nat i = Some a → polymerMeta !! Z.to_nat i = Some m →
  length (firstMonomerIndex w) = Z.to_nat i →
  length (firstMonomerTime w) = Z.to_nat i →
  shape a (numAtoms m) (int_of_Q (numDumps m)) →
  first_crossing x1 a (numAtoms m) (int_of_Q (numDumps m)) = Some c0 →
  convertible m c0.2 = true →
  ∃ w', derive uninit x1 polymerMeta i w = Ok w' ∧
    length (polymers w') = length (polymers w) ∧
    polymers w' !! Z.to_nat i = Some (normalised a) ∧
    ∀ j : nat, j ≠ Z.to_nat i → polymers w' !! j = polymers w !! j.
Proof.
  intros Hi Ha Hm Hfmi Hfmt Hshape Hfc Hconv.
  destruct (derive_Ok uninit x1 polymerMeta i w a m c0)
    as (w' & Hrun & Hpoly & _); [done..|].
  exists w'. rewrite Hpoly. split; [done|].
  split; [by rewrite length_insert|]. split.
  - apply list_lookup_insert_eq. by eapply lookup_lt_Some.
  - intros j Hj. by apply list_lookup_insert_ne.
Qed.

(** X10.  When every matrix has the shape of its metadata, a crossing, and
    a [dumpStep] and time offsets that are not too large for a [float]
    (the verdict of every file is a crossing), the loop of line 124 ends
    normally: every matrix is normalised, [firstMonomerIndex] and
    [firstMonomerTime] list the crossings in the order of the files, and
    [distAxis] and [timeAxis] have one entry per file. *)
Theorem derive_all_series (x1 : F) polymerList polymerMeta cs :
  well_shaped polymerList polymerMeta →
  verdicts x1 polymerList polymerMeta = Ok <$> cs →
  ∃ w, derive_all uninit x1 polymerList polymerMeta = Ok w ∧
    polymers w = normalised <$> polymerList ∧
    firstMonomerIndex w = cs.*1 ∧ firstMonomerTime w = cs.*2 ∧
    length (distAxis w) = length polymerList ∧
    length (timeAxis w) = length polymerList.
Proof.
  intros Hshaped Hcross.
  apply (derive_all_run uninit x1 polymerList polymerMeta cs []); [done|].
  by rewrite app_nil_r.
Qed.

(** X11.  The first file whose verdict is an exception ends the loop of
    line 124 with that exception: [IndexError] if the file has no
    crossing, [OverflowError] if it has one and its [dumpStep] or a time
    offset is too large for a [float].  The series of the files before it
    are lost with the program, and the files after it are not looked
    at. *)
Theorem derive_all_aborts (x1 : F) polymerList polymerMeta cs e rest :
  well_shaped polymerList polymerMeta →
  verdicts x1 polymerList polymerMeta = (Ok <$> cs) ++ Raise e :: rest →
  derive_all uninit x1 polymerList polymerMeta = Raise e ∧
  ∃ a m, polymerList !! length cs = Some a ∧ polymerMeta !! length cs = Some m ∧
    match first_crossing x1 a (numAtoms m) (int_of_Q (numDumps m)) with
    | None => e = IndexError
    | Some c0 => e = OverflowError ∧ convertible m c0.2 = false
    end.
Proof.
  intros Hshaped Hv. split.
  - by apply (derive_all_run uninit x1 polymerList polymerMeta cs (Raise e :: rest)).
  - unfold verdicts in Hv.
    assert (Hk : zip_with (verdict x1) polymerList polymerMeta !! length cs
                 = Some (Raise e)).
    { rewrite Hv, lookup_app_r, length_fmap, Nat.sub_diag by
        (by rewrite length_fmap). done. }
    apply lookup_zip_with_Some in Hk as (a & m & Hve & Ha & Hm).
    exists a, m. split; [done|]. split; [done|]. unfold verdict in Hve.
    destruct (first_crossing x1 a (numAtoms m) (int_of_Q (numDumps m)))
      as [c0|]; [|congruence].
    destruct (convertible m c0.2); [done|]. split; [congruence|done].
Qed.

(** X12.  The two loops together: an exception of the loop over the files
    is the exception of the program; after that loop the program ends with
    the exception of the first decoded file whose verdict is one
    ([IndexError] without a crossing, [OverflowError] when line 154 cannot
    convert an integer); when every verdict is a crossing there is one
    series per decoded file. *)
Theorem trajep_outcome (x1 : F) (disk : gmap string (list string))
    (fileList : list string) :
  (∀ e, read_dumps uninit disk fileList = Raise e →
        trajep uninit x1 disk fileList = Raise e) ∧
  (∀ r, read_dumps uninit disk fileList = Ok r →
     (∀ cs e rest,
        verdicts x1 (polymerList r) (polymerMeta r)
        = (Ok <$> cs) ++ Raise e :: rest →
        trajep uninit x1 disk fileList = Raise e ∧
        (e = IndexError ∨ e = OverflowError)) ∧
     (∀ cs, verdicts x1 (polymerList r) (polymerMeta r) = Ok <$> cs →
        ∃ w, trajep uninit x1 disk fileList = Ok w ∧
          polymers w = normalised <$> polymerList r ∧
          firstMonomerIndex w = cs.*1 ∧ firstMonomerTime w = cs.*2 ∧
          length (distAxis w) = length (polymerList r) ∧
          length (timeAxis w) = length (polymerList r)) ∧
     ((∃ cs e rest, verdicts x1 (polymerList r) (polymerMeta r)
                    = (Ok <$> cs) ++ Raise e :: rest) ∨
      (∃ cs, verdicts x1 (polymerList r) (polymerMeta r) = Ok <$> cs))).
Proof.
  unfold trajep. split.
  - by intros e ->.
  - intros r Hr. pose proof (read_dumps_shapes uninit _ _ _ Hr) as Hshaped.
    rewrite Hr. simpl. split; [|split].
    + intros cs e rest Hv. split.
      * by apply (derive_all_run uninit x1 _ _ cs (Raise e :: rest)).
      * unfold verdicts in Hv.
        assert (Hk : zip_with (verdict x1) (polymerList r) (polymerMeta r)
                       !! length cs = Some (Raise e)).
        { rewrite Hv, lookup_app_r, length_fmap, Nat.sub_diag by
            (by rewrite length_fmap). done. }
        apply lookup_zip_with_Some in Hk as (a & m & Hve & _).
        unfold verdict in Hve.
        destruct (first_crossing x1 a (numAtoms m) (int_of_Q (numDumps m)))
          as [c0|]; [|left; congruence].
        destruct (convertible m c0.2); [done|right; congruence].
    + intros cs Hcs.
      apply (derive_all_run uninit x1 _ _ cs []); [done|].
      by rewrite app_nil_r.
    + destruct (outcomes_split (verdicts x1 (polymerList r) (polymerMeta r)))
        as [[cs Hcs]|(cs & e & rest & Hcs)]; eauto 6.
Qed.

End AnalysisOutcome.

(** ** The choice of the files *)

Lemma list_ascii_of_string_app (s1 s2 : string) :
  list_ascii_of_string (s1 ++ s2)
  = list_ascii_of_string s1 ++ list_ascii_of_string s2.
Proof. induction s1 as [|c s1 IH]; simpl; [done|]. by rewrite IH. Qed.

Lemma string_of_list_ascii_app (l1 l2 : list ascii) :
  string_of_list_ascii (l1 ++ l2)
  = (string_of_list_ascii l1 ++ string_of_list_ascii l2)%string.
Proof. induction l1 as [|c l1 IH]; simpl; [done|]. by rewrite IH. Qed.

Lemma length_list_ascii_of_string (s : string) :
  length (list_ascii_of_string s) = String.length s.
Proof. induction s as [|c s IH]; simpl; [done|]. by rewrite IH. Qed.

(** The characters of a name that is kept. *)
Lemma trajectory_name_chars (name : string) :
  trajectory_name name ↔
  ∃ pre c, list_ascii_of_string name
           = pre ++ c :: list_ascii_of_string ".lammpstrj" ∧ c ≠ "w"%char.
Proof.
  split.
  - intros (stem & c & -> & Hc). exists (list_ascii_of_string stem), c.
    by rewrite list_ascii_of_string_app.
  - intros (pre & c & Hname & Hc). exists (string_of_list_ascii pre), c.
    split; [|done].
    rewrite <- (string_of_list_ascii_of_string name), Hname.
    by rewrite string_of_list_ascii_app.
Qed.

Section Discovery.

Variables (cwd : string) (isfile : string → bool).

(** The body of the loop keeps the path of a name exactly when the name is
    that of a file and a trajectory name, and raises nothing. *)
Lemma consider_cases (name : string) (fileList : list string) :
  (consider cwd isfile name fileList = Ok (fileList ++ [path_join cwd name]) ∧
   isfile (path_join cwd name) = true ∧ trajectory_name name) ∨
  (consider cwd isfile name fileList = Ok fileList ∧
   ¬ (isfile (path_join cwd name) = true ∧ trajectory_name name)).
Proof.
  unfold consider. destruct (isfile (path_join cwd name)) eqn:Hfile; simpl.
  2:{ right. split; [done|]. by intros [? _]. }
  change MIN_NAME_LENGTH with 11. unfold str_len, str_slice, str_getitem.
  rewrite <- length_list_ascii_of_string.
  set (l := list_ascii_of_string name).
  assert (Hchars : ∀ pre c,
            l = pre ++ c :: list_ascii_of_string ".lammpstrj" →
            (length l = length pre + 11)%nat ∧
            l !! (length l - 11)%nat = Some c ∧
            drop (length l - 10) l = list_ascii_of_string ".lammpstrj").
  { intros pre c ->. rewrite length_app. simpl. split; [lia|]. split.
    - replace (length pre + 11 - 11)%nat with (length pre) by lia.
      by rewrite list_lookup_middle.
    - replace (length pre + 11 - 10)%nat with (length pre + 1)%nat by lia.
      by rewrite drop_app_add. }
  destruct (Z.of_nat (length l) <? 11) eqn:Hlen.
  { right. split; [done|]. intros [_ (pre & c & Hname & _)%trajectory_name_chars].
    destruct (Hchars pre c Hname) as [? _]. lia. }
  destruct (lookup_lt_is_Some_2 l (length l - 11)) as [c Hc]; [lia|].
  rewrite (getitem_lookup _ _ c)
    by (lia || by replace (Z.to_nat (Z.of_nat (length l) - 11))
                    with (length l - 11)%nat by lia).
  simpl.
  assert (Hslice :
    take (slice_bound (length l) (Z.of_nat (length l))
          - slice_bound (length l) (Z.of_nat (length l) - 11 + 1))
      (drop (slice_bound (length l) (Z.of_nat (length l) - 11 + 1)) l)
    = drop (length l - 10) l).
  { unfold slice_bound.
    destruct (Z.of_nat (length l) <? 0) eqn:?; [lia|].
    destruct (Z.of_nat (length l) - 11 + 1 <? 0) eqn:?; [lia|].
    replace (Z.to_nat (Z.min _ (Z.max 0 (Z.of_nat (length l) - 11 + 1))))
      with (length l - 10)%nat by lia.
    replace (Z.to_nat (Z.min _ (Z.max 0 (Z.of_nat (length l)))))
      with (length l) by lia.
    apply take_ge. rewrite length_drop. lia. }
  rewrite Hslice.
  destruct (String.eqb_spec (string_of_list_ascii (drop (length l - 10) l))
              ".lammpstrj") as [Hext|Hext]; simpl.
  - destruct (Ascii.eqb_spec c "w") as [Hw|Hw]; simpl.
    + right. split; [done|].
      intros [_ (pre & c' & Hname & Hc')%trajectory_name_chars].
      destruct (Hchars pre c' Hname) as (_ & Hc'' & _). congruence.
    + left. split; [done|]. split; [done|].
      apply trajectory_name_chars. exists (take (length l - 11) l), c.
      split; [|congruence].
      rewrite <- Hext, list_ascii_of_string_of_list_ascii.
      replace (length l - 10)%nat with (S (length l - 11)) by lia.
      by rewrite take_drop_middle.
  - right. split; [done|].
    intros [_ (pre & c' & Hname & Hc')%trajectory_name_chars].
    destruct (Hchars pre c' Hname) as (_ & _ & Hdrop). apply Hext.
    by rewrite Hdrop.
Qed.

Lemma discover_from (listing : list string) : ∀ acc : list string,
  ∃ kept,
    for_each (consider cwd isfile) listing acc = Ok (acc ++ kept) ∧
    kept `sublist_of` (path_join cwd <$> listing) ∧
    ∀ path, path ∈ kept ↔
      ∃ name, name ∈ listing ∧ path = path_join cwd name ∧
        isfile path = true ∧ trajectory_name name.
Proof.
  induction listing as [|name listing IH]; intros acc.
  { exists []. rewrite app_nil_r. split; [done|]. split; [done|].
    intros path. split; [by intros ?%elem_of_nil|].
    by intros (? & ?%elem_of_nil & _). }
  cbn [for_each].
  destruct (consider_cases name acc) as [(-> & Hfile & Hname)|[-> Hnot]]; simpl.
  - destruct (IH (acc ++ [path_join cwd name])) as (kept & -> & Hsub & Hin).
    exists (path_join cwd name :: kept). rewrite <- app_assoc.
    split; [done|]. split; [by constructor|].
    intros path. rewrite elem_of_cons, Hin. split.
    + intros [->|(n & ? & ? & ? & ?)].
      * exists name. split_and!; (done || by left).
      * exists n. split_and!; (done || by right).
    + intros (n & [->|?]%elem_of_cons & -> & ? & ?); [by left|].
      right. by exists n.
  - destruct (IH acc) as (kept & -> & Hsub & Hin).
    exists kept. split; [done|]. split; [by constructor|].
    intros path. rewrite Hin. split.
    + intros (n & ? & ? & ? & ?). exists n. split_and!; (done || by right).
    + intros (n & [->|?]%elem_of_cons & -> & ? & ?); [by destruct Hnot|].
      by exists n.
Qed.

(** X13.  The choice of the files never raises (the test on the length of
    the name protects the index of line 41).  It keeps, in the order of the
    listing, the paths of the entries that are files and whose name is
    something, then a character other than [w], then [.lammpstrj]: the
    extension alone is not enough, and for a wall file only the character
    before the extension counts. *)
Theorem discover_keeps_trajectories (listing : list string) :
  ∃ fileList,
    discover false cwd isfile listing = Ok fileList ∧
    fileList `sublist_of` (path_join cwd <$> listing) ∧
    ∀ path, path ∈ fileList ↔
      ∃ name, name ∈ listing ∧ path = path_join cwd name ∧
        isfile path = true ∧ trajectory_name name.
Proof. destruct (discover_from listing []) as (kept & ? & ?). by exists kept. Qed.

End Discovery.

(** ** The command line *)

Section CommandLine.

Context {F : Type} `{!PyFloat F}.
Variable uninit : nat → nat → F.

(** X14.  With fewer than three arguments the program stops with the
    [AttributeError] of line 15 before it looks at any file.  Otherwise both
    thresholds must be numbers ([ValueError] if not), the files are chosen
    with [parseDescendants] off whatever the first argument says, and the
    result is that of the two loops for the first threshold: the second
    threshold is read and never used. *)
Theorem main_outcome (argv : list string) (cwd : string)
    (isfile : string → bool) (listing : list string)
    (disk : gmap string (list string)) :
  ((length argv < 4)%nat → main uninit argv cwd isfile listing disk = AttributeError) ∧
  (∀ a2, argv !! 2%nat = Some a2 → (4 ≤ length argv)%nat →
     float_of_str (F := F) a2 = None →
     main uninit argv cwd isfile listing disk = Uncaught ValueError) ∧
  (∀ a2 a3 (x1 : F), argv !! 2%nat = Some a2 → argv !! 3%nat = Some a3 →
     float_of_str a2 = Some x1 → float_of_str (F := F) a3 = None →
     main uninit argv cwd isfile listing disk = Uncaught ValueError) ∧
  (∀ a2 a3 (x1 x2 : F), argv !! 2%nat = Some a2 → argv !! 3%nat = Some a3 →
     float_of_str a2 = Some x1 → float_of_str a3 = Some x2 →
     ∃ fileList,
       discover false cwd isfile listing = Ok fileList ∧
       main uninit argv cwd isfile listing disk
       = run_of (trajep uninit x1 disk fileList)).
Proof.
  unfold main, thresholds. split_and!.
  - intros Hlen. by destruct (Z.of_nat (length argv) - 1 <? 3) eqn:?; [|lia].
  - intros a2 Ha2 Hlen Hx1.
    destruct (Z.of_nat (length argv) - 1 <? 3) eqn:?; [lia|].
    rewrite (getitem_lookup argv 2 a2) by (lia || exact Ha2). simpl.
    unfold to_float. by rewrite Hx1.
  - intros a2 a3 x1 Ha2 Ha3 Hx1 Hx2. pose proof (lookup_lt_Some _ _ _ Ha3).
    destruct (Z.of_nat (length argv) - 1 <? 3) eqn:?; [lia|].
    rewrite (getitem_lookup argv 2 a2) by (lia || exact Ha2). simpl.
    unfold to_float. rewrite Hx1. simpl.
    rewrite (getitem_lookup argv 3 a3) by (lia || exact Ha3). simpl. by rewrite Hx2.
  - intros a2 a3 x1 x2 Ha2 Ha3 Hx1 Hx2. pose proof (lookup_lt_Some _ _ _ Ha3).
    destruct (Z.of_nat (length argv) - 1 <? 3) eqn:?; [lia|].
    rewrite (getitem_lookup argv 2 a2) by (lia || exact Ha2). simpl.
    unfold to_float. rewrite Hx1. simpl.
    rewrite (getitem_lookup argv 3 a3) by (lia || exact Ha3). simpl. rewrite Hx2. simpl.
    destruct (discover_from cwd isfile listing []) as (kept & Hkept & _).
    exists kept. split; [done|]. unfold discover. simpl.
    by rewrite Hkept.
Qed.

End CommandLine.

(** ** Runs on the files that are not well formed *)

Lemma decoded_file_is_well_shaped_witness :
  shape Sample.matrix 3 (int_of_Q (Qmake 27 12)).
Proof.
  destruct (decoded_file_is_well_shaped (PyFloat0 := float64) Sample.zeros
              Sample.truncated Sample.matrix Sample.matrix_meta
              [(2, 0); (0, 0); (1, 0); (1, 1); (2, 1); (0, 1)])
    as (_ & _ & _ & _ & Hshape); [by vm_compute|exact Hshape].
Defined.

Lemma read_dumps_well_shaped_witness :
  ∃ w, read_dumps (PyFloat0 := float64) Sample.zeros Sample.disk
         ["short.lammpstrj"; "run.lammpstrj"; "again.lammpstrj"]%string = Ok w
       ∧ well_shaped (polymerList w) (polymerMeta w)
       ∧ length (polymerList w) = length (polymerMeta w).
Proof.
  eexists. split; [by vm_compute|].
  apply (read_dumps_well_shaped (PyFloat0 := float64) Sample.zeros Sample.disk
           ["short.lammpstrj"; "run.lammpstrj"; "again.lammpstrj"]%string).
  by vm_compute.
Defined.

Lemma read_dumps_closes_decoded_only_witness :
  ∃ w, read_dumps (PyFloat0 := float64) Sample.zeros Sample.disk
         ["short.lammpstrj"; "run.lammpstrj"; "short.lammpstrj"]%string = Ok w
       ∧ open_files w = ["short.lammpstrj"; "short.lammpstrj"]%string.
Proof.
  eexists. split; [by vm_compute|].
  destruct (read_dumps_closes_decoded_only (PyFloat0 := float64) Sample.zeros
              Sample.disk
              ["short.lammpstrj"; "run.lammpstrj"; "short.lammpstrj"]%string
              (Reader [Sample.matrix]
                 [Sample.matrix_meta]
                 ["short.lammpstrj"; "short.lammpstrj"]%string))
    as [Hopen _]; [by vm_compute|].
  by vm_compute.
Defined.

Lemma read_dumps_stops_at_first_error_witness :
  read_dumps (PyFloat0 := float64) Sample.zeros Broken.disk
    ["run.lammpstrj"; "bad.lammpstrj"; "again.lammpstrj"]%string
  = Raise ValueError.
Proof.
  apply (read_dumps_stops_at_first_error (PyFloat0 := float64) Sample.zeros
           Broken.disk ["run.lammpstrj"%string] "bad.lammpstrj"
           ["again.lammpstrj"%string]
           (Reader [Sample.matrix] [Sample.matrix_meta] [])).
  - by vm_compute.
  - right. exists Broken.bad_count. split; by vm_compute.
Defined.

Lemma header_errors_witness :
  decode (PyFloat0 := float64) Sample.zeros Broken.bad_count = Raise ValueError.
Proof.
  destruct (header_errors (PyFloat0 := float64) Sample.zeros Broken.bad_count
              (Broken.bad_count !!! 3%nat) eq_refl) as [Hcount _].
  apply Hcount. by vm_compute.
Defined.

Lemma blank_atom_header : readable_header Broken.blank_atom 2 500.
Proof. eexists _, _. split_and!; (reflexivity || lia). Qed.

Lemma first_chunk_identifier_error_witness :
  decode (PyFloat0 := float64) Sample.zeros Broken.blank_atom = Raise IndexError.
Proof.
  apply (first_chunk_identifier_error (PyFloat0 := float64) Sample.zeros
           Broken.blank_atom 2 500
           [(Broken.blank_atom !!! 9%nat)] Sample.newline []).
  - apply blank_atom_header.
  - by vm_compute.
  - constructor; [|constructor]. exists 7. by vm_compute.
  - by vm_compute.
Defined.

Lemma no_coordinate_header : readable_header Broken.no_coordinate 2 500.
Proof. eexists _, _. split_and!; (reflexivity || lia). Qed.

Lemma atom_line_error_witness :
  decode (PyFloat0 := float64) Sample.zeros Broken.no_coordinate
  = Raise IndexError.
Proof.
  apply (atom_line_error (PyFloat0 := float64) Sample.zeros
           Broken.no_coordinate 2 500 [7; 8] Broken.first_atoms 1
           [(Broken.no_coordinate !!! 20%nat)]
           (Broken.no_coordinate !!! 21%nat) []
           [(8, 3.5%float)]).
  - apply no_coordinate_header.
  - split; [reflexivity|].
    match goal with |- Forall2 _ ?l _ => evaluate l end.
    repeat (constructor; [vm_compute; reflexivity|]). constructor.
  - by vm_compute.
  - intros k Hk. assert (k = 0) as -> by lia. split; [chunk_of_sample|].
    intros atom Hatom. vm_compute in Hatom.
    apply elem_of_cons in Hatom as [->|Hatom]; [by left|].
    apply elem_of_cons in Hatom as [->|Hatom]; [by right; left|].
    by apply elem_of_nil in Hatom.
  - by vm_compute.
  - constructor; [by vm_compute|constructor].
  - intros atom ->%list_elem_of_singleton. by right; left.
  - by vm_compute.
Defined.

Lemma duplicates_header : readable_header Sample.duplicates 2 500.
Proof. eexists _, _. split_and!; (reflexivity || lia). Qed.

Lemma unassigned_cells_keep_allocation_witness :
  ∃ a written,
    decode (PyFloat0 := float64) Sample.zeros Sample.duplicates
    = Ok (Some (a, meta_of Sample.duplicates 2 500, written)) ∧
    np_get a 0 0 = Ok 0%float ∧ np_get a 0 1 = Ok 0%float.
Proof.
  destruct (unassigned_cells_keep_allocation (PyFloat0 := float64) Sample.zeros
              Sample.duplicates 2 500 Broken.duplicate_atoms duplicates_header)
    as (a & written & Hrun & Hcells).
  - change (num_chunks Sample.duplicates 2) with 2. intros i Hi.
    assert (i = 0 ∨ i = 1) as [-> | ->] by lia;
      (split; [chunk_of_sample|]); intros atom Hatom; vm_compute in Hatom |- *;
      repeat (apply elem_of_cons in Hatom as [->|Hatom]; [by left|]);
      by apply elem_of_nil in Hatom.
  - exists a, written. split; [exact Hrun|].
    pose proof Hrun as Hrun'. vm_compute in Hrun'.
    injection Hrun' as <- <-.
    split; by vm_compute.
Defined.

Lemma derive_normalises_its_matrix_only_witness :
  ∃ w', derive (PyFloat0 := float64) Sample.zeros 4%float [Sample.matrix_meta] 0
          (Analysis [Sample.matrix] [] [] [] []) = Ok w'
        ∧ polymers w' !! 0%nat = Some (normalised (PyFloat0 := float64) Sample.matrix).
Proof.
  destruct (derive_normalises_its_matrix_only (PyFloat0 := float64) Sample.zeros
              4%float [Sample.matrix_meta] 0 (Analysis [Sample.matrix] [] [] [] [])
              Sample.matrix Sample.matrix_meta (0, 1))
    as (w' & Hw & _ & Hi & _);
    [done|reflexivity|reflexivity|reflexivity|reflexivity
    |apply matrix_shape|by vm_compute|by vm_compute|].
  exists w'. split; [exact Hw|exact Hi].
Defined.

Lemma sample_well_shaped :
  well_shaped [Sample.matrix; Sample.matrix]
    [Sample.matrix_meta; Sample.matrix_meta].
Proof. repeat constructor; apply matrix_shape. Qed.

Lemma derive_all_series_witness :
  ∃ w, derive_all (PyFloat0 := float64) Sample.zeros 4%float
         [Sample.matrix; Sample.matrix]
         [Sample.matrix_meta; Sample.matrix_meta] = Ok w
       ∧ firstMonomerIndex w = [0; 0] ∧ firstMonomerTime w = [1; 1].
Proof.
  destruct (derive_all_series (PyFloat0 := float64) Sample.zeros 4%float
              [Sample.matrix; Sample.matrix]
              [Sample.matrix_meta; Sample.matrix_meta] [(0, 1); (0, 1)]
              sample_well_shaped)
    as (w & Hw & _ & Hi & Ht & _); [by vm_compute|].
  exists w. split; [exact Hw|]. split; [exact Hi|exact Ht].
Defined.

Lemma derive_all_aborts_witness :
  derive_all (PyFloat0 := float64) Sample.zeros 4%float
    [Sample.matrix; Sample.matrix; Sample.matrix]
    [Sample.matrix_meta; Broken.huge_step_meta; Sample.matrix_meta]
  = Raise OverflowError.
Proof.
  apply (derive_all_aborts (PyFloat0 := float64) Sample.zeros 4%float
           [Sample.matrix; Sample.matrix; Sample.matrix]
           [Sample.matrix_meta; Broken.huge_step_meta; Sample.matrix_meta]
           [(0, 1)] OverflowError [Ok (0, 1)]).
  - repeat constructor; apply matrix_shape.
  - by vm_compute.
Defined.
